(** * The reconciliation worker of the ClickHouse operator

    A shallow embedding of [pkg/controller/chi/worker.go]: the worker loop,
    the per-installation reconcile driver, the per-host exclude / apply /
    include protocol and the object reconcilers, followed by the properties
    the design document states about them.

    Conventions of the embedding.
    - A Go [error] is an [Error]: [None] is [nil].
    - A Go pointer that the code tests against [nil] is an [option].
    - Every call that leaves the worker (work queue, runtime error handler,
      controller, Kubernetes client, Schemer, Announcer events and status
      notes) is an [Op]; the environment answers it as a function of the
      history so far, and the call together with its answer is appended to
      the [trace] of the [World].
    - The installations a reconcile mutates through aliases
      ([host.CHI.Status...], [host.ReconcileAttributes...]) live in the
      [World]; hosts, shards and clusters are addressed by pointers into
      them.
    - Plain log lines ([w.a.V(n).Info], [w.a.Error] without [WithEvent] or
      [WithStatus...]) are not modelled. *)

From Stdlib Require Import ZArith Lia List Bool.
From stdpp Require Import base strings list gmap.

Local Open Scope Z_scope.
Local Open Scope nat_scope.

(** ** Errors *)

Inductive ErrKind :=
| ErrNotFound
| ErrOther (msg : string).

(** Go's [error]; [None] is [nil]. *)
Definition Error := option ErrKind.

Definition noError : Error := None.

(** [apierrors.IsNotFound]. *)
Definition IsNotFound (e : Error) : bool :=
  match e with
  | Some ErrNotFound => true
  | _ => false
  end.

Definition isNil (e : Error) : bool :=
  match e with
  | None => true
  | Some _ => false
  end.

(** ** Go's [int]

    Counters of [ChiStatus] are Go [int]s: 64-bit two's complement. *)


Definition int_wrap (z : Z) : Z := ((z + 2 ^ 63) mod 2 ^ 64 - 2 ^ 63)%Z.

(** [x++] on an [int]. *)
Definition int_incr (x : Z) : Z := int_wrap (x + 1).

(** ** Kubernetes objects (the fields the worker reads or writes) *)

Record ObjectMeta := mkObjectMeta {
  om_Namespace : string;
  om_Name : string;
  om_ResourceVersion : string;
  om_DeletionTimestamp : option Z;
  om_Labels : gmap string string;
  om_Annotations : gmap string string;
  om_Finalizers : list string
}.

(** [meta.Time.IsZero] on a [*meta.Time]: a nil pointer or the zero time. *)
Definition DeletionTimestamp_IsZero (m : ObjectMeta) : bool :=
  match om_DeletionTimestamp m with
  | None => true
  | Some t => (t =? 0)%Z
  end.

Record ConfigMap := mkConfigMap {
  cm_ObjectMeta : ObjectMeta;
  cm_Data : gmap string string
}.

Record ServicePort := mkServicePort {
  port_Name : string;
  port_Protocol : string;
  port_Port : Z;
  port_TargetPort : Z;
  port_NodePort : Z
}.

(** [core.ServiceType] and [core.ServiceExternalTrafficPolicyType] are Go
    string types. *)
Definition ServiceTypeClusterIP : string := "ClusterIP".
Definition ServiceTypeNodePort : string := "NodePort".
Definition ServiceTypeLoadBalancer : string := "LoadBalancer".
Definition ServiceExternalTrafficPolicyTypeLocal : string := "Local".
Definition ServiceExternalTrafficPolicyTypeCluster : string := "Cluster".

Record ServiceSpec := mkServiceSpec {
  spec_Ports : list ServicePort;
  spec_Type : string;
  spec_ClusterIP : string;
  spec_ExternalTrafficPolicy : string;
  spec_HealthCheckNodePort : Z
}.

Record Service := mkService {
  svc_ObjectMeta : ObjectMeta;
  svc_Spec : ServiceSpec
}.

(** The spec of a StatefulSet is opaque to the worker, which only compares
    two of them. *)
Record StatefulSet := mkStatefulSet {
  sts_ObjectMeta : ObjectMeta;
  sts_Spec : string
}.

(** [resource.Quantity]: an amount and the format it is printed in.  The
    amount is the value of the quantity, so that of 10Gi is 10 * 2^30.
    [Quantity.Equal] compares amounts only. *)
Record Quantity := mkQuantity {
  q_amount : Z;
  q_format : string
}.

Definition Quantity_Equal (a b : Quantity) : bool := (q_amount a =? q_amount b)%Z.

(** [core.ResourceList]: a Go map from resource names to quantities. *)
Abbreviation ResourceList := (gmap string Quantity).

Record PersistentVolumeClaim := mkPVC {
  pvc_ObjectMeta : ObjectMeta;
  pvc_Requests : ResourceList
}.

Record PersistentVolume := mkPV {
  pv_ObjectMeta : ObjectMeta
}.

Record VolumeMount := mkVolumeMount {
  mount_Name : string;
  mount_MountPath : string
}.

(** ** The installation: CHI, clusters, shards, hosts

    Modelled from the spec: the types of the [chop] API package
    ([ClickHouseInstallation], [ChiCluster], [ChiShard], [ChiHost],
    [ChiStatus], ...) and their methods are declared outside this file; the
    records below have the fields the worker reads or writes, as the data
    model of the spec describes them. *)

Record ChiHostAddress := mkAddress {
  addr_Namespace : string;
  addr_ClusterName : string;
  addr_ShardIndex : Z;
  addr_ReplicaIndex : Z;
  addr_HostName : string
}.

(** Modelled from the spec: [chop.ChiHostReconcileAttributes], its setters
    and tests are declared outside this file; the spec lists the flags
    [Add], [Modify], [Unclear], [Migrate], [Reconciled]. *)
Record ChiHostReconcileAttributes := mkAttrs {
  attr_add : bool;
  attr_modify : bool;
  attr_unclear : bool;
  attr_migrate : bool;
  attr_reconciled : bool
}.

Definition NewChiHostReconcileAttributes : ChiHostReconcileAttributes :=
  mkAttrs false false false false false.

Definition SetAdd (a : ChiHostReconcileAttributes) :=
  mkAttrs true (attr_modify a) (attr_unclear a) (attr_migrate a) (attr_reconciled a).
Definition UnsetAdd (a : ChiHostReconcileAttributes) :=
  mkAttrs false (attr_modify a) (attr_unclear a) (attr_migrate a) (attr_reconciled a).
Definition SetModify (a : ChiHostReconcileAttributes) :=
  mkAttrs (attr_add a) true (attr_unclear a) (attr_migrate a) (attr_reconciled a).
Definition SetUnclear (a : ChiHostReconcileAttributes) :=
  mkAttrs (attr_add a) (attr_modify a) true (attr_migrate a) (attr_reconciled a).
Definition SetMigrate (a : ChiHostReconcileAttributes) :=
  mkAttrs (attr_add a) (attr_modify a) (attr_unclear a) true (attr_reconciled a).
Definition SetReconciled (a : ChiHostReconcileAttributes) :=
  mkAttrs (attr_add a) (attr_modify a) (attr_unclear a) (attr_migrate a) true.

Definition IsAdd := attr_add.
Definition IsModify := attr_modify.
Definition IsUnclear := attr_unclear.
Definition IsMigrate := attr_migrate.
Definition IsReconciled := attr_reconciled.

Record ChiHost := mkHost {
  host_Name : string;
  host_Address : ChiHostAddress;
  host_ReconcileAttributes : ChiHostReconcileAttributes;
  host_StatefulSet : StatefulSet;
  host_VolumeMounts : list VolumeMount
}.

Definition host_setAttrs (f : ChiHostReconcileAttributes -> ChiHostReconcileAttributes)
    (h : ChiHost) : ChiHost :=
  mkHost (host_Name h) (host_Address h) (f (host_ReconcileAttributes h))
         (host_StatefulSet h) (host_VolumeMounts h).

Record ChiShard := mkShard {
  shard_Name : string;
  shard_Hosts : list ChiHost
}.

Record ChiCluster := mkCluster {
  cluster_Name : string;
  cluster_Shards : list ChiShard
}.

Record ChiVolumeClaimTemplate := mkVCT {
  vct_Name : string;
  vct_Requests : ResourceList
}.

Record ChiStatus := mkStatus {
  st_Status : string;
  st_AddedHostsCount : Z;
  st_UpdatedHostsCount : Z;
  st_DeletedHostsCount : Z;
  st_DeleteHostsCount : Z
}.

(** Modelled from the spec: the reconciling policy of a CHI is declared
    outside this file; the spec names the policies [Wait] and [NoWait], any
    other setting leaves the decision to the operator configuration. *)
Inductive ReconcilingPolicy :=
| ReconcilingPolicyUnspecified
| ReconcilingPolicyWait
| ReconcilingPolicyNoWait.

Record ClickHouseInstallation := mkCHI {
  chi_ObjectMeta : ObjectMeta;
  chi_Stop : bool;
  chi_ReconcilingPolicy : ReconcilingPolicy;
  chi_VolumeClaimTemplates : list ChiVolumeClaimTemplate;
  chi_Clusters : list ChiCluster;
  chi_Status : ChiStatus
}.

Definition chi_setStatus (f : ChiStatus -> ChiStatus) (c : ClickHouseInstallation) :=
  mkCHI (chi_ObjectMeta c) (chi_Stop c) (chi_ReconcilingPolicy c)
        (chi_VolumeClaimTemplates c) (chi_Clusters c) (f (chi_Status c)).

Definition chi_setClusters (cs : list ChiCluster) (c : ClickHouseInstallation) :=
  mkCHI (chi_ObjectMeta c) (chi_Stop c) (chi_ReconcilingPolicy c)
        (chi_VolumeClaimTemplates c) cs (chi_Status c).

(** Modelled from the spec: [chi.IsStopped], [chi.IsReconcilingPolicyWait]
    and [chi.IsReconcilingPolicyNoWait] are declared outside this file. *)
Definition IsStopped (c : ClickHouseInstallation) : bool := chi_Stop c.

Definition IsReconcilingPolicyWait (c : ClickHouseInstallation) : bool :=
  match chi_ReconcilingPolicy c with
  | ReconcilingPolicyWait => true
  | _ => false
  end.

Definition IsReconcilingPolicyNoWait (c : ClickHouseInstallation) : bool :=
  match chi_ReconcilingPolicy c with
  | ReconcilingPolicyNoWait => true
  | _ => false
  end.

(** Modelled from the spec: the status transitions of [chop.ChiStatus] are
    declared outside this file.  [ReconcileStart] opens a reconcile with the
    number of hosts to remove and fresh counters, [ReconcileComplete] and
    [DeleteStart] set the phase marker. *)
Definition ReconcileStart (deleteHostsCount : Z) (s : ChiStatus) : ChiStatus :=
  mkStatus "InProgress" 0 0 0 deleteHostsCount.

Definition ReconcileComplete (s : ChiStatus) : ChiStatus :=
  mkStatus "Completed" (st_AddedHostsCount s) (st_UpdatedHostsCount s)
           (st_DeletedHostsCount s) (st_DeleteHostsCount s).

Definition DeleteStart (s : ChiStatus) : ChiStatus :=
  mkStatus "Terminating" (st_AddedHostsCount s) (st_UpdatedHostsCount s)
           (st_DeletedHostsCount s) (st_DeleteHostsCount s).

Definition incrAddedHostsCount (s : ChiStatus) : ChiStatus :=
  mkStatus (st_Status s) (int_incr (st_AddedHostsCount s)) (st_UpdatedHostsCount s)
           (st_DeletedHostsCount s) (st_DeleteHostsCount s).

Definition incrUpdatedHostsCount (s : ChiStatus) : ChiStatus :=
  mkStatus (st_Status s) (st_AddedHostsCount s) (int_incr (st_UpdatedHostsCount s))
           (st_DeletedHostsCount s) (st_DeleteHostsCount s).

Definition incrDeletedHostsCount (s : ChiStatus) : ChiStatus :=
  mkStatus (st_Status s) (st_AddedHostsCount s) (st_UpdatedHostsCount s)
           (int_incr (st_DeletedHostsCount s)) (st_DeleteHostsCount s).

(** Modelled from the spec: [chi.GetVolumeClaimTemplate(name)] is declared
    outside this file; the template of that name, if any. *)
Fixpoint GetVolumeClaimTemplate (ts : list ChiVolumeClaimTemplate) (name : string)
    : option ChiVolumeClaimTemplate :=
  match ts with
  | [] => None
  | t :: ts' => if String.eqb (vct_Name t) name then Some t else GetVolumeClaimTemplate ts' name
  end.

(** ** Pointers

    The worker holds at most three installations that it mutates through
    aliases while it processes one item: the normalized old and new CHI of
    an update, and the normalized copy [deleteCHI] walks. *)

Inductive ChiPtr := PtrOld | PtrNew | PtrDel.

Record ClusterPtr := mkClusterPtr {
  clp_CHI : ChiPtr;
  clp_Cluster : nat
}.

Record ShardPtr := mkShardPtr {
  shp_CHI : ChiPtr;
  shp_Cluster : nat;
  shp_Shard : nat
}.

Record HostPtr := mkHostPtr {
  hp_CHI : ChiPtr;
  hp_Cluster : nat;
  hp_Shard : nat;
  hp_Replica : nat
}.

Definition lookupCluster (c : ClickHouseInstallation) (ci : nat) : option ChiCluster :=
  chi_Clusters c !! ci.

Definition lookupShard (c : ClickHouseInstallation) (ci si : nat) : option ChiShard :=
  match lookupCluster c ci with
  | Some cl => cluster_Shards cl !! si
  | None => None
  end.

Definition lookupHost (c : ClickHouseInstallation) (ci si ri : nat) : option ChiHost :=
  match lookupShard c ci si with
  | Some sh => shard_Hosts sh !! ri
  | None => None
  end.

(** Modelled from the spec: [shard.HostsCount()] is declared outside this
    file; the number of hosts of the shard. *)
Definition HostsCount (sh : ChiShard) : nat := length (shard_Hosts sh).

(** Apply [f] to the host at one place of the tree (a write through a host
    pointer). *)
Definition shard_alterHost (ri : nat) (f : ChiHost -> ChiHost) (sh : ChiShard) : ChiShard :=
  mkShard (shard_Name sh) (alter f ri (shard_Hosts sh)).

Definition cluster_alterHost (si ri : nat) (f : ChiHost -> ChiHost) (cl : ChiCluster)
    : ChiCluster :=
  mkCluster (cluster_Name cl) (alter (shard_alterHost ri f) si (cluster_Shards cl)).

Definition chi_alterHost (ci si ri : nat) (f : ChiHost -> ChiHost)
    (c : ClickHouseInstallation) : ClickHouseInstallation :=
  chi_setClusters (alter (cluster_alterHost si ri f) ci (chi_Clusters c)) c.

(** Modelled from the spec: [shard.WalkHosts], [cluster.WalkHosts] and
    [chi.WalkHosts] are declared outside this file.  With a callback that
    updates the host it visits and returns [nil] they visit every host of
    the subtree, in declaration order. *)
Definition shard_WalkHosts (f : ChiHost -> ChiHost) (sh : ChiShard) : ChiShard :=
  mkShard (shard_Name sh) (map f (shard_Hosts sh)).

Definition cluster_WalkHosts (f : ChiHost -> ChiHost) (cl : ChiCluster) : ChiCluster :=
  mkCluster (cluster_Name cl) (map (shard_WalkHosts f) (cluster_Shards cl)).

Definition chi_WalkHosts (f : ChiHost -> ChiHost) (c : ClickHouseInstallation)
    : ClickHouseInstallation :=
  chi_setClusters (map (cluster_WalkHosts f) (chi_Clusters c)) c.

(** All hosts of a CHI, in declaration order. *)
Definition cluster_hosts (cl : ChiCluster) : list ChiHost :=
  concat (map shard_Hosts (cluster_Shards cl)).

Definition chi_hosts (c : ClickHouseInstallation) : list ChiHost :=
  concat (map cluster_hosts (chi_Clusters c)).

(** ** Utilities of [pkg/util] *)

Definition FinalizerName : string := "finalizer.clickhouseinstallation.altinity.com".

(** Modelled from the spec: [util.InArray] is declared outside this file;
    whether the list has the string. *)
Definition InArray (needle : string) (haystack : list string) : bool :=
  existsb (String.eqb needle) haystack.

(** Modelled from the spec: [util.MergeStringMapsPreserve] and
    [util.MergeStringArrays] are declared outside this file; entries of the
    source are added, entries the destination already has are kept. *)
Definition MergeStringMapsPreserve (dst src : gmap string string) : gmap string string :=
  dst ∪ src.

Definition MergeStringArrays (dst src : list string) : list string :=
  fold_left (fun acc s => if InArray s acc then acc else acc ++ [s]) src dst.

(** ** Queue items *)

Inductive ReconcileCmd :=
| reconcileAdd
| reconcileUpdate
| reconcileDelete
| reconcileOther (cmd : string).

(** CHI templates and operator configurations are opaque to the worker. *)
Record ClickHouseInstallationTemplate := mkCHIT { chit_Name : string }.
Record ClickHouseOperatorConfiguration := mkChopConfig { chopconf_Name : string }.

Inductive Command :=
| ReconcileCHI (cmd : ReconcileCmd) (old new : option ClickHouseInstallation)
| ReconcileCHIT (cmd : ReconcileCmd) (old new : option ClickHouseInstallationTemplate)
| ReconcileChopConfig (cmd : ReconcileCmd) (old new : option ClickHouseOperatorConfiguration)
| DropDns (initiator : ObjectMeta)
| UnknownItem (description : string).

(** ** Options of the configuration files generator *)

Record RemoteServersGeneratorOptions := mkRemoteServersOptions {
  rs_exclude_host : option HostPtr;
  rs_exclude_attributes : option ChiHostReconcileAttributes
}.

Definition NewRemoteServersGeneratorOptions : RemoteServersGeneratorOptions :=
  mkRemoteServersOptions None None.

Definition ExcludeHost (host : HostPtr) (o : RemoteServersGeneratorOptions) :=
  mkRemoteServersOptions (Some host) (rs_exclude_attributes o).

Definition ExcludeReconcileAttributes (a : ChiHostReconcileAttributes)
    (o : RemoteServersGeneratorOptions) :=
  mkRemoteServersOptions (rs_exclude_host o) (Some a).

Record ClickHouseConfigFilesGeneratorOptions := mkGeneratorOptions {
  RemoteServersOptions : option RemoteServersGeneratorOptions
}.

Definition NewClickHouseConfigFilesGeneratorOptions : ClickHouseConfigFilesGeneratorOptions :=
  mkGeneratorOptions None.

Definition SetRemoteServersGeneratorOptions (rs : RemoteServersGeneratorOptions)
    (o : ClickHouseConfigFilesGeneratorOptions) : ClickHouseConfigFilesGeneratorOptions :=
  mkGeneratorOptions (Some rs).

(** ** The action plan

    Modelled from the spec: the planner ([NewActionPlan] and its walkers) is
    declared outside this file.  A plan is the sets of added, modified and
    removed clusters, shards and hosts; added and modified nodes are nodes of
    the new CHI, removed nodes are nodes of the old one.  The walkers call
    the cluster callback on every cluster of the set, then the shard
    callback, then the host callback. *)
Record ActionPlan := mkActionPlan {
  ap_addedClusters : list nat;
  ap_addedShards : list (nat * nat);
  ap_addedHosts : list (nat * nat * nat);
  ap_modifiedClusters : list nat;
  ap_modifiedShards : list (nat * nat);
  ap_modifiedHosts : list (nat * nat * nat);
  ap_removedClusters : list nat;
  ap_removedShards : list (nat * nat);
  ap_removedHosts : list (nat * nat * nat);
  ap_removedHostsNum : Z
}.

Definition isEmpty {A} (l : list A) : bool :=
  match l with
  | [] => true
  | _ => false
  end.

Definition isSome {A} (o : option A) : bool :=
  match o with
  | Some _ => true
  | None => false
  end.

Definition HasActionsToDo (ap : ActionPlan) : bool :=
  negb (isEmpty (ap_addedClusters ap) && isEmpty (ap_addedShards ap)
        && isEmpty (ap_addedHosts ap)
        && isEmpty (ap_modifiedClusters ap) && isEmpty (ap_modifiedShards ap)
        && isEmpty (ap_modifiedHosts ap)
        && isEmpty (ap_removedClusters ap) && isEmpty (ap_removedShards ap)
        && isEmpty (ap_removedHosts ap)).

Definition GetRemovedHostsNum (ap : ActionPlan) : Z := ap_removedHostsNum ap.

(** ** Calls that leave the worker, and their answers *)

(** What an Announcer call carries besides its log line: the event
    [WithEvent(chi, action, reason)] and the status notes
    [WithStatusAction], [WithStatusActions], [WithStatusError]. *)
Record Announcement := mkAnnouncement {
  ann_action : string;
  ann_reason : string;
  ann_statusAction : bool;
  ann_statusActions : bool;
  ann_statusError : bool
}.

Definition eventActionReconcile : string := "Reconcile".
Definition eventActionCreate : string := "Create".
Definition eventActionUpdate : string := "Update".
Definition eventActionDelete : string := "Delete".
Definition eventReasonReconcileStarted : string := "ReconcileStarted".
Definition eventReasonReconcileInProgress : string := "ReconcileInProgress".
Definition eventReasonReconcileCompleted : string := "ReconcileCompleted".
Definition eventReasonReconcileFailed : string := "ReconcileFailed".
Definition eventReasonCreateStarted : string := "CreateStarted".
Definition eventReasonCreateCompleted : string := "CreateCompleted".
Definition eventReasonCreateFailed : string := "CreateFailed".
Definition eventReasonUpdateCompleted : string := "UpdateCompleted".
Definition eventReasonUpdateFailed : string := "UpdateFailed".
Definition eventReasonDeleteStarted : string := "DeleteStarted".
Definition eventReasonDeleteCompleted : string := "DeleteCompleted".
Definition eventReasonDeleteFailed : string := "DeleteFailed".

Inductive Op :=
(* work queue and runtime *)
| OpWaitContextDoneUntilStart
| OpQueueGet
| OpQueueForget (item : Command)
| OpQueueDone (item : Command)
| OpQueueAdd (item : Command)
| OpQueueAddAfter (item : Command)
| OpQueueAddRateLimited (item : Command)
| OpHandleError (err : ErrKind)
(* announcer *)
| OpAnnounce (chi : ClickHouseInstallation) (a : Announcement)
(* controller: installations, templates, configuration *)
| OpInstallFinalizer (chi : ClickHouseInstallation)
| OpUninstallFinalizer (chi : ClickHouseInstallation)
| OpUpdateCHIObjectStatus (chi : ClickHouseInstallation) (tolerateAbsence : bool)
| OpGetCHI (namespace name : string)
| OpGetCHIByObjectMeta (objectMeta : ObjectMeta)
| OpDeleteWatch (namespace name : string)
| OpUpdateWatch (namespace name : string) (hostnames : list string)
| OpAddChit (new : option ClickHouseInstallationTemplate)
| OpUpdateChit (old new : option ClickHouseInstallationTemplate)
| OpDeleteChit (old : option ClickHouseInstallationTemplate)
| OpAddChopConfig (new : option ClickHouseOperatorConfiguration)
| OpUpdateChopConfig (old new : option ClickHouseOperatorConfiguration)
| OpDeleteChopConfig (old : option ClickHouseOperatorConfiguration)
(* controller: platform objects *)
| OpGetConfigMap (objectMeta : ObjectMeta)
| OpGetService (objectMeta : ObjectMeta)
| OpGetStatefulSet (objectMeta : ObjectMeta)
| OpGetStatefulSetByHost (host : HostPtr)
| OpCreateStatefulSet (statefulSet : StatefulSet) (host : HostPtr)
| OpUpdateStatefulSet (cur new : StatefulSet) (host : HostPtr)
| OpDeleteStatefulSet (host : HostPtr)
| OpDeleteHost (host : HostPtr)
| OpDeleteServiceShard (shard : ShardPtr)
| OpDeleteServiceCluster (cluster : ClusterPtr)
| OpDeleteServiceCHI (chi : ClickHouseInstallation)
| OpDeleteConfigMapsCHI (chi : ClickHouseInstallation)
| OpDeleteServiceIfExists (namespace name : string)
| OpWalkPVs (host : HostPtr)
| OpUpdatePersistentVolume (pv : PersistentVolume)
(* Kubernetes client *)
| OpKubeUpdateConfigMap (configMap : ConfigMap)
| OpKubeCreateConfigMap (configMap : ConfigMap)
| OpKubeUpdateService (service : Service)
| OpKubeCreateService (service : Service)
| OpKubeGetPVC (namespace name : string)
| OpKubeUpdatePVC (pvc : PersistentVolumeClaim)
(* Schemer *)
| OpCHIDropDnsCache (chi : ClickHouseInstallation)
| OpHostCreateTables (host : HostPtr)
| OpHostDeleteTables (host : HostPtr)
| OpIsHostInCluster (host : HostPtr).

Inductive Ans :=
| AUnit
| AErr (err : Error)
| ABool (b : bool)
| AItem (item : Command) (shutdown : bool)
| ACHI (chi : option ClickHouseInstallation) (err : Error)
| AConfigMap (cm : option ConfigMap) (err : Error)
| AService (svc : option Service) (err : Error)
| AStatefulSet (sts : option StatefulSet) (err : Error)
| APVC (pvc : option PersistentVolumeClaim) (err : Error)
| APVs (pvs : list PersistentVolume).

Record Event := mkEvent {
  ev_op : Op;
  ev_ans : Ans
}.

(** The environment: the answer to a call, given the calls and answers so
    far. *)
Definition Env := Op -> list Event -> Ans.

(** A [context.Context], as far as the worker uses it: whether it is done,
    given the history so far.  [Background] is never done. *)
Definition Context := list Event -> bool.

Definition Background : Context := fun _ => false.


(** ** The world and the monad of the worker *)

Record World := mkWorld {
  trace : list Event;
  objOld : ClickHouseInstallation;
  objNew : ClickHouseInstallation;
  objDel : ClickHouseInstallation;
  (* [w.creator]: the CHI the Creator was made for, [None] is [nil] *)
  creator : option ChiPtr
}.

Definition getChi (p : ChiPtr) (w : World) : ClickHouseInstallation :=
  match p with
  | PtrOld => objOld w
  | PtrNew => objNew w
  | PtrDel => objDel w
  end.

Definition setChi (p : ChiPtr) (c : ClickHouseInstallation) (w : World) : World :=
  match p with
  | PtrOld => mkWorld (trace w) c (objNew w) (objDel w) (creator w)
  | PtrNew => mkWorld (trace w) (objOld w) c (objDel w) (creator w)
  | PtrDel => mkWorld (trace w) (objOld w) (objNew w) c (creator w)
  end.

Definition setCreator (p : ChiPtr) (w : World) : World :=
  mkWorld (trace w) (objOld w) (objNew w) (objDel w) (Some p).

Definition emit (e : Event) (w : World) : World :=
  mkWorld (trace w ++ [e]) (objOld w) (objNew w) (objDel w) (creator w).

(** How a call of a worker function ends: it returns; it has not returned
    when the observation ends (a poll is still waiting, or the endless work
    loop is still running); or it panics on a nil pointer. *)
Inductive Result (A : Type) :=
| Ret (a : A)
| Blocked
| Panic.

Arguments Ret {A} a.
Arguments Blocked {A}.
Arguments Panic {A}.

Definition M (A : Type) : Type := World -> World * Result A.

Definition ret {A} (a : A) : M A := fun w => (w, Ret a).

Definition bind {A B} (m : M A) (k : A -> M B) : M B :=
  fun w =>
    match m w with
    | (w', Ret a) => k a w'
    | (w', Blocked) => (w', Blocked)
    | (w', Panic) => (w', Panic)
    end.

Definition panic {A} : M A := fun w => (w, Panic).
Definition blocked {A} : M A := fun w => (w, Blocked).

Definition gets {A} (f : World -> A) : M A := fun w => (w, Ret (f w)).
Definition modify (f : World -> World) : M unit := fun w => (f w, Ret tt).

Declare Scope go_scope.
Delimit Scope go_scope with go.
Notation "x <- c ;; k" := (bind c (fun x => k))
  (at level 100, c at next level, right associativity) : go_scope.
Notation "c ;; k" := (bind c (fun _ => k))
  (at level 100, right associativity) : go_scope.
Local Open Scope go_scope.

(** A walk that calls [f] on every element, whatever it returns. *)
Fixpoint forEach {A B} (f : A -> M B) (l : list A) : M unit :=
  match l with
  | [] => ret tt
  | x :: rest => _ <- f x ;; forEach f rest
  end.

(** A walk that stops at the first error. *)
Fixpoint forEachTillError {A} (f : A -> M Error) (l : list A) : M Error :=
  match l with
  | [] => ret noError
  | x :: rest =>
      err <- f x ;;
      if negb (isNil err) then ret err else forEachTillError f rest
  end.

Definition indices {A} (l : list A) : list nat := seq 0 (length l).

(** Modelled from the spec: [util.IsContextDone] is declared outside this
    file; the context-done predicate. *)
Definition IsContextDone (ctx : Context) : M bool := gets (fun w => ctx (trace w)).

(** Reads and writes through pointers. *)
Definition readChi (p : ChiPtr) : M ClickHouseInstallation := gets (getChi p).

Definition updateChi (p : ChiPtr) (f : ClickHouseInstallation -> ClickHouseInstallation)
    : M unit :=
  modify (fun w => setChi p (f (getChi p w)) w).

Definition getHost (host : HostPtr) (w : World) : option ChiHost :=
  lookupHost (getChi (hp_CHI host) w) (hp_Cluster host) (hp_Shard host) (hp_Replica host).

(** Modelled from the spec: [host.GetShard()] is declared outside this
    file; the shard the host is a replica of. *)
Definition GetShard (host : HostPtr) (w : World) : option ChiShard :=
  lookupShard (getChi (hp_CHI host) w) (hp_Cluster host) (hp_Shard host).

Definition updateHostAttrs (host : HostPtr)
    (f : ChiHostReconcileAttributes -> ChiHostReconcileAttributes) : M unit :=
  updateChi (hp_CHI host)
    (chi_alterHost (hp_Cluster host) (hp_Shard host) (hp_Replica host) (host_setAttrs f)).

(** Dereferencing what may be nil panics on nil. *)
Definition orPanic {A} (f : World -> option A) : M A :=
  fun w =>
    match f w with
    | Some a => (w, Ret a)
    | None => (w, Panic)
    end.

(** A host pointer the worker dereferences points to a host of its CHI. *)
Definition derefHost (host : HostPtr) : M ChiHost := orPanic (getHost host).

(** Projections of answers. *)
Definition ansErr (a : Ans) : Error :=
  match a with
  | AErr e => e
  | ACHI _ e | AConfigMap _ e | AService _ e | AStatefulSet _ e | APVC _ e => e
  | _ => None
  end.

Definition ansBool (a : Ans) : bool :=
  match a with
  | ABool b => b
  | _ => false
  end.

Definition ansCHI (a : Ans) : option ClickHouseInstallation :=
  match a with
  | ACHI c _ => c
  | _ => None
  end.

Definition ansConfigMap (a : Ans) : option ConfigMap :=
  match a with
  | AConfigMap c _ => c
  | _ => None
  end.

Definition ansService (a : Ans) : option Service :=
  match a with
  | AService s _ => s
  | _ => None
  end.

Definition ansStatefulSet (a : Ans) : option StatefulSet :=
  match a with
  | AStatefulSet s _ => s
  | _ => None
  end.

Definition ansPVC (a : Ans) : option PersistentVolumeClaim :=
  match a with
  | APVC p _ => p
  | _ => None
  end.

Definition ansPVs (a : Ans) : list PersistentVolume :=
  match a with
  | APVs l => l
  | _ => []
  end.

Definition ansItem (a : Ans) : Command * bool :=
  match a with
  | AItem item shutdown => (item, shutdown)
  | _ => (UnknownItem "", true)
  end.

(** ** External collaborators given as pure functions *)

(** The operator configuration, as far as the worker reads it. *)
Record OperatorConfig := mkOperatorConfig {
  ReconcileWaitExclude : bool;
  ReconcileWaitInclude : bool
}.

(** The Creator: pure builders of desired platform objects, made for one
    CHI ([chopmodel.NewCreator(chop, chi)]). *)
Record Creator := mkCreator {
  CreateServiceCHI : ClickHouseInstallation -> Service;
  CreateConfigMapCHICommon :
    ClickHouseInstallation -> option ClickHouseConfigFilesGeneratorOptions -> ConfigMap;
  CreateConfigMapCHICommonUsers : ClickHouseInstallation -> ConfigMap;
  CreateServiceCluster : ClickHouseInstallation -> ClusterPtr -> option Service;
  CreateServiceShard : ClickHouseInstallation -> ShardPtr -> option Service;
  CreateConfigMapHost : ClickHouseInstallation -> HostPtr -> ConfigMap;
  CreateStatefulSet : ClickHouseInstallation -> HostPtr -> StatefulSet;
  CreateServiceHost : ClickHouseInstallation -> HostPtr -> Service;
  PreparePersistentVolume :
    ClickHouseInstallation -> PersistentVolume -> HostPtr -> PersistentVolume;
  CreatePVCName : ChiHost -> VolumeMount -> ChiVolumeClaimTemplate -> string;
  CreatePodFQDNsOfCHI : ClickHouseInstallation -> list string
}.

(** The Normalizer: raw CHI to canonical CHI. *)
Record Normalizer := mkNormalizer {
  CreateTemplatedCHI :
    ClickHouseInstallation -> bool -> ClickHouseInstallation * Error;
  NormalizeCHI : ClickHouseInstallation -> ClickHouseInstallation * Error
}.

Definition emptyObjectMeta : ObjectMeta := mkObjectMeta "" "" "" None ∅ ∅ [].

(** [&chop.ClickHouseInstallation{}]. *)
Definition emptyCHI : ClickHouseInstallation :=
  mkCHI emptyObjectMeta false ReconcilingPolicyUnspecified [] [] (mkStatus "" 0 0 0 0).

Definition LabelStatefulSetVersion : string := "clickhouse.altinity.com/statefulset-version".

(** Announcer calls. *)
Definition WithEvent (action reason : string) : Announcement :=
  mkAnnouncement action reason false false false.

Definition WithStatusAction (a : Announcement) : Announcement :=
  mkAnnouncement (ann_action a) (ann_reason a) true (ann_statusActions a) (ann_statusError a).

Definition WithStatusActions (a : Announcement) : Announcement :=
  mkAnnouncement (ann_action a) (ann_reason a) (ann_statusAction a) true (ann_statusError a).

Definition WithStatusError (a : Announcement) : Announcement :=
  mkAnnouncement (ann_action a) (ann_reason a) (ann_statusAction a) (ann_statusActions a) true.

Inductive StatefulSetStatus :=
| statefulSetStatusModified
| statefulSetStatusNew
| statefulSetStatusSame
| statefulSetStatusUnknown.

Definition isNewOrSame (status : StatefulSetStatus) : bool :=
  match status with
  | statefulSetStatusNew | statefulSetStatusSame => true
  | _ => false
  end.

(** The inner loop of [updateService]: the first current port with the
    port number of [newPort] replaces it. *)
Fixpoint reusePort (newPort : ServicePort) (curPorts : list ServicePort) : ServicePort :=
  match curPorts with
  | [] => newPort
  | curPort :: rest =>
      if (port_Port newPort =? port_Port curPort)%Z then curPort
      else reusePort newPort rest
  end.

(** What [updateService] does to [newService] before it submits it. *)
Definition updateService_prepare (curService newService : Service) : Service :=
  let curSpec := svc_Spec curService in
  let newSpec := svc_Spec newService in
  let ports :=
    if (String.eqb (spec_Type curSpec) ServiceTypeNodePort
        && String.eqb (spec_Type newSpec) ServiceTypeNodePort)
       || (String.eqb (spec_Type curSpec) ServiceTypeLoadBalancer
           && String.eqb (spec_Type newSpec) ServiceTypeLoadBalancer)
    then map (fun newPort => reusePort newPort (spec_Ports curSpec)) (spec_Ports newSpec)
    else spec_Ports newSpec in
  let healthCheckNodePort :=
    if String.eqb (spec_ExternalTrafficPolicy curSpec) ServiceExternalTrafficPolicyTypeLocal
       && String.eqb (spec_ExternalTrafficPolicy newSpec) ServiceExternalTrafficPolicyTypeLocal
    then spec_HealthCheckNodePort curSpec
    else spec_HealthCheckNodePort newSpec in
  let curMeta := svc_ObjectMeta curService in
  let newMeta := svc_ObjectMeta newService in
  mkService
    (mkObjectMeta (om_Namespace newMeta) (om_Name newMeta)
       (om_ResourceVersion curMeta)
       (om_DeletionTimestamp newMeta)
       (MergeStringMapsPreserve (om_Labels newMeta) (om_Labels curMeta))
       (MergeStringMapsPreserve (om_Annotations newMeta) (om_Annotations curMeta))
       (MergeStringArrays (om_Finalizers newMeta) (om_Finalizers curMeta)))
    (mkServiceSpec ports (spec_Type newSpec) (spec_ClusterIP curSpec)
       (spec_ExternalTrafficPolicy newSpec) healthCheckNodePort).

(** [intersect.Simple(a, b)]: the elements of [a] that [b] contains. *)
Definition intersect_Simple (a b : list string) : list string :=
  filter (fun el => existsb (String.eqb el) b = true) a.

(** One host of the marking passes of [updateCHI]. *)
Definition markMigrate (update : bool) (host : ChiHost) : ChiHost :=
  if update then host_setAttrs SetMigrate host else host.

Definition markUnclear (host : ChiHost) : ChiHost :=
  if IsAdd (host_ReconcileAttributes host) then host
  else if IsModify (host_ReconcileAttributes host) then host
  else host_setAttrs SetUnclear host.

(** The two walks of [updateCHI] over the hosts of [new] that follow the
    walks of the action plan. *)
Definition updateCHI_markHosts (update : bool) (new : ClickHouseInstallation)
    : ClickHouseInstallation :=
  chi_WalkHosts markUnclear (chi_WalkHosts (markMigrate update) new).

(** The first walk of the action plan in [updateCHI]: every host of an
    added cluster or shard, and every added host, is marked [Add]. *)
Definition updateCHI_markAdded (ap : ActionPlan) (new : ClickHouseInstallation)
    : ClickHouseInstallation :=
  let c1 :=
    fold_left (fun c ci =>
      chi_setClusters (alter (cluster_WalkHosts (host_setAttrs SetAdd)) ci (chi_Clusters c)) c)
      (ap_addedClusters ap) new in
  let c2 :=
    fold_left (fun c '(ci, si) =>
      chi_setClusters
        (alter (fun cl => mkCluster (cluster_Name cl)
                  (alter (shard_WalkHosts (host_setAttrs SetAdd)) si (cluster_Shards cl)))
               ci (chi_Clusters c)) c)
      (ap_addedShards ap) c1 in
  fold_left (fun c '(ci, si, ri) => chi_alterHost ci si ri (host_setAttrs SetAdd) c)
    (ap_addedHosts ap) c2.

(** The second walk: every modified host is marked [Modify]. *)
Definition updateCHI_markModified (ap : ActionPlan) (new : ClickHouseInstallation)
    : ClickHouseInstallation :=
  fold_left (fun c '(ci, si, ri) => chi_alterHost ci si ri (host_setAttrs SetModify) c)
    (ap_modifiedHosts ap) new.

(** [update := (old != nil) && (new != nil)]. *)
Definition isUpdate (old new : option ClickHouseInstallation) : bool :=
  match old, new with
  | Some _, Some _ => true
  | _, _ => false
  end.

(** ** A sample installation and sample collaborators

    One cluster with one shard of two replicas, in namespace [ns]; used to
    run the worker on concrete inputs. *)

Definition sample_meta (name : string) : ObjectMeta :=
  mkObjectMeta "ns" name "1" None ∅ ∅ [].

(** The quantity of [n] gibibytes, as in 10Gi: its value is [n * 2^30]. *)
Definition sample_Gi (n : Z) : Quantity := mkQuantity (n * 1073741824) "BinarySI".

Definition sample_host (replica : Z) (name : string) : ChiHost :=
  mkHost name (mkAddress "ns" "cluster" 0 replica name) NewChiHostReconcileAttributes
         (mkStatefulSet (sample_meta name) "image-v1")
         [mkVolumeMount "data" "/var/lib/clickhouse"].

Definition sample_chi : ClickHouseInstallation :=
  mkCHI (mkObjectMeta "ns" "c1" "2" None ∅ ∅ [FinalizerName])
        false ReconcilingPolicyWait
        [mkVCT "data" {["storage" := sample_Gi 10]}]
        [mkCluster "cluster"
           [mkShard "0" [sample_host 0 "chi-c1-cluster-0-0"; sample_host 1 "chi-c1-cluster-0-1"]]]
        (mkStatus "" 0 0 0 0).

Definition sample_servicePort (port nodePort : Z) : ServicePort :=
  mkServicePort "http" "TCP" port port nodePort.

Definition sample_service (name type clusterIP : string) (ports : list ServicePort) : Service :=
  mkService (sample_meta name)
            (mkServiceSpec ports type clusterIP ServiceExternalTrafficPolicyTypeLocal 0).

Definition sample_creator : Creator :=
  mkCreator
    (fun chi => sample_service "clickhouse-c1" ServiceTypeClusterIP "" [sample_servicePort 8123 0])
    (fun chi options =>
       mkConfigMap (sample_meta "chi-c1-common-configd")
         (match options with
          | Some (mkGeneratorOptions (Some (mkRemoteServersOptions (Some _) _))) =>
              {["remote_servers" := "one host excluded"]}
          | _ => {["remote_servers" := "all hosts"]}
          end))
    (fun chi => mkConfigMap (sample_meta "chi-c1-common-usersd") ∅)
    (fun chi cluster => Some (sample_service "cluster-c1" ServiceTypeClusterIP "" []))
    (fun chi shard => Some (sample_service "shard-c1" ServiceTypeClusterIP "" []))
    (fun chi host => mkConfigMap (sample_meta "chi-c1-deploy-confd") ∅)
    (fun chi host => mkStatefulSet (sample_meta "chi-c1-cluster-0") "image-v1")
    (fun chi host => sample_service "chi-c1-cluster-0" ServiceTypeClusterIP "" [])
    (fun chi pv host => pv)
    (fun host mount template => "data-chi-c1-cluster-0")
    (fun chi => ["chi-c1-cluster-0-0.ns.svc.cluster.local"]).

(** A normalizer that finds nothing to change. *)
Definition sample_normalizer : Normalizer :=
  mkNormalizer (fun chi _ => (chi, noError)) (fun chi => (chi, noError)).

(** The plan of a first reconcile: everything is added. *)
Definition sample_plan (old new : ClickHouseInstallation) : ActionPlan :=
  mkActionPlan [0] [(0, 0)] [(0, 0, 0); (0, 0, 1)] [] [] [] [] [] [] 0.

Definition sample_config : OperatorConfig := mkOperatorConfig false false.

(** The keys of a resource list, in the order of the map. *)
Definition sample_rangeKeys (m : ResourceList) : list string := (map_to_list m).*1.

(** The world of a worker that was just made. *)
Definition initialWorld : World := mkWorld [] emptyCHI emptyCHI emptyCHI None.

(** A world in which the sample installation is being reconciled. *)
Definition sample_world : World := mkWorld [] emptyCHI sample_chi emptyCHI (Some PtrNew).

Definition sample_item : Command := ReconcileCHI reconcileAdd None (Some sample_chi).

Definition isGet (e : Event) : bool :=
  match ev_op e with
  | OpQueueGet => true
  | _ => false
  end.

(** An empty platform on which nothing fails: no object exists yet, every
    call succeeds, the queue hands out the sample item and then shuts
    down. *)
Definition sample_env : Env :=
  fun op history =>
    match op with
    | OpQueueGet =>
        if existsb isGet history then AItem (UnknownItem "") true
        else AItem sample_item false
    | OpGetConfigMap _ => AConfigMap None (Some ErrNotFound)
    | OpGetService _ => AService None (Some ErrNotFound)
    | OpGetStatefulSet _ | OpGetStatefulSetByHost _ => AStatefulSet None (Some ErrNotFound)
    | OpKubeGetPVC _ _ => APVC None (Some ErrNotFound)
    | OpGetCHI _ _ | OpGetCHIByObjectMeta _ => ACHI (Some sample_chi) noError
    | OpWalkPVs _ => APVs []
    | OpIsHostInCluster _ => ABool false
    | _ => AErr noError
    end.

(** The same platform, except that it fails to create Services and
    StatefulSets and to add CHI templates. *)
Definition failing_env : Env :=
  fun op history =>
    match op with
    | OpKubeCreateService _ => AErr (Some (ErrOther "services quota exceeded"))
    | OpAddChit _ => AErr (Some (ErrOther "template rejected"))
    | OpCreateStatefulSet _ _ => AErr (Some (ErrOther "pod never became ready"))
    | _ => sample_env op history
    end.

(** A platform on which the StatefulSets exist and differ from the desired
    ones, and on which a host leaves the cluster at the third probe and is
    back at the fourth. *)
Definition rolling_env : Env :=
  fun op history =>
    match op with
    | OpGetStatefulSet objectMeta =>
        AStatefulSet (Some (mkStatefulSet objectMeta "image-v0")) noError
    | OpIsHostInCluster _ =>
        let probes := length (List.filter (fun e => match ev_op e with
                                                    | OpIsHostInCluster _ => true
                                                    | _ => false
                                                    end) history) in
        ABool (negb (probes mod 4 =? 2))
    | _ => sample_env op history
    end.




Definition sample_hostPtr : HostPtr := mkHostPtr PtrNew 0 0 0.

Definition sample_statefulSet : StatefulSet :=
  mkStatefulSet (sample_meta "chi-c1-cluster-0") "image-v1".

(** A NodePort service as the platform has it, with the fields the platform
    assigned, and the desired service the Creator builds for it. *)
Definition sample_curService : Service :=
  mkService (sample_meta "clickhouse-c1")
            (mkServiceSpec [sample_servicePort 8123 31000; sample_servicePort 9000 32000]
               ServiceTypeNodePort "10.0.0.7" ServiceExternalTrafficPolicyTypeLocal 30500).

Definition sample_newService : Service :=
  sample_service "clickhouse-c1" ServiceTypeNodePort "" [sample_servicePort 9000 0;
                                                         sample_servicePort 9440 0].

(** A claim of 10Gi and one CPU, and a template that wants 20Gi and
    memory. *)
Definition sample_pvc : PersistentVolumeClaim :=
  mkPVC (sample_meta "data-chi-c1-cluster-0")
        (<["storage" := sample_Gi 10]> (<["cpu" := mkQuantity 1 "DecimalSI"]> ∅)).

Definition sample_desired : ResourceList :=
  <["storage" := sample_Gi 20]> (<["memory" := sample_Gi 4]> ∅).

(** A short name for an event: the call, and for a probe of the Schemer its
    answer. *)
Definition eventName (e : Event) : string :=
  match ev_op e with
  | OpQueueGet => if snd (ansItem (ev_ans e)) then "Get: shutdown" else "Get: item"
  | OpQueueForget _ => "Forget"
  | OpQueueDone _ => "Done"
  | OpHandleError _ => "HandleError"
  | OpAnnounce _ a => ann_reason a
  | OpGetConfigMap objectMeta => "get ConfigMap " ++ om_Name objectMeta
  | OpKubeCreateConfigMap configMap =>
      "create ConfigMap " ++ om_Name (cm_ObjectMeta configMap)
      ++ match cm_Data configMap !! "remote_servers" with
         | Some topology => ": " ++ topology
         | None => ""
         end
  | OpKubeUpdateConfigMap configMap => "update ConfigMap " ++ om_Name (cm_ObjectMeta configMap)
  | OpIsHostInCluster _ => if ansBool (ev_ans e) then "in cluster" else "not in cluster"
  | OpKubeUpdatePVC _ => "update PVC"
  | OpInstallFinalizer _ => "install finalizer"
  | _ => "other call"
  end.

(** A platform on which the Services and StatefulSets of the sample
    installation exist, and which refuses to update Services, to create
    ConfigMaps and to delete tables; a host has two volumes. *)
Definition occupied_env : Env :=
  fun op history =>
    match op with
    | OpGetService _ => AService (Some sample_curService) noError
    | OpKubeUpdateService _ => AErr (Some (ErrOther "conflict"))
    | OpGetStatefulSetByHost _ => AStatefulSet (Some sample_statefulSet) noError
    | OpHostDeleteTables _ => AErr (Some (ErrOther "zookeeper unreachable"))
    | OpWalkPVs _ => APVs [mkPV (sample_meta "pv-0"); mkPV (sample_meta "pv-1")]
    | OpKubeCreateConfigMap _ => AErr (Some (ErrOther "forbidden"))
    | _ => sample_env op history
    end.

(** The sample installation with StatefulSets that carry a version label. *)
Definition versioned_statefulSet (name : string) : StatefulSet :=
  mkStatefulSet (mkObjectMeta "ns" name "1" None {[LabelStatefulSetVersion := "v1"]} ∅ [])
                "image-v1".

Definition versioned_host (replica : Z) (name : string) : ChiHost :=
  mkHost name (mkAddress "ns" "cluster" 0 replica name) NewChiHostReconcileAttributes
         (versioned_statefulSet name) [].

Definition versioned_chi : ClickHouseInstallation :=
  chi_setClusters
    [mkCluster "cluster"
       [mkShard "0" [versioned_host 0 "chi-c1-cluster-0-0"; versioned_host 1 "chi-c1-cluster-0-1"]]]
    sample_chi.

Definition versioned_world : World := mkWorld [] emptyCHI versioned_chi emptyCHI (Some PtrNew).

(** The sample installation with a deletion timestamp, and stopped. *)
Definition deleted_chi : ClickHouseInstallation :=
  mkCHI (mkObjectMeta "ns" "c1" "3" (Some 1700000000%Z) ∅ ∅ [FinalizerName])
        false ReconcilingPolicyWait [] (chi_Clusters sample_chi) (mkStatus "" 0 0 0 0).

Definition stopped_chi : ClickHouseInstallation :=
  mkCHI (chi_ObjectMeta sample_chi) true ReconcilingPolicyWait
        (chi_VolumeClaimTemplates sample_chi) (chi_Clusters sample_chi) (chi_Status sample_chi).

(** A later version of the sample installation, with the same resource
    version. *)
Definition resent_chi : ClickHouseInstallation :=
  mkCHI (chi_ObjectMeta sample_chi) false ReconcilingPolicyNoWait [] [] (chi_Status sample_chi).

(** A plan without actions, and a normalizer that rejects every CHI. *)
Definition empty_plan (old new : ClickHouseInstallation) : ActionPlan :=
  mkActionPlan [] [] [] [] [] [] [] [] [] 0.

Definition rejecting_normalizer : Normalizer :=
  mkNormalizer (fun chi _ => (chi, Some (ErrOther "invalid template")))
               (fun chi => (chi, Some (ErrOther "invalid template"))).

(** Cluster names by the label of an object. *)
Definition sample_clusterName (objectMeta : ObjectMeta) : string * Error :=
  match om_Labels objectMeta !! "clickhouse.altinity.com/cluster" with
  | Some name => (name, noError)
  | None => ("", Some ErrNotFound)
  end.

Definition sample_findCluster (chi : ClickHouseInstallation) (name : string)
    : option ChiCluster :=
  List.find (fun cluster => String.eqb (cluster_Name cluster) name) (chi_Clusters chi).

(** A platform on which every ConfigMap exists. *)
Definition configured_env : Env :=
  fun op history =>
    match op with
    | OpGetConfigMap objectMeta => AConfigMap (Some (mkConfigMap objectMeta ∅)) noError
    | _ => sample_env op history
    end.

Definition isStatusError (e : Event) : bool :=
  match ev_op e with
  | OpAnnounce _ a => ann_statusError a
  | _ => false
  end.

(** The metadata of an object of the sample cluster. *)
Definition sample_clusterMeta : ObjectMeta :=
  mkObjectMeta "ns" "cluster-c1" "1" None {["clickhouse.altinity.com/cluster" := "cluster"]} ∅ [].

(** A world in which the stopped installation is being reconciled. *)
Definition stopped_world : World := mkWorld [] emptyCHI stopped_chi emptyCHI (Some PtrNew).

(** An earlier version of the sample installation, with the first replica
    only, and the plan of the update from it: the second replica is
    added. *)
Definition earlier_chi : ClickHouseInstallation :=
  mkCHI (mkObjectMeta "ns" "c1" "1" None ∅ ∅ [FinalizerName])
        false ReconcilingPolicyWait (chi_VolumeClaimTemplates sample_chi)
        [mkCluster "cluster" [mkShard "0" [sample_host 0 "chi-c1-cluster-0-0"]]]
        (chi_Status sample_chi).

Definition update_plan (old new : ClickHouseInstallation) : ActionPlan :=
  mkActionPlan [] [] [(0, 0, 1)] [] [] [] [] [] [] 0.

(** ** The worker *)

Section Worker.

Variable env : Env.
Variable config : OperatorConfig.
Variable creatorFns : Creator.
Variable normalizer : Normalizer.
(* The planner: the diff of two normalized installations. *)
Variable NewActionPlan : ClickHouseInstallation -> ClickHouseInstallation -> ActionPlan.
(* [host.CanDeleteAllPVCs()], decided by the host's templates. *)
Variable CanDeleteAllPVCs : ChiHost -> bool.
(* The order in which Go ranges over the keys of a resource list. *)
Variable rangeKeys : ResourceList -> list string.
(* How many probes of one poll an observation follows before it gives up
   with [Blocked]. *)
Variable pollFuel : nat.

(** A call that leaves the worker. *)
Definition call (op : Op) : M Ans :=
  fun w => let a := env op (trace w) in (emit (mkEvent op a) w, Ret a).

Definition callErr (op : Op) : M Error :=
  a <- call op ;; ret (ansErr a).

Definition announceCHI (chi : ClickHouseInstallation) (a : Announcement) : M unit :=
  _ <- call (OpAnnounce chi a) ;; ret tt.

Definition announce (chi : ChiPtr) (a : Announcement) : M unit :=
  c <- readChi chi ;; announceCHI c a.

(** The CHI [w.creator] was made for; a nil creator panics. *)
Definition creatorCHI : M ClickHouseInstallation :=
  orPanic (fun w => (fun p => getChi p w) <$> creator w).

(** [c.updateCHIObjectStatus(ctx, chi, tolerateAbsence)]. *)
Definition updateCHIObjectStatus (chi : ChiPtr) (tolerateAbsence : bool) : M Error :=
  c <- readChi chi ;; callErr (OpUpdateCHIObjectStatus c tolerateAbsence).

(** *** Polling

    Modelled from the spec: [c.pollHostContext] is declared outside this
    file; it loops until the predicate is true or the context is done. *)
Fixpoint pollLoop (fuel : nat) (ctx : Context) (host : HostPtr) (f : HostPtr -> M bool)
    : M Error :=
  done <- IsContextDone ctx ;;
  if done then ret noError
  else
    match fuel with
    | O => blocked
    | S fuel' =>
        ok <- f host ;;
        if ok then ret noError else pollLoop fuel' ctx host f
    end.

Definition pollHostContext (ctx : Context) (host : HostPtr) (f : HostPtr -> M bool)
    : M Error :=
  pollLoop pollFuel ctx host f.

(** [w.schemer.IsHostInCluster(ctx, host)]. *)
Definition IsHostInCluster (host : HostPtr) : M bool :=
  a <- call (OpIsHostInCluster host) ;; ret (ansBool a).

Definition waitHostInCluster (ctx : Context) (host : HostPtr) : M Error :=
  pollHostContext ctx host IsHostInCluster.

Definition waitHostNotInCluster (ctx : Context) (host : HostPtr) : M Error :=
  pollHostContext ctx host (fun host => b <- IsHostInCluster host ;; ret (negb b)).

(** [host.GetShard()] dereferenced: a host that is in no shard of its CHI
    panics. *)
Definition derefShard (host : HostPtr) : M ChiShard := orPanic (GetShard host).

(** *** Whether to wait for exclusion / inclusion *)

Definition shouldWaitExcludeHost (host : HostPtr) (status : StatefulSetStatus) : M bool :=
  if isNewOrSame status then
    (* No need to wait for new and non-modified StatefulSets *)
    ret false
  else
    shard <- derefShard host ;;
    if HostsCount shard =? 1 then
      (* the shard has only one host: no replication, no need to wait *)
      ret false
    else
      chi <- readChi (hp_CHI host) ;;
      if IsReconcilingPolicyWait chi then ret true
      else if IsReconcilingPolicyNoWait chi then ret false
      else if negb (ReconcileWaitExclude config) then ret false
      else ret true.

Definition shouldWaitIncludeHost (host : HostPtr) (status : StatefulSetStatus) : M bool :=
  if isNewOrSame status then ret false
  else
    shard <- derefShard host ;;
    if HostsCount shard =? 1 then ret false
    else
      chi <- readChi (hp_CHI host) ;;
      if IsReconcilingPolicyWait chi then ret true
      else if IsReconcilingPolicyNoWait chi then ret false
      else if Bool.eqb (ReconcileWaitInclude config) false then ret false
      else ret true.

(** *** ConfigMaps *)

Definition updateConfigMap (ctx : Context) (chi : ChiPtr) (configMap : ConfigMap) : M Error :=
  done <- IsContextDone ctx ;;
  if done then ret noError
  else
    err <- callErr (OpKubeUpdateConfigMap configMap) ;;
    (if isNil err then
       announce chi (WithStatusAction (WithEvent eventActionUpdate eventReasonUpdateCompleted))
     else
       announce chi (WithStatusError (WithStatusAction
                       (WithEvent eventActionUpdate eventReasonUpdateFailed)))) ;;
    ret err.

Definition createConfigMap (ctx : Context) (chi : ChiPtr) (configMap : ConfigMap) : M Error :=
  done <- IsContextDone ctx ;;
  if done then ret noError
  else
    err <- callErr (OpKubeCreateConfigMap configMap) ;;
    (if isNil err then
       announce chi (WithStatusAction (WithEvent eventActionCreate eventReasonCreateCompleted))
     else
       announce chi (WithStatusError (WithStatusAction
                       (WithEvent eventActionCreate eventReasonCreateFailed)))) ;;
    ret err.

Definition reconcileConfigMap (ctx : Context) (chi : ChiPtr) (configMap : ConfigMap)
    (update : bool) : M Error :=
  done <- IsContextDone ctx ;;
  if done then ret noError
  else
    (* Check whether this object already exists in k8s *)
    a <- call (OpGetConfigMap (cm_ObjectMeta configMap)) ;;
    let finish (err : Error) : M Error :=
      err <- (if IsNotFound err then createConfigMap ctx chi configMap else ret err) ;;
      (if isNil err then ret tt
       else announce chi (WithStatusError (WithStatusAction
                            (WithEvent eventActionReconcile eventReasonReconcileFailed)))) ;;
      ret err in
    match ansConfigMap a with
    | Some _ =>
        (* We have ConfigMap - try to update it *)
        if negb update then ret noError
        else err <- updateConfigMap ctx chi configMap ;; finish err
    | None => finish (ansErr a)
    end.

Definition reconcileCHIConfigMaps (ctx : Context) (chi : ChiPtr)
    (options : option ClickHouseConfigFilesGeneratorOptions) (update : bool) : M Error :=
  done <- IsContextDone ctx ;;
  if done then ret noError
  else
    c <- creatorCHI ;;
    let configMapCommon := CreateConfigMapCHICommon creatorFns c options in
    err <- reconcileConfigMap ctx chi configMapCommon update ;;
    if negb (isNil err) then ret err
    else
      c <- creatorCHI ;;
      let configMapUsers := CreateConfigMapCHICommonUsers creatorFns c in
      err <- reconcileConfigMap ctx chi configMapUsers update ;;
      if negb (isNil err) then ret err else ret noError.

(** *** Services *)

(** [newService] is updated in place: the caller sees the changes, so the
    service is returned with the error. *)
Definition updateService (ctx : Context) (chi : ChiPtr) (curService newService : Service)
    : M (Service * Error) :=
  done <- IsContextDone ctx ;;
  if done then ret (newService, noError)
  else
    let newService := updateService_prepare curService newService in
    (* And only now we are ready to actually update the service *)
    done <- IsContextDone ctx ;;
    if done then ret (newService, noError)
    else
      err <- callErr (OpKubeUpdateService newService) ;;
      (if isNil err then
         announce chi (WithStatusAction (WithEvent eventActionUpdate eventReasonUpdateCompleted))
       else
         announce chi (WithStatusError (WithStatusAction
                         (WithEvent eventActionUpdate eventReasonUpdateFailed)))) ;;
      ret (newService, err).

Definition createService (ctx : Context) (chi : ChiPtr) (service : Service) : M Error :=
  done <- IsContextDone ctx ;;
  if done then ret noError
  else
    err <- callErr (OpKubeCreateService service) ;;
    (if isNil err then
       announce chi (WithStatusAction (WithEvent eventActionCreate eventReasonCreateCompleted))
     else
       announce chi (WithStatusError (WithStatusAction
                       (WithEvent eventActionCreate eventReasonCreateFailed)))) ;;
    ret err.

Definition reconcileService (ctx : Context) (chi : ChiPtr) (service : Service) : M Error :=
  done <- IsContextDone ctx ;;
  if done then ret noError
  else
    (* Check whether this object already exists *)
    a <- call (OpGetService (svc_ObjectMeta service)) ;;
    r <- match ansService a with
         | Some curService =>
             (* We have Service - try to update it *)
             updateService ctx chi curService service
         | None => ret (service, ansErr a)
         end ;;
    let '(service, err) := r in
    err <- (if negb (isNil err) then
              (* Service not found or not updated. Try to recreate *)
              _ <- call (OpDeleteServiceIfExists (om_Namespace (svc_ObjectMeta service))
                           (om_Name (svc_ObjectMeta service))) ;;
              createService ctx chi service
            else ret err) ;;
    (if negb (isNil err) then
       announce chi (WithStatusError (WithStatusAction
                       (WithEvent eventActionReconcile eventReasonReconcileFailed)))
     else ret tt) ;;
    ret err.

(** *** StatefulSets *)

Definition getStatefulSetStatus (statefulSet : StatefulSet) : M StatefulSetStatus :=
  (* Check whether this object already exists in k8s *)
  a <- call (OpGetStatefulSet (sts_ObjectMeta statefulSet)) ;;
  let byError : StatefulSetStatus :=
    if IsNotFound (ansErr a) then statefulSetStatusNew else statefulSetStatusUnknown in
  match ansStatefulSet a with
  | Some curStatefulSet =>
      let sameVersion :=
        match om_Labels (sts_ObjectMeta curStatefulSet) !! LabelStatefulSetVersion,
              om_Labels (sts_ObjectMeta statefulSet) !! LabelStatefulSetVersion with
        | Some _cur, Some _new => String.eqb _cur _new
        | _, _ => false
        end in
      if sameVersion then ret statefulSetStatusSame
      else
        (* [messagediff.DeepDiff] reports [equal] when the specs do not differ *)
        if String.eqb (sts_Spec curStatefulSet) (sts_Spec statefulSet)
        then ret statefulSetStatusModified
        else ret byError
  | None => ret byError
  end.

(** *** PersistentVolumes and PersistentVolumeClaims *)

Definition reconcilePersistentVolumes (ctx : Context) (host : HostPtr) : M unit :=
  done <- IsContextDone ctx ;;
  if done then ret tt
  else
    a <- call (OpWalkPVs host) ;;
    forEach (fun pv =>
               c <- creatorCHI ;;
               let pv := PreparePersistentVolume creatorFns c pv host in
               callErr (OpUpdatePersistentVolume pv))
            (ansPVs a).

(** [pvcResourceList] is the claim's own [Spec.Resources.Requests]: the
    assignment to it is seen through [pvc], which is returned. *)
Definition reconcileResource (ctx : Context) (pvc : PersistentVolumeClaim)
    (desiredResourceList : ResourceList) (resourceName : string)
    : M PersistentVolumeClaim :=
  done <- IsContextDone ctx ;;
  if done then ret pvc
  else
    match pvc_Requests pvc !! resourceName with
    | None => ret pvc
    | Some pvcResourceQuantity =>
        match desiredResourceList !! resourceName with
        | None => ret pvc
        | Some desiredResourceQuantity =>
            if Quantity_Equal pvcResourceQuantity desiredResourceQuantity then ret pvc
            else
              let pvc :=
                mkPVC (pvc_ObjectMeta pvc)
                      (<[resourceName := desiredResourceQuantity]> (pvc_Requests pvc)) in
              _ <- call (OpKubeUpdatePVC pvc) ;;
              ret pvc
        end
    end.

Fixpoint reconcileResourceEach (ctx : Context) (pvc : PersistentVolumeClaim)
    (desiredResourceList : ResourceList) (resourceNames : list string)
    : M PersistentVolumeClaim :=
  match resourceNames with
  | [] => ret pvc
  | resourceName :: rest =>
      pvc <- reconcileResource ctx pvc desiredResourceList resourceName ;;
      reconcileResourceEach ctx pvc desiredResourceList rest
  end.

Definition reconcileResourcesList (ctx : Context) (pvc : PersistentVolumeClaim)
    (desiredResourceList : ResourceList) : M PersistentVolumeClaim :=
  done <- IsContextDone ctx ;;
  if done then ret pvc
  else
    let pvcResourceNames := rangeKeys (pvc_Requests pvc) in
    let desiredResourceNames := rangeKeys desiredResourceList in
    let resourceNames := intersect_Simple pvcResourceNames desiredResourceNames in
    reconcileResourceEach ctx pvc desiredResourceList resourceNames.

Definition reconcileResources (ctx : Context) (pvc : PersistentVolumeClaim)
    (template : ChiVolumeClaimTemplate) : M PersistentVolumeClaim :=
  done <- IsContextDone ctx ;;
  if done then ret pvc
  else reconcileResourcesList ctx pvc (vct_Requests template).

(** The callback [reconcilePersistentVolumeClaims] hands to
    [host.WalkVolumeMounts]. *)
Definition reconcileVolumeMount (ctx : Context) (host : HostPtr) (h : ChiHost)
    (volumeMount : VolumeMount) : M unit :=
  done <- IsContextDone ctx ;;
  if done then ret tt
  else
    chi <- readChi (hp_CHI host) ;;
    match GetVolumeClaimTemplate (chi_VolumeClaimTemplates chi) (mount_Name volumeMount) with
    | None =>
        (* No this is not a reference to VolumeClaimTemplate *)
        ret tt
    | Some volumeClaimTemplate =>
        let pvcName := CreatePVCName creatorFns h volumeMount volumeClaimTemplate in
        a <- call (OpKubeGetPVC (addr_Namespace (host_Address h)) pvcName) ;;
        if negb (isNil (ansErr a)) then ret tt
        else
          match ansPVC a with
          | None =>
              (* a nil claim without an error: [reconcileResources] dereferences it *)
              done <- IsContextDone ctx ;;
              if done then ret tt else panic
          | Some pvc => _ <- reconcileResources ctx pvc volumeClaimTemplate ;; ret tt
          end
    end.

Definition reconcilePersistentVolumeClaims (ctx : Context) (host : HostPtr) : M Error :=
  done <- IsContextDone ctx ;;
  if done then ret noError
  else
    h <- derefHost host ;;
    forEach (reconcileVolumeMount ctx host h) (host_VolumeMounts h) ;;
    ret noError.

Definition createStatefulSet (ctx : Context) (statefulSet : StatefulSet) (host : HostPtr)
    : M Error :=
  done <- IsContextDone ctx ;;
  if done then ret noError
  else
    announce (hp_CHI host)
      (WithStatusAction (WithEvent eventActionCreate eventReasonCreateStarted)) ;;
    err <- callErr (OpCreateStatefulSet statefulSet host) ;;
    updateChi (hp_CHI host) (chi_setStatus incrAddedHostsCount) ;;
    _ <- updateCHIObjectStatus (hp_CHI host) false ;;
    (if isNil err then
       announce (hp_CHI host)
         (WithStatusAction (WithEvent eventActionCreate eventReasonCreateCompleted))
     else
       announce (hp_CHI host)
         (WithStatusError (WithStatusAction
            (WithEvent eventActionCreate eventReasonCreateFailed)))) ;;
    ret err.

Definition updateStatefulSet (ctx : Context) (curStatefulSet newStatefulSet : StatefulSet)
    (host : HostPtr) : M Error :=
  done <- IsContextDone ctx ;;
  if done then ret noError
  else
    announce (hp_CHI host)
      (WithStatusAction (WithEvent eventActionCreate eventReasonCreateStarted)) ;;
    err <- callErr (OpUpdateStatefulSet curStatefulSet newStatefulSet host) ;;
    if isNil err then
      updateChi (hp_CHI host) (chi_setStatus incrUpdatedHostsCount) ;;
      _ <- updateCHIObjectStatus (hp_CHI host) false ;;
      announce (hp_CHI host)
        (WithStatusAction (WithEvent eventActionUpdate eventReasonUpdateCompleted)) ;;
      ret noError
    else
      announce (hp_CHI host)
        (WithStatusError (WithStatusAction
           (WithEvent eventActionUpdate eventReasonUpdateFailed))) ;;
      _ <- callErr (OpDeleteStatefulSet host) ;;
      _ <- reconcilePersistentVolumeClaims ctx host ;;
      createStatefulSet ctx newStatefulSet host.

Definition reconcileStatefulSet (ctx : Context) (newStatefulSet : StatefulSet)
    (host : HostPtr) : M Error :=
  done <- IsContextDone ctx ;;
  if done then ret noError
  else
    h <- derefHost host ;;
    status <- getStatefulSetStatus (host_StatefulSet h) ;;
    match status with
    | statefulSetStatusSame => ret noError
    | _ =>
        (* Check whether this object already exists in k8s *)
        a <- call (OpGetStatefulSet (sts_ObjectMeta newStatefulSet)) ;;
        err <- match ansStatefulSet a with
               | Some curStatefulSet =>
                   (* We have StatefulSet - try to update it *)
                   updateStatefulSet ctx curStatefulSet newStatefulSet host
               | None => ret (ansErr a)
               end ;;
        err <- (if IsNotFound err then
                  (* StatefulSet not found - try to create it *)
                  createStatefulSet ctx newStatefulSet host
                else ret err) ;;
        (if negb (isNil err) then
           announce (hp_CHI host)
             (WithStatusError (WithStatusAction
                (WithEvent eventActionReconcile eventReasonReconcileFailed)))
         else ret tt) ;;
        ret err
    end.

(** *** Exclude and include *)

(** The options [excludeHost] renders the topology with. *)
Definition excludeHostOptions (host : HostPtr) : ClickHouseConfigFilesGeneratorOptions :=
  SetRemoteServersGeneratorOptions
    (ExcludeReconcileAttributes (SetAdd NewChiHostReconcileAttributes)
       (ExcludeHost host NewRemoteServersGeneratorOptions))
    NewClickHouseConfigFilesGeneratorOptions.

(** The options [includeHost] renders the topology with. *)
Definition includeHostOptions : ClickHouseConfigFilesGeneratorOptions :=
  SetRemoteServersGeneratorOptions
    (ExcludeReconcileAttributes (SetAdd NewChiHostReconcileAttributes)
       NewRemoteServersGeneratorOptions)
    NewClickHouseConfigFilesGeneratorOptions.

(** Exclude host from ClickHouse clusters. *)
Definition excludeHost (ctx : Context) (host : HostPtr) (status : StatefulSetStatus)
    : M Error :=
  done <- IsContextDone ctx ;;
  if done then ret noError
  else
    wait <- shouldWaitExcludeHost host status ;;
    if wait then
      (* remove host from cluster config only if we are going to wait for exclusion *)
      _ <- reconcileCHIConfigMaps ctx (hp_CHI host) (Some (excludeHostOptions host)) true ;;
      _ <- waitHostNotInCluster ctx host ;;
      ret noError
    else ret noError.

(** Include host back to ClickHouse clusters. *)
Definition includeHost (ctx : Context) (host : HostPtr) (status : StatefulSetStatus)
    : M Error :=
  _ <- reconcileCHIConfigMaps ctx (hp_CHI host) (Some includeHostOptions) true ;;
  wait <- shouldWaitIncludeHost host status ;;
  if wait then
    _ <- waitHostInCluster ctx host ;;
    ret noError
  else ret noError.

(** *** The reconcile walk *)

Definition reconcileHost (ctx : Context) (host : HostPtr) : M Error :=
  done <- IsContextDone ctx ;;
  if done then ret noError
  else
    announce (hp_CHI host)
      (WithStatusAction (WithEvent eventActionReconcile eventReasonReconcileStarted)) ;;
    (* Create artifacts *)
    c <- creatorCHI ;;
    let configMap := CreateConfigMapHost creatorFns c host in
    let statefulSet := CreateStatefulSet creatorFns c host in
    let service := CreateServiceHost creatorFns c host in
    h <- derefHost host ;;
    status <- getStatefulSetStatus (host_StatefulSet h) ;;
    err <- excludeHost ctx host status ;;
    if negb (isNil err) then ret err
    else
      (* Reconcile host's ConfigMap *)
      err <- reconcileConfigMap ctx (hp_CHI host) configMap true ;;
      if negb (isNil err) then ret err
      else
        (* Reconcile host's StatefulSet *)
        err <- reconcileStatefulSet ctx statefulSet host ;;
        if negb (isNil err) then ret err
        else
          (* Reconcile host's Persistent Volumes *)
          reconcilePersistentVolumes ctx host ;;
          (* Reconcile host's Service *)
          err <- reconcileService ctx (hp_CHI host) service ;;
          if negb (isNil err) then ret err
          else
            updateHostAttrs host UnsetAdd ;;
            h <- derefHost host ;;
            (if IsMigrate (host_ReconcileAttributes h) then
               announce (hp_CHI host)
                 (WithStatusAction (WithEvent eventActionCreate eventReasonCreateStarted)) ;;
               _ <- callErr (OpHostCreateTables host) ;;
               ret tt
             else ret tt) ;;
            err <- includeHost ctx host status ;;
            if negb (isNil err) then
              (* If host is not ready - fallback *)
              ret err
            else
              updateHostAttrs host SetReconciled ;;
              announce (hp_CHI host)
                (WithStatusAction
                   (WithEvent eventActionReconcile eventReasonReconcileCompleted)) ;;
              ret noError.

(** Reconciles Cluster, excluding nested shards. *)
Definition reconcileCluster (ctx : Context) (cluster : ClusterPtr) : M Error :=
  done <- IsContextDone ctx ;;
  if done then ret noError
  else
    c <- creatorCHI ;;
    match CreateServiceCluster creatorFns c cluster with
    | None => ret noError
    | Some service => reconcileService ctx (clp_CHI cluster) service
    end.

(** Reconciles Shard, excluding nested replicas. *)
Definition reconcileShard (ctx : Context) (shard : ShardPtr) : M Error :=
  done <- IsContextDone ctx ;;
  if done then ret noError
  else
    c <- creatorCHI ;;
    match CreateServiceShard creatorFns c shard with
    | None => ret noError
    | Some service => reconcileService ctx (shp_CHI shard) service
    end.

Definition reconcileCHIAuxObjectsPreliminary (ctx : Context) (chi : ChiPtr) : M Error :=
  done <- IsContextDone ctx ;;
  if done then ret noError
  else
    c <- readChi chi ;;
    (* 1. CHI Service *)
    err <- (if IsStopped c then
              (* Stopped cluster must have no entry point *)
              _ <- callErr (OpDeleteServiceCHI c) ;; ret noError
            else
              cc <- creatorCHI ;;
              reconcileService ctx chi (CreateServiceCHI creatorFns cc)) ;;
    if negb (isNil err) then ret err
    else
      (* 2. CHI ConfigMaps without update - create only *)
      reconcileCHIConfigMaps ctx chi None false.

Definition reconcileCHIAuxObjectsFinal (ctx : Context) (chi : ChiPtr) : M Error :=
  done <- IsContextDone ctx ;;
  if done then ret noError
  else
    (* CHI ConfigMaps with update *)
    reconcileCHIConfigMaps ctx chi None true.

(** Modelled from the spec: [chi.WalkTillError] is declared outside this
    file; it calls the steps in order (preliminary; every cluster, its
    shards and their hosts in declaration order; final) and stops at the
    first non-nil error. *)
Definition WalkTillError (ctx : Context)
    (fCHIPreliminary : Context -> ChiPtr -> M Error)
    (fCluster : Context -> ClusterPtr -> M Error)
    (fShard : Context -> ShardPtr -> M Error)
    (fHost : Context -> HostPtr -> M Error)
    (fCHI : Context -> ChiPtr -> M Error)
    (chi : ChiPtr) : M Error :=
  err <- fCHIPreliminary ctx chi ;;
  if negb (isNil err) then ret err
  else
    c <- readChi chi ;;
    err <- forEachTillError (fun '(ci, cluster) =>
             err <- fCluster ctx (mkClusterPtr chi ci) ;;
             if negb (isNil err) then ret err
             else
               forEachTillError (fun '(si, shard) =>
                 err <- fShard ctx (mkShardPtr chi ci si) ;;
                 if negb (isNil err) then ret err
                 else
                   forEachTillError (fun ri => fHost ctx (mkHostPtr chi ci si ri))
                     (indices (shard_Hosts shard)))
                 (zip (indices (cluster_Shards cluster)) (cluster_Shards cluster)))
             (zip (indices (chi_Clusters c)) (chi_Clusters c)) ;;
    if negb (isNil err) then ret err
    else fCHI ctx chi.

(** Reconciles ClickHouseInstallation. *)
Definition reconcile (ctx : Context) (chi : ChiPtr) : M Error :=
  modify (setCreator chi) ;;
  WalkTillError ctx
    reconcileCHIAuxObjectsPreliminary
    reconcileCluster
    reconcileShard
    reconcileHost
    reconcileCHIAuxObjectsFinal
    chi.

(** *** Deletion *)

Definition deleteTables (ctx : Context) (host : HostPtr) : M Error :=
  done <- IsContextDone ctx ;;
  if done then ret noError
  else
    h <- derefHost host ;;
    if negb (CanDeleteAllPVCs h) then ret noError
    else
      err <- callErr (OpHostDeleteTables host) ;;
      (if isNil err then
         announce (hp_CHI host)
           (WithStatusAction (WithEvent eventActionDelete eventReasonDeleteCompleted))
       else
         announce (hp_CHI host)
           (WithStatusError (WithEvent eventActionDelete eventReasonDeleteFailed))) ;;
      ret err.

(** Deletes all kubernetes resources related to a host. *)
Definition deleteHost (ctx : Context) (host : HostPtr) : M Error :=
  done <- IsContextDone ctx ;;
  if done then ret noError
  else
    announce (hp_CHI host)
      (WithStatusAction (WithEvent eventActionDelete eventReasonDeleteStarted)) ;;
    a <- call (OpGetStatefulSetByHost host) ;;
    if negb (isNil (ansErr a)) then
      announce (hp_CHI host)
        (WithStatusAction (WithEvent eventActionDelete eventReasonDeleteCompleted)) ;;
      ret noError
    else
      (* the error of [deleteTables] is overwritten *)
      _ <- deleteTables ctx host ;;
      err <- callErr (OpDeleteHost host) ;;
      (* the CHI may already be unavailable, so update it tolerantly *)
      updateChi (hp_CHI host) (chi_setStatus incrDeletedHostsCount) ;;
      _ <- updateCHIObjectStatus (hp_CHI host) true ;;
      (if isNil err then
         announce (hp_CHI host)
           (WithStatusAction (WithEvent eventActionDelete eventReasonDeleteCompleted))
       else
         announce (hp_CHI host)
           (WithStatusError (WithEvent eventActionDelete eventReasonDeleteFailed))) ;;
      ret err.

Definition derefShardPtr (shard : ShardPtr) : M ChiShard :=
  orPanic (fun w => lookupShard (getChi (shp_CHI shard) w) (shp_Cluster shard) (shp_Shard shard)).

Definition derefClusterPtr (cluster : ClusterPtr) : M ChiCluster :=
  orPanic (fun w => lookupCluster (getChi (clp_CHI cluster) w) (clp_Cluster cluster)).

(** Deletes all kubernetes resources related to a shard. *)
Definition deleteShard (ctx : Context) (shard : ShardPtr) : M Error :=
  done <- IsContextDone ctx ;;
  if done then ret noError
  else
    announce (shp_CHI shard)
      (WithStatusAction (WithEvent eventActionDelete eventReasonDeleteStarted)) ;;
    sh <- derefShardPtr shard ;;
    (* Delete all replicas *)
    forEach (fun ri =>
               deleteHost ctx (mkHostPtr (shp_CHI shard) (shp_Cluster shard) (shp_Shard shard) ri))
            (indices (shard_Hosts sh)) ;;
    (* Delete Shard Service *)
    _ <- callErr (OpDeleteServiceShard shard) ;;
    announce (shp_CHI shard)
      (WithStatusAction (WithEvent eventActionDelete eventReasonDeleteCompleted)) ;;
    ret noError.

(** Deletes all kubernetes resources related to a cluster. *)
Definition deleteCluster (ctx : Context) (cluster : ClusterPtr) : M Error :=
  done <- IsContextDone ctx ;;
  if done then ret noError
  else
    announce (clp_CHI cluster)
      (WithStatusAction (WithEvent eventActionDelete eventReasonDeleteStarted)) ;;
    cl <- derefClusterPtr cluster ;;
    (* Delete all shards *)
    forEach (fun si => deleteShard ctx (mkShardPtr (clp_CHI cluster) (clp_Cluster cluster) si))
            (indices (cluster_Shards cl)) ;;
    (* Delete Cluster Service *)
    _ <- callErr (OpDeleteServiceCluster cluster) ;;
    announce (clp_CHI cluster)
      (WithStatusAction (WithEvent eventActionDelete eventReasonDeleteCompleted)) ;;
    ret noError.

(** Deletes all kubernetes resources related to a CHI.  The templated copy
    the function walks is the installation behind [PtrDel]. *)
Definition deleteCHI (ctx : Context) (chi : option ClickHouseInstallation) : M Error :=
  done <- IsContextDone ctx ;;
  if done then ret noError
  else
    match chi with
    | None => panic
    | Some chi =>
        announceCHI chi
          (WithStatusAction (WithEvent eventActionDelete eventReasonDeleteStarted)) ;;
        let '(chi, err) := CreateTemplatedCHI normalizer chi true in
        if negb (isNil err) then
          announceCHI chi (WithStatusError (WithEvent eventActionDelete eventReasonDeleteFailed)) ;;
          ret err
        else
          modify (setChi PtrDel chi) ;;
          (* Exclude this CHI from monitoring *)
          _ <- call (OpDeleteWatch (om_Namespace (chi_ObjectMeta chi))
                       (om_Name (chi_ObjectMeta chi))) ;;
          (* Delete all clusters *)
          forEach (fun ci => deleteCluster ctx (mkClusterPtr PtrDel ci))
                  (indices (chi_Clusters chi)) ;;
          done <- IsContextDone ctx ;;
          if done then ret noError
          else
            (* Delete ConfigMap(s) *)
            c <- readChi PtrDel ;;
            _ <- callErr (OpDeleteConfigMapsCHI c) ;;
            (* Delete Service *)
            _ <- callErr (OpDeleteServiceCHI c) ;;
            announce PtrDel
              (WithStatusAction (WithEvent eventActionDelete eventReasonDeleteCompleted)) ;;
            ret noError
    end.

(** *** Finalizer *)

Definition finalizeCHI (ctx : Context) (chi : ClickHouseInstallation) : M Error :=
  done <- IsContextDone ctx ;;
  if done then ret noError
  else
    a <- call (OpGetCHI (om_Namespace (chi_ObjectMeta chi)) (om_Name (chi_ObjectMeta chi))) ;;
    if negb (isNil (ansErr a)) || negb (isSome (ansCHI a)) then ret noError
    else if negb (InArray FinalizerName (om_Finalizers (chi_ObjectMeta chi))) then
      (* No finalizer found, unexpected behavior *)
      ret noError
    else
      (* Delete CHI *)
      let chi := chi_setStatus DeleteStart chi in
      err <- callErr (OpUpdateCHIObjectStatus chi true) ;;
      if negb (isNil err) then ret noError
      else
        _ <- deleteCHI ctx (Some chi) ;;
        (* Uninstall finalizer *)
        _ <- callErr (OpUninstallFinalizer chi) ;;
        ret noError.

Definition ensureFinalizer (chi : ClickHouseInstallation) : M unit :=
  (* Check whether finalizer is already listed in CHI *)
  (if InArray FinalizerName (om_Finalizers (chi_ObjectMeta chi)) then
     (* logs "finalizer already installed" and goes on *)
     ret tt
   else ret tt) ;;
  (* No finalizer found - need to install it *)
  _ <- callErr (OpInstallFinalizer chi) ;;
  ret tt.

Definition normalize (chi : option ClickHouseInstallation) : M ClickHouseInstallation :=
  let '(chi, withDefaultCluster) :=
    match chi with
    | None => (emptyCHI, false)
    | Some chi => (chi, true)
    end in
  let '(chi, err) := CreateTemplatedCHI normalizer chi withDefaultCluster in
  (if negb (isNil err) then
     announceCHI chi (WithStatusError (WithEvent eventActionReconcile eventReasonReconcileFailed))
   else ret tt) ;;
  ret chi.

(** *** Reconcile of one installation *)

Definition chi_ResourceVersion (chi : ClickHouseInstallation) : string :=
  om_ResourceVersion (chi_ObjectMeta chi).

Definition sameResourceVersion (old new : option ClickHouseInstallation) : bool :=
  match old, new with
  | Some old, Some new => String.eqb (chi_ResourceVersion old) (chi_ResourceVersion new)
  | _, _ => false
  end.

(** The callback of the second [WalkAdded] of [updateCHI]. *)
Definition addTablesOnAddedHost (update : bool) (host : HostPtr) : M Error :=
  if update then
    announce PtrNew (WithStatusAction (WithEvent eventActionCreate eventReasonCreateStarted)) ;;
    _ <- callErr (OpHostCreateTables host) ;;
    ret noError
  else
    (* As CHI is just created, not need to add tables *)
    ret noError.

(** The part of [updateCHI] from the reconcile walk on: the walk, and
    after a walk without error the post-processing of added hosts, the
    removal of what the plan removes, monitoring and the final status. *)
Definition updateCHI_reconcile (ctx : Context) (update : bool) (actionPlan : ActionPlan)
    (newN : ClickHouseInstallation) : M Error :=
  err <- reconcile ctx PtrNew ;;
  if negb (isNil err) then
    announce PtrNew
      (WithStatusError (WithEvent eventActionReconcile eventReasonReconcileFailed)) ;;
    ret noError
  else
    (* Post-process added items *)
    announce PtrNew
      (WithStatusAction
         (WithEvent eventActionReconcile eventReasonReconcileInProgress)) ;;
    forEach (fun '(ci, si, ri) =>
               addTablesOnAddedHost update (mkHostPtr PtrNew ci si ri))
            (ap_addedHosts actionPlan) ;;
    (* Remove deleted items *)
    announce PtrNew
      (WithStatusAction
         (WithEvent eventActionReconcile eventReasonReconcileInProgress)) ;;
    forEach (fun ci => deleteCluster ctx (mkClusterPtr PtrOld ci))
            (ap_removedClusters actionPlan) ;;
    forEach (fun '(ci, si) => deleteShard ctx (mkShardPtr PtrOld ci si))
            (ap_removedShards actionPlan) ;;
    forEach (fun '(ci, si, ri) => deleteHost ctx (mkHostPtr PtrOld ci si ri))
            (ap_removedHosts actionPlan) ;;
    (if negb (IsStopped newN) then
       announce PtrNew
         (WithStatusAction
            (WithEvent eventActionReconcile eventReasonReconcileInProgress)) ;;
       c <- readChi PtrNew ;;
       _ <- call (OpUpdateWatch (om_Namespace (chi_ObjectMeta newN))
                    (om_Name (chi_ObjectMeta newN))
                    (CreatePodFQDNsOfCHI creatorFns c)) ;;
       ret tt
     else ret tt) ;;
    (* Update CHI object *)
    updateChi PtrNew (chi_setStatus ReconcileComplete) ;;
    _ <- updateCHIObjectStatus PtrNew false ;;
    announce PtrNew
      (WithStatusActions
         (WithEvent eventActionReconcile eventReasonReconcileCompleted)) ;;
    ret noError.

(** Sync CHI which was already created earlier.  The normalized old and new
    installations are the ones behind [PtrOld] and [PtrNew]. *)
Definition updateCHI (ctx : Context) (old new : option ClickHouseInstallation) : M Error :=
  let update := isUpdate old new in
  if update && sameResourceVersion old new then
    (* No need to react *)
    ret noError
  else
    match new with
    | None => panic
    | Some newCHI =>
        (* Check DeletionTimestamp in order to understand, whether the object is being deleted *)
        if negb (DeletionTimestamp_IsZero (chi_ObjectMeta newCHI)) then
          (* The object is being deleted *)
          finalizeCHI ctx newCHI
        else
          (* The object is not being deleted *)
          ensureFinalizer newCHI ;;
          oldN <- normalize old ;;
          modify (setChi PtrOld oldN) ;;
          newN <- normalize (Some newCHI) ;;
          modify (setChi PtrNew newN) ;;
          let actionPlan := NewActionPlan oldN newN in
          if negb (HasActionsToDo actionPlan) then
            (* Nothing to do - no changes found - no need to react *)
            ret noError
          else
            (* Write desired normalized CHI with initialized .Status *)
            updateChi PtrNew (chi_setStatus (ReconcileStart (GetRemovedHostsNum actionPlan))) ;;
            err <- updateCHIObjectStatus PtrNew false ;;
            if negb (isNil err) then ret noError
            else
              announce PtrNew
                (WithStatusAction (WithEvent eventActionReconcile eventReasonReconcileStarted)) ;;
              (if IsStopped newN then
                 announce PtrNew
                   (WithStatusAction
                      (WithEvent eventActionReconcile eventReasonReconcileInProgress)) ;;
                 _ <- call (OpDeleteWatch (om_Namespace (chi_ObjectMeta newN))
                              (om_Name (chi_ObjectMeta newN))) ;;
                 ret tt
               else ret tt) ;;
              updateChi PtrNew (updateCHI_markAdded actionPlan) ;;
              updateChi PtrNew (updateCHI_markModified actionPlan) ;;
              updateChi PtrNew (updateCHI_markHosts update) ;;
              updateCHI_reconcile ctx update actionPlan newN
    end.

Definition createCHIFromObjectMeta (objectMeta : ObjectMeta)
    : M (option ClickHouseInstallation * Error) :=
  a <- call (OpGetCHIByObjectMeta objectMeta) ;;
  if negb (isNil (ansErr a)) then ret (None, ansErr a)
  else
    match ansCHI a with
    | None => panic
    | Some chi =>
        let '(chi, err) := NormalizeCHI normalizer chi in
        if negb (isNil err) then ret (None, err) else ret (Some chi, noError)
    end.

(** *** The work loop *)

Definition unexpectedReconcile : ErrKind := ErrOther "unexpected reconcile".
Definition unexpectedItem : ErrKind := ErrOther "unexpected item in the queue".

(** Processes one work item according to its type. *)
Definition processItem (ctx : Context) (item : Command) : M Error :=
  done <- IsContextDone ctx ;;
  if done then ret noError
  else
    match item with
    | ReconcileCHI cmd old new =>
        match cmd with
        | reconcileAdd => updateCHI ctx None new
        | reconcileUpdate => updateCHI ctx old new
        | reconcileDelete => deleteCHI ctx old
        | reconcileOther _ =>
            (* Unknown item type: skip it and behave like it never existed *)
            _ <- call (OpHandleError unexpectedReconcile) ;; ret noError
        end
    | ReconcileCHIT cmd old new =>
        match cmd with
        | reconcileAdd => callErr (OpAddChit new)
        | reconcileUpdate => callErr (OpUpdateChit old new)
        | reconcileDelete => callErr (OpDeleteChit old)
        | reconcileOther _ =>
            _ <- call (OpHandleError unexpectedReconcile) ;; ret noError
        end
    | ReconcileChopConfig cmd old new =>
        match cmd with
        | reconcileAdd => callErr (OpAddChopConfig new)
        | reconcileUpdate => callErr (OpUpdateChopConfig old new)
        | reconcileDelete => callErr (OpDeleteChopConfig old)
        | reconcileOther _ =>
            _ <- call (OpHandleError unexpectedReconcile) ;; ret noError
        end
    | DropDns initiator =>
        r <- createCHIFromObjectMeta initiator ;;
        match r with
        | (Some chi, None) => _ <- callErr (OpCHIDropDnsCache chi) ;; ret noError
        | _ => ret noError
        end
    | UnknownItem _ =>
        _ <- call (OpHandleError unexpectedItem) ;; ret noError
    end.

(** One round of the work loop after [Get] handed out [item]. *)
Definition runItem (ctx : Context) (item : Command) : M unit :=
  err <- processItem ctx item ;;
  (match err with
   | Some e =>
       (* Item not processed: the error cannot be returned, it is handed over *)
       _ <- call (OpHandleError e) ;; ret tt
   | None => ret tt
   end) ;;
  (* Forget indicates that an item is finished being retried *)
  _ <- call (OpQueueForget item) ;;
  (* Remove item from processing set when processing completed *)
  _ <- call (OpQueueDone item) ;;
  ret tt.

(** The endless work loop, followed for [rounds] rounds. *)
Fixpoint runLoop (rounds : nat) (ctx : Context) : M unit :=
  match rounds with
  | O => blocked
  | S rounds' =>
      (* Get() blocks until it can return an item *)
      a <- call OpQueueGet ;;
      let '(item, shutdown) := ansItem a in
      if shutdown then ret tt
      else runItem ctx item ;; runLoop rounds' ctx
  end.

Definition run (rounds : nat) : M unit :=
  let ctx := Background in
  _ <- call OpWaitContextDoneUntilStart ;;
  runLoop rounds ctx.

(** *** Clusters by object metadata *)

(* [chopmodel.GetClusterNameFromObjectMeta]: the cluster name an object
   carries in its labels, or an error. *)
Variable GetClusterNameFromObjectMeta : ObjectMeta -> string * Error.
(* [chi.FindCluster(name)]: the cluster of that name, [None] is [nil]. *)
Variable FindCluster : ClickHouseInstallation -> string -> option ChiCluster.

(** The errors [createClusterFromObjectMeta] makes with [fmt.Errorf]: plain
    errors, which [%v] does not wrap; the text of the cause is left out. *)
Definition errNotGeneratedByCHI (objectMeta : ObjectMeta) : ErrKind :=
  ErrOther ("ObjectMeta " ++ om_Name objectMeta ++ " does not generated by CHI").

Definition errCantFindCluster (clusterName : string) (chi : ClickHouseInstallation) : ErrKind :=
  ErrOther ("can't find cluster " ++ clusterName ++ " in CHI " ++ om_Name (chi_ObjectMeta chi)).

Definition createClusterFromObjectMeta (objectMeta : ObjectMeta)
    : M (option ChiCluster * Error) :=
  let '(clusterName, err) := GetClusterNameFromObjectMeta objectMeta in
  if negb (isNil err) then ret (None, Some (errNotGeneratedByCHI objectMeta))
  else
    r <- createCHIFromObjectMeta objectMeta ;;
    let '(chi, err) := r in
    if negb (isNil err) then ret (None, err)
    else
      (* [chi.FindCluster] on the CHI *)
      chi <- orPanic (fun _ => chi) ;;
      match FindCluster chi clusterName with
      | None => ret (None, Some (errCantFindCluster clusterName chi))
      | Some cluster => ret (Some cluster, noError)
      end.

(** *** Parts of [reconcileHost] and [updateCHI] *)

(** The part of [reconcileHost] that follows the reconcile of the host's
    objects: the attributes of the host, the tables, the inclusion. *)
Definition reconcileHost_complete (ctx : Context) (host : HostPtr) (status : StatefulSetStatus)
    : M Error :=
  updateHostAttrs host UnsetAdd ;;
  h <- derefHost host ;;
  (if IsMigrate (host_ReconcileAttributes h) then
     announce (hp_CHI host)
       (WithStatusAction (WithEvent eventActionCreate eventReasonCreateStarted)) ;;
     _ <- callErr (OpHostCreateTables host) ;;
     ret tt
   else ret tt) ;;
  err <- includeHost ctx host status ;;
  if negb (isNil err) then
    (* If host is not ready - fallback *)
    ret err
  else
    updateHostAttrs host SetReconciled ;;
    announce (hp_CHI host)
      (WithStatusAction
         (WithEvent eventActionReconcile eventReasonReconcileCompleted)) ;;
    ret noError.

(** The part of [updateCHI] that follows the normalization: the test of
    the action plan, the first write of the status, the marking of the
    hosts and the reconcile. *)
Definition updateCHI_planned (ctx : Context) (update : bool) (actionPlan : ActionPlan)
    (newN : ClickHouseInstallation) : M Error :=
  if negb (HasActionsToDo actionPlan) then
    (* Nothing to do - no changes found - no need to react *)
    ret noError
  else
    (* Write desired normalized CHI with initialized .Status *)
    updateChi PtrNew (chi_setStatus (ReconcileStart (GetRemovedHostsNum actionPlan))) ;;
    err <- updateCHIObjectStatus PtrNew false ;;
    if negb (isNil err) then ret noError
    else
      announce PtrNew
        (WithStatusAction (WithEvent eventActionReconcile eventReasonReconcileStarted)) ;;
      (if IsStopped newN then
         announce PtrNew
           (WithStatusAction
              (WithEvent eventActionReconcile eventReasonReconcileInProgress)) ;;
         _ <- call (OpDeleteWatch (om_Namespace (chi_ObjectMeta newN))
                      (om_Name (chi_ObjectMeta newN))) ;;
         ret tt
       else ret tt) ;;
      updateChi PtrNew (updateCHI_markAdded actionPlan) ;;
      updateChi PtrNew (updateCHI_markModified actionPlan) ;;
      updateChi PtrNew (updateCHI_markHosts update) ;;
      updateCHI_reconcile ctx update actionPlan newN.

(** What [normalize] returns: the templated CHI, of the CHI or, for nil,
    of an empty CHI without the default cluster. *)
Definition normalized (chi : option ClickHouseInstallation) : ClickHouseInstallation :=
  match chi with
  | None => fst (CreateTemplatedCHI normalizer emptyCHI false)
  | Some chi => fst (CreateTemplatedCHI normalizer chi true)
  end.

(** * Properties *)

(** ** Definitions the properties are stated with *)

(** Every call of [m] relates the world before to the world after by [R],
    however the call ends. *)
Definition Step {A} (R : World -> World -> Prop) (m : M A) : Prop :=
  forall w w' r, m w = (w', r) -> R w w'.

(** The new events of a call are all of a kind. *)
Definition Emits (P : Op -> Prop) (w w' : World) : Prop :=
  exists evs, trace w' = trace w ++ evs /\ Forall (fun e => P (ev_op e)) evs.

(** Work-queue operations. *)
Definition isQueueOp (op : Op) : bool :=
  match op with
  | OpQueueGet | OpQueueForget _ | OpQueueDone _
  | OpQueueAdd _ | OpQueueAddAfter _ | OpQueueAddRateLimited _ => true
  | _ => false
  end.

Definition nonQueueOp (op : Op) : Prop := isQueueOp op = false.

(** The work-queue events of a trace. *)
Definition queueOps (evs : list Event) : list Event :=
  List.filter (fun e => isQueueOp (ev_op e)) evs.



(** What [reconcileResource] does to the requests of a claim. *)
Definition reconcileResource_requests (desired : ResourceList) (name : string)
    (requests : ResourceList) : ResourceList :=
  match requests !! name, desired !! name with
  | Some q, Some d => if Quantity_Equal q d then requests else <[name := d]> requests
  | _, _ => requests
  end.

(** The request of one resource name after the reconcile, following the
    design document: the desired quantity where both sides list the name
    and the quantities differ, the current one otherwise. *)
Definition desiredRequest (desired : ResourceList) (name : string) (cur : option Quantity)
    : option Quantity :=
  match cur, desired !! name with
  | Some q, Some d => Some (if Quantity_Equal q d then q else d)
  | _, _ => cur
  end.

(** The requests of a claim in which the resource names [names] have been
    set, one after the other, to the quantities the template desires. *)
Definition setDesired (desired : ResourceList) (names : list string) (requests : ResourceList)
    : ResourceList :=
  fold_left (fun requests name =>
               match desired !! name with
               | Some d => <[name := d]> requests
               | None => requests
               end) names requests.

Definition isUpdatePVC (op : Op) : Prop := exists pvc, op = OpKubeUpdatePVC pvc.


(** How a poll for the exclusion of a host went, given its result and the
    answers of the Schemer to [IsHostInCluster], in order: it returned nil
    on the first answer "not in cluster", or it was still waiting, on
    nothing but answers "in cluster", when the observation ended. *)
Definition PolledUntilExcluded (fuel : nat) (r : Result Error) (answers : list Ans) : Prop :=
  (r = Ret noError
   /\ exists before last,
        answers = before ++ [last]
        /\ Forall (fun a => ansBool a = true) before
        /\ ansBool last = false)
  \/ (r = Blocked
      /\ Forall (fun a => ansBool a = true) answers
      /\ length answers = fuel).



(** Whatever [m] returns satisfies [P]. *)
Definition Returns {A} (P : A -> Prop) (m : M A) : Prop :=
  forall w w' a, m w = (w', Ret a) -> P a.

(** A call leaves [f] of every installation as it was. *)
Definition Keeps {A} (f : ClickHouseInstallation -> A) (w w' : World) : Prop :=
  forall p, f (getChi p w') = f (getChi p w).

(** The version label of a StatefulSet, if it has one. *)
Definition statefulSetVersion (statefulSet : StatefulSet) : option string :=
  om_Labels (sts_ObjectMeta statefulSet) !! LabelStatefulSetVersion.

(** Kinds of calls. *)
Definition isUpdateConfigMapOp (op : Op) : bool :=
  match op with
  | OpKubeUpdateConfigMap _ => true
  | _ => false
  end.

Definition isCreateTablesOp (op : Op) : bool :=
  match op with
  | OpHostCreateTables _ => true
  | _ => false
  end.

Definition isClaimOp (op : Op) : bool :=
  match op with
  | OpKubeGetPVC _ _ | OpKubeUpdatePVC _ => true
  | _ => false
  end.

Definition isUpdateWatchOp (op : Op) : bool :=
  match op with
  | OpUpdateWatch _ _ _ => true
  | _ => false
  end.

(** No call of the kind [kind]. *)
Definition never (kind : Op -> bool) (op : Op) : Prop := kind op = false.

(** Only calls of the kind [kind]. *)
Definition only (kind : Op -> bool) (op : Op) : Prop := kind op = true.

(** The announcement of a failed reconcile of an object. *)
Definition reconcileFailed : Announcement :=
  WithStatusError (WithStatusAction (WithEvent eventActionReconcile eventReasonReconcileFailed)).

(** Counters of the status of an installation. *)
Definition deletedHostsCount (c : ClickHouseInstallation) : Z :=
  st_DeletedHostsCount (chi_Status c).

Definition addedAndUpdatedHostsCount (c : ClickHouseInstallation) : Z * Z :=
  (st_AddedHostsCount (chi_Status c), st_UpdatedHostsCount (chi_Status c)).

(** Both StatefulSets carry the version label, with the same value. *)
Definition sameVersion (cur new : StatefulSet) : Prop :=
  exists v, statefulSetVersion cur = Some v /\ statefulSetVersion new = Some v.

(** The last call so far is the announcement [a] on the installation
    behind [chi]. *)
Definition lastAnnounced (chi : ChiPtr) (a : Announcement) (w : World) : Prop :=
  exists t ans, trace w = t ++ [mkEvent (OpAnnounce (getChi chi w) a) ans].

Definition isAnnounceOp (op : Op) : bool :=
  match op with
  | OpAnnounce _ _ => true
  | _ => false
  end.

(** A call that creates no tables and changes no cluster, shard or host. *)
Definition hostUntouched (w w' : World) : Prop :=
  Emits (never isCreateTablesOp) w w' /\ Keeps chi_Clusters w w'.

(** The calls of [deleteTables]. *)
Definition isDeleteTablesStep (op : Op) : bool :=
  match op with
  | OpHostDeleteTables _ | OpAnnounce _ _ => true
  | _ => false
  end.

(** The announcements of a deletion. *)
Definition deleteStarted : Announcement :=
  WithStatusAction (WithEvent eventActionDelete eventReasonDeleteStarted).

Definition deleteCompleted : Announcement :=
  WithStatusAction (WithEvent eventActionDelete eventReasonDeleteCompleted).

Definition deleteFailed : Announcement :=
  WithStatusError (WithEvent eventActionDelete eventReasonDeleteFailed).

(** Calls that install the finalizer, create or update an object of the
    platform or tables, or add an installation to the monitoring. *)
Definition isReconcileWrite (op : Op) : bool :=
  match op with
  | OpInstallFinalizer _ | OpUpdateWatch _ _ _
  | OpCreateStatefulSet _ _ | OpUpdateStatefulSet _ _ _ | OpUpdatePersistentVolume _
  | OpKubeUpdateConfigMap _ | OpKubeCreateConfigMap _
  | OpKubeUpdateService _ | OpKubeCreateService _ | OpKubeUpdatePVC _
  | OpHostCreateTables _ => true
  | _ => false
  end.

Definition isProbeOp (op : Op) : bool :=
  match op with
  | OpIsHostInCluster _ => true
  | _ => false
  end.

(** Both Services are of type NodePort, or both of type LoadBalancer. *)
Definition sameAllocatingType (curService newService : Service) : bool :=
  (String.eqb (spec_Type (svc_Spec curService)) ServiceTypeNodePort
   && String.eqb (spec_Type (svc_Spec newService)) ServiceTypeNodePort)
  || (String.eqb (spec_Type (svc_Spec curService)) ServiceTypeLoadBalancer
      && String.eqb (spec_Type (svc_Spec newService)) ServiceTypeLoadBalancer).

(** Calls that look up, create, update or recreate a Service. *)
Definition isServiceReconcileOp (op : Op) : bool :=
  match op with
  | OpGetService _ | OpKubeUpdateService _ | OpKubeCreateService _
  | OpDeleteServiceIfExists _ _ => true
  | _ => false
  end.

Definition isDeleteServiceCHIOp (op : Op) : bool :=
  match op with
  | OpDeleteServiceCHI _ => true
  | _ => false
  end.

(** The announcement that ends a reconcile. *)
Definition reconcileCompleted : Announcement :=
  WithStatusActions (WithEvent eventActionReconcile eventReasonReconcileCompleted).

(** ** Reasoning about worker functions *)

Section StepRules.

Variable R : World -> World -> Prop.
Hypothesis R_refl : forall w, R w w.
Hypothesis R_trans : forall w1 w2 w3, R w1 w2 -> R w2 w3 -> R w1 w3.

Lemma Step_ret {A} (a : A) : Step R (ret a).
Proof. intros w w' r [= <- _]. apply R_refl. Qed.

Lemma Step_panic {A} : Step R (@panic A).
Proof. intros w w' r [= <- _]. apply R_refl. Qed.

Lemma Step_blocked {A} : Step R (@blocked A).
Proof. intros w w' r [= <- _]. apply R_refl. Qed.

Lemma Step_gets {A} (f : World -> A) : Step R (gets f).
Proof. intros w w' r [= <- _]. apply R_refl. Qed.

Lemma Step_bind {A B} (m : M A) (k : A -> M B) :
  Step R m -> (forall a, Step R (k a)) -> Step R (bind m k).
Proof.
  intros Hm Hk w w' r. unfold bind.
  destruct (m w) as [w1 [a| |]] eqn:E; intros H.
  - eapply R_trans; [eapply Hm, E | eapply Hk, H].
  - injection H as <- _. eapply Hm, E.
  - injection H as <- _. eapply Hm, E.
Qed.

Lemma Step_orPanic {A} (f : World -> option A) : Step R (orPanic f).
Proof. intros w w' r. unfold orPanic. destruct (f w); intros [= <- _]; apply R_refl. Qed.

Lemma Step_modify (f : World -> World) :
  (forall w, R w (f w)) -> Step R (modify f).
Proof. intros Hf w w' r [= <- _]. apply Hf. Qed.

Lemma Step_call (op : Op) :
  (forall w a, R w (emit (mkEvent op a) w)) -> Step R (call op).
Proof. intros H w w' r [= <- _]. apply H. Qed.

Lemma Step_forEach {A B} (f : A -> M B) (l : list A) :
  (forall x, Step R (f x)) -> Step R (forEach f l).
Proof.
  intros Hf. induction l as [|x l IH]; simpl.
  - apply Step_ret.
  - apply Step_bind; [apply Hf | intros _; apply IH].
Qed.

Lemma Step_forEachTillError {A} (f : A -> M Error) (l : list A) :
  (forall x, Step R (f x)) -> Step R (forEachTillError f l).
Proof.
  intros Hf. induction l as [|x l IH]; simpl.
  - apply Step_ret.
  - apply Step_bind; [apply Hf | intros err].
    destruct (negb (isNil err)); [apply Step_ret | apply IH].
Qed.

Lemma Step_pollLoop fuel ctx host (f : HostPtr -> M bool) :
  (forall h, Step R (f h)) -> Step R (pollLoop fuel ctx host f).
Proof.
  intros Hf. induction fuel as [|fuel IH]; simpl.
  - apply Step_bind; [apply Step_gets | intros []; [apply Step_ret | apply Step_blocked]].
  - apply Step_bind; [apply Step_gets | intros []; [apply Step_ret | ]].
    apply Step_bind; [apply Hf | intros []; [apply Step_ret | apply IH]].
Qed.

End StepRules.

Lemma Emits_refl P w : Emits P w w.
Proof. exists []. split; [by rewrite app_nil_r | constructor]. Qed.

Lemma Emits_trans P w1 w2 w3 : Emits P w1 w2 -> Emits P w2 w3 -> Emits P w1 w3.
Proof.
  intros (e1 & H1 & F1) (e2 & H2 & F2). exists (e1 ++ e2). split.
  - by rewrite H2, H1, app_assoc.
  - by apply Forall_app.
Qed.

Lemma Emits_emit (P : Op -> Prop) w op a : P op -> Emits P w (emit (mkEvent op a) w).
Proof. intros HP. exists [mkEvent op a]. split; [done | by repeat constructor]. Qed.

Lemma Emits_setChi P w p c : Emits P w (setChi p c w).
Proof. exists []. split; [destruct p; simpl; by rewrite app_nil_r | constructor]. Qed.

Lemma Emits_setCreator P w p : Emits P w (setCreator p w).
Proof. exists []. split; [simpl; by rewrite app_nil_r | constructor]. Qed.

Ltac emits_side :=
  first
    [ apply Emits_refl | apply Emits_trans | apply Emits_setChi | apply Emits_setCreator
    | apply Emits_emit; reflexivity ].

Ltac head_of t :=
  lazymatch t with
  | ?f _ => head_of f
  | _ => t
  end.

Ltac step_rules side :=
  first
    [ apply Step_ret; side | apply Step_panic; side | apply Step_blocked; side
    | apply Step_gets; side
    | apply Step_orPanic; side
    | apply Step_modify; intros ?; side
    | apply Step_call; intros ? ?; side
    | apply Step_forEach; [ side | side | intros ? ]
    | apply Step_forEachTillError; [ side | side | intros ? ]
    | apply Step_pollLoop; [ side | side | intros ? ]
    | apply Step_bind; [ side | | intros ? ]
    | match goal with
      | |- Step _ (if ?b then _ else _) => destruct b
      | |- Step _ (match ?x with _ => _ end) => destruct x
      | |- Step _ (let '(_, _) := ?x in _) => destruct x
      | |- Step _ (let _ := _ in _) => cbv zeta
      | |- Step _ ?m => let h := head_of m in progress unfold h
      end ].

Create HintDb noqueue.

Ltac no_queue := repeat (first [ solve [ eauto with noqueue ] | step_rules emits_side ]).

(** Nothing below the work loop touches the work queue. *)
Lemma reconcileService_noQueue ctx chi service :
  Step (Emits nonQueueOp) (reconcileService ctx chi service).
Proof. no_queue. Qed.

Lemma reconcileConfigMap_noQueue ctx chi configMap update :
  Step (Emits nonQueueOp) (reconcileConfigMap ctx chi configMap update).
Proof. no_queue. Qed.

Hint Resolve reconcileService_noQueue reconcileConfigMap_noQueue : noqueue.

Lemma reconcileCHIConfigMaps_noQueue ctx chi options update :
  Step (Emits nonQueueOp) (reconcileCHIConfigMaps ctx chi options update).
Proof. no_queue. Qed.

Hint Resolve reconcileCHIConfigMaps_noQueue : noqueue.

Lemma reconcilePersistentVolumeClaims_noQueue ctx host :
  Step (Emits nonQueueOp) (reconcilePersistentVolumeClaims ctx host).
Proof.
  assert (Heach : forall names pvc desired,
             Step (Emits nonQueueOp) (reconcileResourceEach ctx pvc desired names)).
  { induction names as [|n names IH]; intros pvc desired; simpl; no_queue. }
  no_queue.
Qed.

Lemma reconcileStatefulSet_noQueue ctx statefulSet host :
  Step (Emits nonQueueOp) (reconcileStatefulSet ctx statefulSet host).
Proof. pose proof reconcilePersistentVolumeClaims_noQueue. no_queue. Qed.

Hint Resolve reconcileStatefulSet_noQueue : noqueue.

Lemma reconcileHost_noQueue ctx host : Step (Emits nonQueueOp) (reconcileHost ctx host).
Proof. no_queue. Qed.

Hint Resolve reconcileHost_noQueue : noqueue.

Lemma reconcile_noQueue ctx chi : Step (Emits nonQueueOp) (reconcile ctx chi).
Proof. no_queue. Qed.

Lemma deleteHost_noQueue ctx host : Step (Emits nonQueueOp) (deleteHost ctx host).
Proof. no_queue. Qed.

Hint Resolve reconcile_noQueue deleteHost_noQueue : noqueue.

Lemma deleteCluster_noQueue ctx cluster : Step (Emits nonQueueOp) (deleteCluster ctx cluster).
Proof. no_queue. Qed.

Hint Resolve deleteCluster_noQueue : noqueue.

Lemma deleteCHI_noQueue ctx chi : Step (Emits nonQueueOp) (deleteCHI ctx chi).
Proof. no_queue. Qed.

Hint Resolve deleteCHI_noQueue : noqueue.

Lemma updateCHI_noQueue ctx old new : Step (Emits nonQueueOp) (updateCHI ctx old new).
Proof. no_queue. Qed.

Hint Resolve updateCHI_noQueue : noqueue.


(** ** The work loop and the queue *)








(** ** Whether to wait for the exclusion of a host *)

Lemma GetShard_of_host host w h :
  getHost host w = Some h -> exists sh, GetShard host w = Some sh /\ 1 <= HostsCount sh.
Proof.
  unfold getHost, GetShard, lookupHost, HostsCount.
  destruct (lookupShard _ _ _) as [sh|]; [|done].
  intros Hh. exists sh. split; [done|].
  apply lookup_lt_Some in Hh. lia.
Qed.

Lemma shouldWaitExcludeHost_eq host status w sh :
  GetShard host w = Some sh ->
  shouldWaitExcludeHost host status w
  = (w, Ret (negb (isNewOrSame status)
             && negb (HostsCount sh =? 1)
             && (IsReconcilingPolicyWait (getChi (hp_CHI host) w)
                 || negb (IsReconcilingPolicyNoWait (getChi (hp_CHI host) w))
                    && ReconcileWaitExclude config))).
Proof.
  intros Hsh. unfold shouldWaitExcludeHost.
  destruct (isNewOrSame status); [reflexivity|].
  unfold bind at 1, derefShard, orPanic. rewrite Hsh.
  destruct (HostsCount sh =? 1); [reflexivity|].
  unfold bind, readChi, gets.
  destruct (IsReconcilingPolicyWait _); [reflexivity|].
  destruct (IsReconcilingPolicyNoWait _); [reflexivity|].
  destruct (ReconcileWaitExclude config); reflexivity.
Qed.

(** C1.  For a host of a CHI and a StatefulSet status,
    [shouldWaitExcludeHost] changes nothing and returns true if and only if
    the status is neither New nor Same, the shard of the host has more than
    one host, and the reconciling policy of the CHI is not NoWait while it
    is Wait or the operator configuration has [ReconcileWaitExclude].  For
    a host whose shard has exactly one host it returns false. *)
Theorem shouldWaitExcludeHost_iff (host : HostPtr) (status : StatefulSetStatus) (w : World)
    (h : ChiHost) :
  getHost host w = Some h ->
  exists (sh : ChiShard) (b : bool),
    GetShard host w = Some sh
    /\ shouldWaitExcludeHost host status w = (w, Ret b)
    /\ (b = true <->
          (status <> statefulSetStatusNew /\ status <> statefulSetStatusSame)
          /\ 1 < HostsCount sh
          /\ (IsReconcilingPolicyNoWait (getChi (hp_CHI host) w) = false
              /\ (IsReconcilingPolicyWait (getChi (hp_CHI host) w) = true
                  \/ ReconcileWaitExclude config = true)))
    /\ (HostsCount sh = 1 -> b = false).
Proof.
  intros Hh. destruct (GetShard_of_host _ _ _ Hh) as (sh & Hsh & Hcount).
  exists sh. eexists. split; [done|]. split; [by apply shouldWaitExcludeHost_eq|].
  assert (Hpol : IsReconcilingPolicyWait (getChi (hp_CHI host) w) = true ->
                 IsReconcilingPolicyNoWait (getChi (hp_CHI host) w) = false).
  { unfold IsReconcilingPolicyWait, IsReconcilingPolicyNoWait.
    by destruct (chi_ReconcilingPolicy _). }
  split.
  - rewrite !andb_true_iff, orb_true_iff, andb_true_iff, !negb_true_iff, Nat.eqb_neq.
    split.
    + intros [[Hs Hc] Hp]. repeat split.
      * intros ->. done.
      * intros ->. done.
      * lia.
      * destruct Hp as [Hp | [Hp _]]; [by apply Hpol | done].
      * destruct Hp as [Hp | [_ Hp]]; [by left | by right].
    + intros ((Hn & Hs) & Hc & Hnw & Hp). repeat split.
      * by destruct status.
      * lia.
      * destruct Hp as [Hp | Hp]; [by left | right; by split].
  - intros ->. simpl. by rewrite andb_false_r.
Qed.

(** ** Cancellation *)




(** ** The finalizer *)

(** [ensureFinalizer] calls [installFinalizer] on every CHI, whether or not
    the finalizer is already in its finalizer list: the test for the
    finalizer only logs. *)
Lemma ensureFinalizer_always_installs (chi : ClickHouseInstallation) (w : World) :
  ensureFinalizer chi w
  = (emit (mkEvent (OpInstallFinalizer chi) (env (OpInstallFinalizer chi) (trace w))) w,
     Ret tt).
Proof.
  unfold ensureFinalizer.
  destruct (InArray FinalizerName (om_Finalizers (chi_ObjectMeta chi))); reflexivity.
Qed.

(** ** Marking the hosts in [updateCHI] *)

Lemma cluster_hosts_WalkHosts f cl :
  cluster_hosts (cluster_WalkHosts f cl) = map f (cluster_hosts cl).
Proof.
  unfold cluster_hosts, cluster_WalkHosts. simpl.
  rewrite List.map_map. simpl. rewrite List.concat_map, List.map_map. reflexivity.
Qed.

Lemma chi_hosts_WalkHosts f c : chi_hosts (chi_WalkHosts f c) = map f (chi_hosts c).
Proof.
  unfold chi_hosts, chi_WalkHosts. simpl.
  rewrite List.map_map, List.concat_map, List.map_map.
  f_equal. apply List.map_ext. intros cl. apply cluster_hosts_WalkHosts.
Qed.

Lemma markUnclear_marked h :
  let a := host_ReconcileAttributes (markUnclear h) in
  IsAdd a = IsAdd (host_ReconcileAttributes h)
  /\ IsModify a = IsModify (host_ReconcileAttributes h)
  /\ IsMigrate a = IsMigrate (host_ReconcileAttributes h)
  /\ (IsAdd a = false -> IsModify a = false -> IsUnclear a = true).
Proof.
  unfold markUnclear, IsAdd, IsModify, IsMigrate, IsUnclear.
  destruct h as [n ad [a m u g r] s v]; simpl.
  destruct a, m; simpl; repeat split; congruence.
Qed.

(** The two walks over the hosts of a CHI, taken by themselves: they keep
    the hosts and their order and leave [Add] and [Modify] as they find
    them; with [update] every host has [Migrate] afterwards, and a host with
    neither [Add] nor [Modify] has [Unclear]. *)
Lemma updateCHI_markHosts_marks (old new : option ClickHouseInstallation)
    (c : ClickHouseInstallation) :
  let update := isUpdate old new in
  let marked := updateCHI_markHosts update c in
  chi_hosts marked = map (fun h => markUnclear (markMigrate update h)) (chi_hosts c)
  /\ Forall2 (fun h h' =>
                host_Name h' = host_Name h
                /\ IsAdd (host_ReconcileAttributes h') = IsAdd (host_ReconcileAttributes h)
                /\ IsModify (host_ReconcileAttributes h')
                   = IsModify (host_ReconcileAttributes h))
             (chi_hosts c) (chi_hosts marked)
  /\ (forall h', In h' (chi_hosts marked) ->
        ((exists o n, old = Some o /\ new = Some n) ->
         IsMigrate (host_ReconcileAttributes h') = true)
        /\ (IsAdd (host_ReconcileAttributes h') = false ->
            IsModify (host_ReconcileAttributes h') = false ->
            IsUnclear (host_ReconcileAttributes h') = true)
        /\ (IsAdd (host_ReconcileAttributes h') = true
            \/ IsModify (host_ReconcileAttributes h') = true
            \/ IsUnclear (host_ReconcileAttributes h') = true)).
Proof.
  intros update marked.
  assert (Hhosts : chi_hosts marked
                   = map (fun h => markUnclear (markMigrate update h)) (chi_hosts c)).
  { unfold marked, updateCHI_markHosts.
    rewrite !chi_hosts_WalkHosts, List.map_map. reflexivity. }
  split; [exact Hhosts|]. rewrite Hhosts. split.
  - clear Hhosts. induction (chi_hosts c) as [|h l IH]; simpl; [constructor|].
    constructor; [|exact IH].
    unfold markUnclear, markMigrate, IsAdd, IsModify.
    destruct update; destruct h as [n ad [a m u g r] s v]; simpl;
      destruct a, m; simpl; done.
  - intros h' Hin. apply List.in_map_iff in Hin as (h & <- & _).
    destruct (markUnclear_marked (markMigrate update h)) as (Ha & Hm & Hg & Hu).
    simpl in Ha, Hm, Hg, Hu. split; [|split].
    + intros (o & n & -> & ->). rewrite Hg. reflexivity.
    + exact Hu.
    + destruct (IsAdd (host_ReconcileAttributes (markUnclear (markMigrate update h))))
        eqn:Ea; [by left|].
      destruct (IsModify (host_ReconcileAttributes (markUnclear (markMigrate update h))))
        eqn:Em; [by right; left|].
      right; right. by apply Hu.
Qed.

(** ** Immutable fields of a Service *)

(** The first current port with a given port number. *)
Lemma reusePort_find newPort curPorts :
  reusePort newPort curPorts
  = match List.find (fun curPort => (port_Port newPort =? port_Port curPort)%Z) curPorts with
    | Some curPort => curPort
    | None => newPort
    end.
Proof.
  induction curPorts as [|c l IH]; simpl; [done|].
  destruct (port_Port newPort =? port_Port c)%Z; [done | exact IH].
Qed.

Lemma updateService_live ctx chi curService newService w :
  ctx (trace w) = false ->
  exists w' a ann,
    updateService ctx chi curService newService w
    = (w', Ret (updateService_prepare curService newService, ansErr a))
    /\ trace w'
       = trace w
         ++ [mkEvent (OpKubeUpdateService (updateService_prepare curService newService)) a;
             ann].
Proof.
  intros Hlive. unfold updateService.
  unfold bind at 1, IsContextDone, gets. rewrite Hlive.
  unfold bind at 1. rewrite Hlive.
  unfold bind at 1, callErr, bind at 1, call. simpl.
  destruct (isNil _); unfold bind, announce, announceCHI, readChi, gets, call, ret; simpl;
    eexists _, _, _; (split; [reflexivity|]); unfold emit; simpl;
    rewrite <- app_assoc; reflexivity.
Qed.

(** C7.  When [updateService] is entered with a live context it submits
    exactly one update, of the new service as prepared, and of that service:
    the ClusterIP is the current one; the HealthCheckNodePort is the current
    one when both services have ExternalTrafficPolicy Local; and, when both
    are of type NodePort or both of type LoadBalancer, every port of the new
    spec whose port number is the port number of a current port has been
    replaced by the whole entry of the first such current port, nodePort
    included, and the other ports are as they were. *)
Theorem updateService_preserves_assigned_fields (ctx : Context) (chi : ChiPtr)
    (curService newService : Service) (w : World) :
  ctx (trace w) = false ->
  let submitted := updateService_prepare curService newService in
  (exists w' a ann,
     updateService ctx chi curService newService w = (w', Ret (submitted, ansErr a))
     /\ trace w' = trace w ++ [mkEvent (OpKubeUpdateService submitted) a; ann])
  /\ spec_ClusterIP (svc_Spec submitted) = spec_ClusterIP (svc_Spec curService)
  /\ (spec_ExternalTrafficPolicy (svc_Spec curService) = ServiceExternalTrafficPolicyTypeLocal ->
      spec_ExternalTrafficPolicy (svc_Spec newService) = ServiceExternalTrafficPolicyTypeLocal ->
      spec_HealthCheckNodePort (svc_Spec submitted)
      = spec_HealthCheckNodePort (svc_Spec curService))
  /\ ((spec_Type (svc_Spec curService) = ServiceTypeNodePort
       /\ spec_Type (svc_Spec newService) = ServiceTypeNodePort)
      \/ (spec_Type (svc_Spec curService) = ServiceTypeLoadBalancer
          /\ spec_Type (svc_Spec newService) = ServiceTypeLoadBalancer) ->
      length (spec_Ports (svc_Spec submitted)) = length (spec_Ports (svc_Spec newService))
      /\ forall i newPort,
           spec_Ports (svc_Spec newService) !! i = Some newPort ->
           (forall curPort,
              In curPort (spec_Ports (svc_Spec curService)) ->
              port_Port curPort = port_Port newPort ->
              exists reused,
                spec_Ports (svc_Spec submitted) !! i = Some reused
                /\ List.find (fun c => (port_Port newPort =? port_Port c)%Z)
                             (spec_Ports (svc_Spec curService)) = Some reused
                /\ In reused (spec_Ports (svc_Spec curService))
                /\ port_Port reused = port_Port newPort)
           /\ ((forall curPort,
                  In curPort (spec_Ports (svc_Spec curService)) ->
                  port_Port curPort <> port_Port newPort) ->
               spec_Ports (svc_Spec submitted) !! i = Some newPort)).
Proof.
  intros Hlive submitted.
  split; [by apply updateService_live|].
  split; [reflexivity|].
  split.
  { intros Hc Hn. unfold submitted, updateService_prepare. simpl.
    rewrite Hc, Hn. reflexivity. }
  intros Htype.
  assert (Hports : spec_Ports (svc_Spec submitted)
                   = map (fun newPort => reusePort newPort (spec_Ports (svc_Spec curService)))
                         (spec_Ports (svc_Spec newService))).
  { unfold submitted, updateService_prepare. simpl.
    destruct Htype as [[-> ->] | [-> ->]]; reflexivity. }
  rewrite Hports. split; [apply List.length_map|].
  intros i newPort Hi.
  assert (Hsub : map (fun newPort => reusePort newPort (spec_Ports (svc_Spec curService)))
                     (spec_Ports (svc_Spec newService)) !! i
                 = Some (reusePort newPort (spec_Ports (svc_Spec curService)))).
  { change (map ?f ?l) with (f <$> l). by rewrite list_lookup_fmap, Hi. }
  rewrite Hsub, reusePort_find. split.
  - intros curPort Hin Hport.
    destruct (List.find _ _) as [reused|] eqn:Hfind.
    + exists reused. apply List.find_some in Hfind as [Hin' Heq].
      apply Z.eqb_eq in Heq. done.
    + exfalso. apply (List.find_none _ _ Hfind) in Hin.
      apply Z.eqb_neq in Hin. congruence.
  - intros Hnone.
    destruct (List.find _ _) as [reused|] eqn:Hfind; [|done].
    apply List.find_some in Hfind as [Hin' Heq]. apply Z.eqb_eq in Heq.
    exfalso. by apply (Hnone reused).
Qed.

(** ** Resources of a PersistentVolumeClaim *)

Lemma reconcileResource_requests_lookup desired name requests k :
  reconcileResource_requests desired name requests !! k
  = if decide (k = name) then desiredRequest desired k (requests !! k) else requests !! k.
Proof.
  unfold reconcileResource_requests, desiredRequest.
  destruct (decide (k = name)) as [->|Hne].
  - destruct (requests !! name) as [q|] eqn:Hq; [|by rewrite Hq].
    destruct (desired !! name) as [d|]; [|by rewrite Hq].
    destruct (Quantity_Equal q d); [by rewrite Hq | by rewrite lookup_insert_eq].
  - destruct (requests !! name) as [q|]; [|done].
    destruct (desired !! name) as [d|]; [|done].
    destruct (Quantity_Equal q d); [done | by rewrite lookup_insert_ne].
Qed.

Lemma desiredRequest_idem desired k o :
  desiredRequest desired k (desiredRequest desired k o) = desiredRequest desired k o.
Proof.
  unfold desiredRequest. destruct o as [q|]; [|done].
  destruct (desired !! k) as [d|]; [|done].
  destruct (Quantity_Equal q d) eqn:E; [by rewrite E|].
  unfold Quantity_Equal. by rewrite Z.eqb_refl.
Qed.

Lemma reconcileResource_live ctx pvc desired name w :
  ctx (trace w) = false ->
  exists w',
    reconcileResource ctx pvc desired name w
    = (w', Ret (mkPVC (pvc_ObjectMeta pvc)
                  (reconcileResource_requests desired name (pvc_Requests pvc))))
    /\ Emits isUpdatePVC w w'
    /\ (reconcileResource_requests desired name (pvc_Requests pvc) = pvc_Requests pvc
        -> (forall q d, pvc_Requests pvc !! name = Some q -> desired !! name = Some d ->
                        Quantity_Equal q d = true)
        -> w' = w).
Proof.
  intros Hlive. unfold reconcileResource, reconcileResource_requests.
  unfold bind at 1, IsContextDone, gets. rewrite Hlive.
  destruct pvc as [meta requests]. simpl.
  destruct (requests !! name) as [q|] eqn:Hq;
    [|exists w; split; [done|]; split; [apply Emits_refl | done]].
  destruct (desired !! name) as [d|] eqn:Hd;
    [|exists w; split; [done|]; split; [apply Emits_refl | done]].
  destruct (Quantity_Equal q d) eqn:E;
    [exists w; split; [done|]; split; [apply Emits_refl | done]|].
  eexists. split; [reflexivity|]. split.
  - apply Emits_emit. by eexists.
  - intros _ Heq. specialize (Heq q d eq_refl eq_refl). congruence.
Qed.

Lemma reconcileResourceEach_live ctx desired names :
  (forall t, ctx t = false) ->
  forall pvc w,
  exists w' pvc',
    reconcileResourceEach ctx pvc desired names w = (w', Ret pvc')
    /\ pvc_ObjectMeta pvc' = pvc_ObjectMeta pvc
    /\ (forall k, pvc_Requests pvc' !! k
                  = if decide (k ∈ names)
                    then desiredRequest desired k (pvc_Requests pvc !! k)
                    else pvc_Requests pvc !! k)
    /\ Emits isUpdatePVC w w'
    /\ ((forall k q d, pvc_Requests pvc !! k = Some q -> desired !! k = Some d ->
                       Quantity_Equal q d = true)
        -> w' = w /\ pvc' = pvc).
Proof.
  intros Hlive. induction names as [|name names IH]; intros pvc w;
    cbn [reconcileResourceEach].
  - exists w, pvc. split; [done|]. split; [done|]. split.
    + intros k. by rewrite decide_False by apply not_elem_of_nil.
    + split; [apply Emits_refl | done].
  - destruct (reconcileResource_live ctx pvc desired name w (Hlive _))
      as (w1 & Hstep & Hem1 & Hsame1).
    unfold bind at 1. rewrite Hstep.
    set (pvc1 := mkPVC (pvc_ObjectMeta pvc)
                   (reconcileResource_requests desired name (pvc_Requests pvc))).
    destruct (IH pvc1 w1) as (w' & pvc' & Heach & Hmeta & Hlook & Hem & Hsame).
    exists w', pvc'. split; [exact Heach|]. split; [by rewrite Hmeta|]. split; [|split].
    + intros k. rewrite Hlook. unfold pvc1. cbn [pvc_Requests].
      rewrite reconcileResource_requests_lookup.
      destruct (decide (k = name)) as [->|Hne].
      * rewrite (decide_True (P := name ∈ name :: names)) by apply list_elem_of_here.
        destruct (decide (name ∈ names)); [apply desiredRequest_idem | done].
      * destruct (decide (k ∈ names)) as [Hin|Hnin].
        -- by rewrite decide_True by (by apply list_elem_of_further).
        -- rewrite decide_False; [done|].
           intros [?|?]%elem_of_cons; done.
    + eapply Emits_trans; eassumption.
    + intros Heq.
      assert (Hreq : reconcileResource_requests desired name (pvc_Requests pvc)
                     = pvc_Requests pvc).
      { unfold reconcileResource_requests.
        destruct (pvc_Requests pvc !! name) as [q|] eqn:Hq; [|done].
        destruct (desired !! name) as [d|] eqn:Hd; [|done].
        by rewrite (Heq name q d Hq Hd). }
      assert (Hpvc1 : pvc1 = pvc).
      { unfold pvc1. rewrite Hreq. by destruct pvc. }
      assert (w1 = w) as ->.
      { apply Hsame1; [exact Hreq|]. intros q d. apply Heq. }
      rewrite Hpvc1 in Hsame. by apply Hsame.
Qed.

(** One step of the loop over the common resource names, under a context
    that is not done. *)
Lemma reconcileResource_run ctx pvc desired name w :
  ctx (trace w) = false ->
  reconcileResource ctx pvc desired name w
  = match pvc_Requests pvc !! name, desired !! name with
    | Some q, Some d =>
        if Quantity_Equal q d then (w, Ret pvc)
        else
          let updated := mkPVC (pvc_ObjectMeta pvc) (<[name := d]> (pvc_Requests pvc)) in
          (emit (mkEvent (OpKubeUpdatePVC updated) (env (OpKubeUpdatePVC updated) (trace w))) w,
           Ret updated)
    | _, _ => (w, Ret pvc)
    end.
Proof.
  intros Hlive. unfold reconcileResource, bind at 1, IsContextDone, gets. rewrite Hlive.
  destruct (pvc_Requests pvc !! name) as [q|]; [|reflexivity].
  destruct (desired !! name) as [d|]; [|reflexivity].
  destruct (Quantity_Equal q d); reflexivity.
Qed.

(** The updates the loop submits: one for every name whose quantities
    differ, each with the claim as the assignments so far have left it. *)
Lemma reconcileResourceEach_updates ctx desired names :
  (forall t, ctx t = false) ->
  forall pvc w,
  exists changed evs,
    reconcileResourceEach ctx pvc desired names w
    = (mkWorld (trace w ++ evs) (objOld w) (objNew w) (objDel w) (creator w),
       Ret (mkPVC (pvc_ObjectMeta pvc) (setDesired desired changed (pvc_Requests pvc))))
    /\ NoDup changed
    /\ (forall name,
          name ∈ changed
          <-> name ∈ names
              /\ exists q d, pvc_Requests pvc !! name = Some q /\ desired !! name = Some d
                             /\ Quantity_Equal q d = false)
    /\ map ev_op evs
       = imap (fun i _ =>
                 OpKubeUpdatePVC
                   (mkPVC (pvc_ObjectMeta pvc)
                      (setDesired desired (take (S i) changed) (pvc_Requests pvc))))
              changed.
Proof.
  intros Hlive. induction names as [|name names IH]; intros pvc w;
    cbn [reconcileResourceEach].
  - exists [], []. rewrite app_nil_r. split; [by destruct pvc, w|].
    split; [constructor|]. split; [|reflexivity].
    intros name. split; [by intros ?%not_elem_of_nil | by intros [?%not_elem_of_nil _]].
  - unfold bind at 1. rewrite reconcileResource_run by apply Hlive.
    destruct (pvc_Requests pvc !! name) as [q|] eqn:Hq.
    2:{ destruct (IH pvc w) as (changed & evs & Hrun & Hnd & Hin & Hops).
        exists changed, evs. split; [exact Hrun|]. split; [exact Hnd|]. split; [|exact Hops].
        intros k. rewrite Hin, elem_of_cons. split; [by intros [? ?]; split; [right|]|].
        intros [[->|?] HP]; [|done]. destruct HP as (q' & d' & Hq' & Hd' & E'). congruence. }
    destruct (desired !! name) as [d|] eqn:Hd.
    2:{ destruct (IH pvc w) as (changed & evs & Hrun & Hnd & Hin & Hops).
        exists changed, evs. split; [exact Hrun|]. split; [exact Hnd|]. split; [|exact Hops].
        intros k. rewrite Hin, elem_of_cons. split; [by intros [? ?]; split; [right|]|].
        intros [[->|?] HP]; [|done]. destruct HP as (q' & d' & Hq' & Hd' & E'). congruence. }
    destruct (Quantity_Equal q d) eqn:E.
    { destruct (IH pvc w) as (changed & evs & Hrun & Hnd & Hin & Hops).
      exists changed, evs. split; [exact Hrun|]. split; [exact Hnd|]. split; [|exact Hops].
      intros k. rewrite Hin, elem_of_cons. split; [by intros [? ?]; split; [right|]|].
      intros [[->|?] HP]; [|done]. destruct HP as (q' & d' & Hq' & Hd' & E'). congruence. }
    cbv zeta.
    set (updated := mkPVC (pvc_ObjectMeta pvc) (<[name := d]> (pvc_Requests pvc))).
    set (e := mkEvent (OpKubeUpdatePVC updated) (env (OpKubeUpdatePVC updated) (trace w))).
    destruct (IH updated (emit e w)) as (changed & evs & Hrun & Hnd & Hin & Hops).
    assert (Hnotin : name ∉ changed).
    { rewrite Hin. intros [_ (q' & d' & Hq' & Hd' & E')].
      unfold updated in Hq'. cbn [pvc_Requests] in Hq'. rewrite lookup_insert_eq in Hq'.
      injection Hq' as <-. rewrite Hd in Hd'. injection Hd' as <-.
      unfold Quantity_Equal in E'. by rewrite Z.eqb_refl in E'. }
    exists (name :: changed), (e :: evs).
    split.
    { rewrite Hrun. cbn [emit trace objOld objNew objDel creator updated pvc_ObjectMeta
                           pvc_Requests setDesired fold_left].
      rewrite Hd, <- app_assoc. reflexivity. }
    split; [by constructor|]. split.
    + intros k. rewrite !elem_of_cons, Hin. unfold updated. cbn [pvc_Requests].
      split.
      * intros [->|[Hk (q' & d' & Hq' & Hd' & E')]].
        -- split; [by left | by exists q, d].
        -- assert (k <> name) by (intros ->; apply Hnotin, Hin; split; [done|];
                                   by exists q', d').
           rewrite lookup_insert_ne in Hq' by done.
           split; [by right | by exists q', d'].
      * intros [Hk (q' & d' & Hq' & Hd' & E')].
        destruct (decide (k = name)) as [->|Hne]; [by left|]. right.
        destruct Hk as [->|Hk]; [done|]. split; [done|].
        exists q', d'. by rewrite lookup_insert_ne.
    + cbn [map imap]. f_equal.
      * cbn [take setDesired fold_left ev_op e]. by rewrite Hd.
      * rewrite Hops. apply imap_ext. intros i k _.
        cbn [take setDesired fold_left updated pvc_ObjectMeta pvc_Requests]. by rewrite Hd.
Qed.

Lemma elem_of_intersect_Simple k a b : k ∈ intersect_Simple a b <-> k ∈ a /\ k ∈ b.
Proof.
  unfold intersect_Simple. rewrite list_elem_of_filter, existsb_exists.
  split.
  - intros [(x & Hin & Heq) Ha]. apply String.eqb_eq in Heq as <-.
    split; [done | by apply list_elem_of_In].
  - intros [Ha Hb]. split; [|done]. exists k. split; [by apply list_elem_of_In|].
    apply String.eqb_refl.
Qed.

(** C8.  With a context that is not cancelled, and whatever order Go
    ranges over the keys of the two resource lists in,
    [reconcileResourcesList] returns the claim with the same metadata and
    with requests changed at exactly the resource names that both the claim
    and the template list with different quantities: such a name ends with
    the desired quantity (so the quantity equals the desired one whenever
    both sides list the name), every other name, in particular a name only
    one side lists, is as it was.  The only calls it makes are updates of
    the claim, and it makes none when no quantity differs: there is one
    update for every resource name that both sides list with different
    quantities, and no other call.  The i-th update submits the claim
    itself, with its metadata and with requests in which the first i of
    these names carry the desired quantity and every other name the
    quantity it had; the last update submits the claim that is
    returned. *)
Theorem reconcileResourcesList_updates_common_names (ctx : Context)
    (pvc : PersistentVolumeClaim) (desired : ResourceList) (w : World) :
  (forall t, ctx t = false) ->
  (forall (m : ResourceList) (k : string), k ∈ rangeKeys m <-> is_Some (m !! k)) ->
  exists w' pvc',
    reconcileResourcesList ctx pvc desired w = (w', Ret pvc')
    /\ pvc_ObjectMeta pvc' = pvc_ObjectMeta pvc
    /\ (forall name q d,
          pvc_Requests pvc !! name = Some q -> desired !! name = Some d ->
          (Quantity_Equal q d = false -> pvc_Requests pvc' !! name = Some d)
          /\ (Quantity_Equal q d = true -> pvc_Requests pvc' !! name = Some q)
          /\ (exists q', pvc_Requests pvc' !! name = Some q' /\ Quantity_Equal q' d = true))
    /\ (forall name,
          pvc_Requests pvc !! name = None \/ desired !! name = None ->
          pvc_Requests pvc' !! name = pvc_Requests pvc !! name)
    /\ Emits isUpdatePVC w w'
    /\ ((forall name q d,
           pvc_Requests pvc !! name = Some q -> desired !! name = Some d ->
           Quantity_Equal q d = true)
        -> w' = w /\ pvc' = pvc)
    /\ exists changed evs,
         trace w' = trace w ++ evs
         /\ NoDup changed
         /\ (forall name,
               name ∈ changed
               <-> exists q d, pvc_Requests pvc !! name = Some q /\ desired !! name = Some d
                              /\ Quantity_Equal q d = false)
         /\ map ev_op evs
            = imap (fun i _ =>
                      OpKubeUpdatePVC
                        (mkPVC (pvc_ObjectMeta pvc)
                           (setDesired desired (take (S i) changed) (pvc_Requests pvc))))
                   changed
         /\ pvc_Requests pvc' = setDesired desired changed (pvc_Requests pvc).
Proof.
  intros Hlive Hkeys. unfold reconcileResourcesList.
  unfold bind at 1, IsContextDone, gets. rewrite Hlive.
  destruct (reconcileResourceEach_live ctx desired
              (intersect_Simple (rangeKeys (pvc_Requests pvc)) (rangeKeys desired))
              Hlive pvc w) as (w' & pvc' & Heach & Hmeta & Hlook & Hem & Hsame).
  exists w', pvc'. split; [exact Heach|]. split; [exact Hmeta|].
  split; [|split; [|split; [exact Hem | split; [exact Hsame|]]]].
  - intros name q d Hq Hd. rewrite Hlook.
    rewrite decide_True.
    2:{ apply elem_of_intersect_Simple. rewrite !Hkeys, Hq, Hd. by split. }
    unfold desiredRequest. rewrite Hq, Hd.
    split; [by intros ->|]. split; [by intros ->|].
    destruct (Quantity_Equal q d) eqn:E; eexists; (split; [reflexivity|]); [done|].
    unfold Quantity_Equal. apply Z.eqb_refl.
  - intros name Hnone. rewrite Hlook.
    destruct (decide _) as [Hin|]; [|done].
    apply elem_of_intersect_Simple in Hin as [[q Hq]%Hkeys [d Hd]%Hkeys].
    destruct Hnone; congruence.
  - destruct (reconcileResourceEach_updates ctx desired
                (intersect_Simple (rangeKeys (pvc_Requests pvc)) (rangeKeys desired))
                Hlive pvc w) as (changed & evs & Hrun & Hnd & Hin & Hops).
    rewrite Heach in Hrun. injection Hrun as -> ->.
    exists changed, evs. split; [reflexivity|]. split; [exact Hnd|].
    split; [|split; [exact Hops | reflexivity]].
    intros name. rewrite Hin, elem_of_intersect_Simple, !Hkeys.
    split; [by intros [_ ?]|]. intros (q & d & Hq & Hd & E).
    split; [by rewrite Hq, Hd | by exists q, d].
Qed.

(** ** Status counters of StatefulSet creation and update *)









(** How the primitives act on a world. *)
Lemma trace_emit e w : trace (emit e w) = trace w ++ [e].
Proof. reflexivity. Qed.

Lemma trace_setChi p c w : trace (setChi p c w) = trace w.
Proof. by destruct p. Qed.

Lemma getChi_emit p e w : getChi p (emit e w) = getChi p w.
Proof. by destruct p. Qed.

Lemma getChi_setChi p c w : getChi p (setChi p c w) = c.
Proof. by destruct p. Qed.

Lemma getChi_setChi_ne p q c w : p <> q -> getChi p (setChi q c w) = getChi p w.
Proof. by destruct p, q. Qed.

Lemma creator_emit e w : creator (emit e w) = creator w.
Proof. reflexivity. Qed.

Lemma creator_setChi p c w : creator (setChi p c w) = creator w.
Proof. by destruct p. Qed.

Ltac world_simpl :=
  repeat first
    [ rewrite trace_emit | rewrite trace_setChi | rewrite getChi_emit
    | rewrite getChi_setChi | rewrite creator_emit | rewrite creator_setChi ].





(** ** Excluding a host *)

Lemma pollLoop_notInCluster_live fuel ctx host :
  (forall t, ctx t = false) ->
  forall w,
  exists w' r answers,
    pollLoop fuel ctx host (fun host => b <- IsHostInCluster host ;; ret (negb b)) w = (w', r)
    /\ trace w' = trace w ++ map (mkEvent (OpIsHostInCluster host)) answers
    /\ (forall p, getChi p w' = getChi p w)
    /\ PolledUntilExcluded fuel r answers.
Proof.
  intros Hlive. induction fuel as [|fuel IH]; intros w; cbn [pollLoop].
  - unfold bind at 1, IsContextDone, gets. rewrite Hlive.
    exists w, Blocked, []. split; [done|]. split; [by rewrite app_nil_r|].
    split; [done|]. right. by repeat split.
  - unfold bind at 1, IsContextDone, gets. rewrite Hlive.
    unfold bind at 1, IsHostInCluster at 1, bind at 1 2, call at 1, ret.
    cbn beta iota.
    set (a := env (OpIsHostInCluster host) (trace w)).
    destruct (ansBool a) eqn:Ea; cbn [negb].
    + destruct (IH (emit (mkEvent (OpIsHostInCluster host) a) w))
        as (w' & r & answers & Hrun & Htrace & Hchi & Hpoll).
      exists w', r, (a :: answers). split; [exact Hrun|].
      split; [by rewrite Htrace, trace_emit, <- app_assoc|].
      split; [intros p; by rewrite Hchi, getChi_emit|].
      destruct Hpoll as [(-> & before & last & -> & Hb & Hl) | (-> & Hall & Hlen)].
      * left. split; [done|]. exists (a :: before), last.
        split; [done|]. split; [by constructor | done].
      * right. split; [done|]. split; [by constructor | by simpl; rewrite Hlen].
    + exists (emit (mkEvent (OpIsHostInCluster host) a) w), (Ret noError), [a].
      split; [done|]. split; [done|]. split; [intros p; apply getChi_emit|].
      left. split; [done|]. exists [], a. by repeat split.
Qed.

Lemma Emits_extends P w w' : Emits P w w' -> exists rest, trace w' = trace w ++ rest.
Proof. intros (rest & Ht & _). by exists rest. Qed.

(** Equations of the monad, to run a worker function call by call. *)
Lemma bind_ret {A B} (a : A) (k : A -> M B) w : bind (ret a) k w = k a w.
Proof. reflexivity. Qed.

Lemma bind_bind {A B C} (m : M A) (k1 : A -> M B) (k2 : B -> M C) w :
  bind (bind m k1) k2 w = bind m (fun a => bind (k1 a) k2) w.
Proof. unfold bind. by destruct (m w) as [w1 [a| |]]. Qed.

Lemma bind_IsContextDone {B} ctx (k : bool -> M B) w :
  bind (IsContextDone ctx) k w = k (ctx (trace w)) w.
Proof. reflexivity. Qed.

Lemma bind_call {B} op (k : Ans -> M B) w :
  bind (call op) k w
  = k (env op (trace w)) (emit (mkEvent op (env op (trace w))) w).
Proof. reflexivity. Qed.

Lemma bind_orPanic {A B} (f : World -> option A) (k : A -> M B) w a :
  f w = Some a -> bind (orPanic f) k w = k a w.
Proof. intros H. unfold bind, orPanic. by rewrite H. Qed.

(** A worker function that has more to do only adds to the trace. *)
Lemma run_extends {A} (m : M A) w :
  Step (Emits nonQueueOp) m -> exists w' r rest, m w = (w', r) /\ trace w' = trace w ++ rest.
Proof.
  intros Hm. destruct (m w) as [w' r] eqn:E.
  destruct (Emits_extends _ _ _ (Hm _ _ _ E)) as (rest & Hrest).
  by exists w', r, rest.
Qed.

(** With a live context [reconcileConfigMap] first looks the ConfigMap up,
    and with [update = true] it then updates the one it found. *)
Lemma reconcileConfigMap_first ctx chi configMap w :
  (forall t, ctx t = false) ->
  let got := env (OpGetConfigMap (cm_ObjectMeta configMap)) (trace w) in
  exists w' r rest,
    reconcileConfigMap ctx chi configMap true w = (w', r)
    /\ trace w' = trace w ++ mkEvent (OpGetConfigMap (cm_ObjectMeta configMap)) got :: rest
    /\ (isSome (ansConfigMap got) = true ->
        exists a rest', rest = mkEvent (OpKubeUpdateConfigMap configMap) a :: rest').
Proof.
  intros Hlive got. unfold reconcileConfigMap.
  rewrite bind_IsContextDone, Hlive, bind_call. fold got. cbv zeta.
  set (w1 := emit (mkEvent (OpGetConfigMap (cm_ObjectMeta configMap)) got) w).
  destruct (ansConfigMap got) as [cur|] eqn:Hcur; cbn [negb].
  - unfold updateConfigMap.
    rewrite bind_bind, bind_IsContextDone, Hlive.
    unfold callErr. rewrite !bind_bind, bind_call.
    set (a := env (OpKubeUpdateConfigMap configMap) (trace w1)).
    set (w2 := emit (mkEvent (OpKubeUpdateConfigMap configMap) a) w1).
    match goal with
    | |- exists w' r rest, ?m w2 = _ /\ _ =>
        destruct (run_extends m w2) as (w' & r & rest' & Hm & Hrest'); [no_queue|]
    end.
    exists w', r, (mkEvent (OpKubeUpdateConfigMap configMap) a :: rest').
    split; [done|]. split; [|by eexists _, _].
    rewrite Hrest'. unfold w2, w1. rewrite !trace_emit, <- !app_assoc. reflexivity.
  - match goal with
    | |- exists w' r rest, ?m w1 = _ /\ _ =>
        destruct (run_extends m w1) as (w' & r & rest & Hm & Hrest'); [no_queue|]
    end.
    exists w', r, rest. split; [done|]. split; [|done].
    rewrite Hrest'. unfold w1. rewrite trace_emit, <- app_assoc. reflexivity.
Qed.

Lemma excludeHost_first ctx host status w c :
  (forall t, ctx t = false) ->
  shouldWaitExcludeHost host status w = (w, Ret true) ->
  creator w = Some c ->
  let configMapCommon :=
    CreateConfigMapCHICommon creatorFns (getChi c w) (Some (excludeHostOptions host)) in
  let got := env (OpGetConfigMap (cm_ObjectMeta configMapCommon)) (trace w) in
  exists w' r rest,
    excludeHost ctx host status w = (w', r)
    /\ trace w' = trace w ++ mkEvent (OpGetConfigMap (cm_ObjectMeta configMapCommon)) got :: rest
    /\ (isSome (ansConfigMap got) = true ->
        exists a rest', rest = mkEvent (OpKubeUpdateConfigMap configMapCommon) a :: rest').
Proof.
  intros Hlive Hwait Hc configMapCommon got. unfold excludeHost.
  rewrite bind_IsContextDone, Hlive.
  unfold bind at 1. rewrite Hwait.
  unfold reconcileCHIConfigMaps.
  rewrite bind_bind, bind_IsContextDone, Hlive.
  unfold creatorCHI.
  rewrite bind_bind, (bind_orPanic _ _ w (getChi c w)) by (by rewrite Hc).
  cbv zeta. fold configMapCommon. rewrite bind_bind.
  destruct (reconcileConfigMap_first ctx (hp_CHI host) configMapCommon w Hlive)
    as (w1 & r1 & rest1 & Hrun1 & Htrace1 & Hupd).
  unfold bind at 1. rewrite Hrun1.
  assert (Hext : exists w' r rest2,
             match r1 with
             | Ret a =>
                 (((if negb (isNil a) then ret a
                    else
                      c0 <- creatorCHI ;;
                      (let configMapUsers := CreateConfigMapCHICommonUsers creatorFns c0 in
                       err <- reconcileConfigMap ctx (hp_CHI host) configMapUsers true ;;
                       (if negb (isNil err) then ret err else ret noError))) ;;
                   _ <- waitHostNotInCluster ctx host ;; ret noError) w1)
             | Blocked => (w1, Blocked)
             | Panic => (w1, Panic)
             end = (w', r)
             /\ trace w' = trace w1 ++ rest2).
  { destruct r1 as [err| |];
      [apply run_extends; no_queue | exists w1, Blocked, [] | exists w1, Panic, []];
      by rewrite app_nil_r. }
  destruct Hext as (w' & r & rest2 & Hm & Hrest2).
  exists w', r, (rest1 ++ rest2). split; [exact Hm|]. split.
  - rewrite Hrest2, Htrace1, <- app_assoc. reflexivity.
  - intros Hsome. destruct (Hupd Hsome) as (a & rest' & ->).
    by eexists _, _.
Qed.

(** C2.  When [shouldWaitExcludeHost] is false, [excludeHost] returns nil
    and leaves the world as it is: no ConfigMap is reconciled and nothing
    is polled.  When it is true and the context is not cancelled,
    [excludeHost] is the reconcile of the CHI ConfigMaps with the options
    [ExcludeHost(host)] and [ExcludeReconcileAttributes({Add})] and with
    [update = true], followed by the poll of the host; the poll asks the
    Schemer [IsHostInCluster(host)] again and again, changes no
    installation, and returns nil on the first answer "not in cluster" (it
    is still waiting when the observation ends only if every answer so far
    was "in cluster").  Seen from outside, the first call is the lookup of
    the common ConfigMap the Creator renders with these options, and when
    that ConfigMap exists the next call updates it. *)
Theorem excludeHost_excludes_and_waits (ctx : Context) (host : HostPtr)
    (status : StatefulSetStatus) (w : World) :
  (shouldWaitExcludeHost host status w = (w, Ret false) ->
   excludeHost ctx host status w = (w, Ret noError))
  /\ ((forall t, ctx t = false) ->
      shouldWaitExcludeHost host status w = (w, Ret true) ->
      excludeHost ctx host status w
      = (_ <- reconcileCHIConfigMaps ctx (hp_CHI host)
                (Some (mkGeneratorOptions
                         (Some (mkRemoteServersOptions
                                  (Some host)
                                  (Some (mkAttrs true false false false false))))))
                true ;;
         _ <- waitHostNotInCluster ctx host ;;
         ret noError) w
      /\ forall w1,
           exists w2 r answers,
             waitHostNotInCluster ctx host w1 = (w2, r)
             /\ trace w2 = trace w1 ++ map (mkEvent (OpIsHostInCluster host)) answers
             /\ (forall p, getChi p w2 = getChi p w1)
             /\ PolledUntilExcluded pollFuel r answers)
  /\ ((forall t, ctx t = false) ->
      shouldWaitExcludeHost host status w = (w, Ret true) ->
      forall c, creator w = Some c ->
      let configMapCommon :=
        CreateConfigMapCHICommon creatorFns (getChi c w)
          (Some (mkGeneratorOptions
                   (Some (mkRemoteServersOptions
                            (Some host)
                            (Some (mkAttrs true false false false false)))))) in
      let got := env (OpGetConfigMap (cm_ObjectMeta configMapCommon)) (trace w) in
      exists w' r rest,
        excludeHost ctx host status w = (w', r)
        /\ trace w'
           = trace w ++ mkEvent (OpGetConfigMap (cm_ObjectMeta configMapCommon)) got :: rest
        /\ (isSome (ansConfigMap got) = true ->
            exists a rest', rest = mkEvent (OpKubeUpdateConfigMap configMapCommon) a :: rest')).
Proof.
  split; [|split]; [| |intros Hlive Hwait c Hc; by apply excludeHost_first].
  - intros Hwait. unfold excludeHost.
    unfold bind at 1, IsContextDone, gets.
    destruct (ctx (trace w)); [reflexivity|].
    unfold bind at 1. rewrite Hwait. reflexivity.
  - intros Hlive Hwait. split.
    + unfold excludeHost.
      unfold bind at 1, IsContextDone, gets. rewrite Hlive.
      unfold bind at 1. rewrite Hwait. reflexivity.
    + intros w1. unfold waitHostNotInCluster, pollHostContext.
      by apply pollLoop_notInCluster_live.
Qed.

(** ** Errors of a work item *)

Lemma Returns_ret {A} (P : A -> Prop) a : P a -> Returns P (ret a).
Proof. intros HP w w' b [= _ <-]. exact HP. Qed.

Lemma Returns_panic {A} (P : A -> Prop) : Returns P panic.
Proof. intros w w' b [=]. Qed.

Lemma Returns_bind {A B} (P : B -> Prop) (m : M A) (k : A -> M B) :
  (forall a, Returns P (k a)) -> Returns P (bind m k).
Proof.
  intros Hk w w' b. unfold bind. destruct (m w) as [w1 [a| |]]; [apply Hk | done | done].
Qed.

Ltac returns_nil :=
  repeat first
    [ apply Returns_ret; reflexivity
    | apply Returns_panic
    | apply Returns_bind; intros ?
    | match goal with
      | |- Returns _ (if ?b then _ else _) => destruct b
      | |- Returns _ (match ?x with _ => _ end) => destruct x
      | |- Returns _ (let _ := _ in _) => cbv zeta
      | |- Returns _ ?m => let h := head_of m in progress unfold h
      end ].

Lemma finalizeCHI_returns_nil ctx chi : Returns (fun err => err = noError) (finalizeCHI ctx chi).
Proof. returns_nil. Qed.

Lemma updateCHI_returns_nil ctx old new :
  Returns (fun err => err = noError) (updateCHI ctx old new).
Proof.
  unfold updateCHI. cbv zeta.
  destruct (isUpdate old new && sameResourceVersion old new);
    [apply Returns_ret; reflexivity|].
  destruct new as [newCHI|]; [|apply Returns_panic].
  destruct (negb (DeletionTimestamp_IsZero (chi_ObjectMeta newCHI)));
    [apply finalizeCHI_returns_nil|].
  returns_nil.
Qed.






(** * Further properties of the worker *)

(** ** Reasoning tools *)

Lemma bind_inv {A B} (m : M A) (k : A -> M B) w w' r :
  bind m k w = (w', r) ->
  (exists w1 a, m w = (w1, Ret a) /\ k a w1 = (w', r))
  \/ (m w = (w', Blocked) /\ r = Blocked)
  \/ (m w = (w', Panic) /\ r = Panic).
Proof.
  unfold bind. destruct (m w) as [w1 [a| |]]; intros H.
  - left. by exists w1, a.
  - right; left. by injection H as <- <-.
  - right; right. by injection H as <- <-.
Qed.

Lemma bind_inv_ret {A B} (m : M A) (k : A -> M B) w w' b :
  bind m k w = (w', Ret b) -> exists w1 a, m w = (w1, Ret a) /\ k a w1 = (w', Ret b).
Proof.
  intros H. destruct (bind_inv _ _ _ _ _ H) as [H1 | [[_ [=]] | [_ [=]]]]. exact H1.
Qed.

Lemma Keeps_refl {A} (f : ClickHouseInstallation -> A) w : Keeps f w w.
Proof. by intros p. Qed.

Lemma Keeps_trans {A} (f : ClickHouseInstallation -> A) w1 w2 w3 :
  Keeps f w1 w2 -> Keeps f w2 w3 -> Keeps f w1 w3.
Proof. intros H1 H2 p. by rewrite H2, H1. Qed.

Lemma Keeps_emit {A} (f : ClickHouseInstallation -> A) w e : Keeps f w (emit e w).
Proof. intros []; reflexivity. Qed.

Lemma Keeps_setCreator {A} (f : ClickHouseInstallation -> A) w p : Keeps f w (setCreator p w).
Proof. intros []; reflexivity. Qed.

Lemma Keeps_setChi {A} (f : ClickHouseInstallation -> A) w p c :
  f c = f (getChi p w) -> Keeps f w (setChi p c w).
Proof. intros H q. destruct p, q; simpl; done. Qed.

Ltac keeps_side :=
  first
    [ apply Keeps_refl | apply Keeps_trans | apply Keeps_emit | apply Keeps_setCreator
    | apply Keeps_setChi; reflexivity ].

Create HintDb keeps.

Ltac keeps := repeat (first [ solve [ eauto with keeps ] | step_rules keeps_side ]).

Lemma Step_fst {A} (R : World -> World -> Prop) (m : M A) w : Step R m -> R w (fst (m w)).
Proof. intros H. destruct (m w) as [w' r] eqn:E. eapply H, E. Qed.

(** ** What the helpers leave alone *)

(** The helpers that write neither a status nor an attribute of a host
    change no installation at all. *)
Section KeepsAny.

Context {A : Type} (f : ClickHouseInstallation -> A).

Lemma reconcileService_Keeps ctx chi service : Step (Keeps f) (reconcileService ctx chi service).
Proof. keeps. Qed.

Lemma reconcileConfigMap_Keeps ctx chi configMap update :
  Step (Keeps f) (reconcileConfigMap ctx chi configMap update).
Proof. keeps. Qed.

Lemma reconcileCHIConfigMaps_Keeps ctx chi options update :
  Step (Keeps f) (reconcileCHIConfigMaps ctx chi options update).
Proof. pose proof reconcileConfigMap_Keeps. keeps. Qed.

Lemma reconcileResourceEach_Keeps ctx names pvc desired :
  Step (Keeps f) (reconcileResourceEach ctx pvc desired names).
Proof. revert pvc. induction names as [|n names IH]; intros pvc; simpl; keeps. Qed.

Lemma reconcilePersistentVolumeClaims_Keeps ctx host :
  Step (Keeps f) (reconcilePersistentVolumeClaims ctx host).
Proof. pose proof reconcileResourceEach_Keeps. keeps. Qed.

Lemma reconcilePersistentVolumes_Keeps ctx host :
  Step (Keeps f) (reconcilePersistentVolumes ctx host).
Proof. keeps. Qed.

Lemma getStatefulSetStatus_Keeps statefulSet : Step (Keeps f) (getStatefulSetStatus statefulSet).
Proof. keeps. Qed.

Lemma excludeHost_Keeps ctx host status : Step (Keeps f) (excludeHost ctx host status).
Proof. pose proof reconcileCHIConfigMaps_Keeps. keeps. Qed.

Lemma includeHost_Keeps ctx host status : Step (Keeps f) (includeHost ctx host status).
Proof. pose proof reconcileCHIConfigMaps_Keeps. keeps. Qed.

Lemma deleteTables_Keeps ctx host : Step (Keeps f) (deleteTables ctx host).
Proof. keeps. Qed.

End KeepsAny.

Hint Resolve reconcileService_Keeps reconcileConfigMap_Keeps reconcileCHIConfigMaps_Keeps
  reconcilePersistentVolumeClaims_Keeps reconcilePersistentVolumes_Keeps
  getStatefulSetStatus_Keeps excludeHost_Keeps includeHost_Keeps deleteTables_Keeps : keeps.

Lemma reconcileStatefulSet_Keeps_deleted ctx statefulSet host :
  Step (Keeps deletedHostsCount) (reconcileStatefulSet ctx statefulSet host).
Proof. keeps. Qed.

Lemma reconcileStatefulSet_Keeps_clusters ctx statefulSet host :
  Step (Keeps chi_Clusters) (reconcileStatefulSet ctx statefulSet host).
Proof. keeps. Qed.

Hint Resolve reconcileStatefulSet_Keeps_deleted reconcileStatefulSet_Keeps_clusters : keeps.

Lemma reconcileHost_Keeps_deleted ctx host :
  Step (Keeps deletedHostsCount) (reconcileHost ctx host).
Proof. keeps. Qed.

Hint Resolve reconcileHost_Keeps_deleted : keeps.

Lemma reconcile_Keeps_deleted ctx chi : Step (Keeps deletedHostsCount) (reconcile ctx chi).
Proof. keeps. Qed.

Lemma deleteHost_Keeps_added ctx host :
  Step (Keeps addedAndUpdatedHostsCount) (deleteHost ctx host).
Proof. keeps. Qed.

Lemma deleteHost_Keeps_clusters ctx host : Step (Keeps chi_Clusters) (deleteHost ctx host).
Proof. keeps. Qed.

Hint Resolve deleteHost_Keeps_added deleteHost_Keeps_clusters : keeps.

Lemma deleteShard_Keeps_added ctx shard :
  Step (Keeps addedAndUpdatedHostsCount) (deleteShard ctx shard).
Proof. keeps. Qed.

Lemma deleteShard_Keeps_clusters ctx shard : Step (Keeps chi_Clusters) (deleteShard ctx shard).
Proof. keeps. Qed.

Hint Resolve deleteShard_Keeps_added deleteShard_Keeps_clusters : keeps.

Lemma deleteCluster_Keeps_added ctx cluster :
  Step (Keeps addedAndUpdatedHostsCount) (deleteCluster ctx cluster).
Proof. keeps. Qed.

Lemma deleteCluster_Keeps_clusters ctx cluster :
  Step (Keeps chi_Clusters) (deleteCluster ctx cluster).
Proof. keeps. Qed.

(** X1.  The counters of the status have one writer each.  The reconcile
    walk of an installation, however it ends, leaves [DeletedHostsCount] of
    every installation as it was; the deletion of a cluster, with its
    shards and hosts, leaves [AddedHostsCount] and [UpdatedHostsCount] as
    they were, and changes no cluster, shard or host of any
    installation. *)
Theorem counters_have_one_writer :
  (forall ctx chi w p,
     deletedHostsCount (getChi p (fst (reconcile ctx chi w))) = deletedHostsCount (getChi p w))
  /\ (forall ctx cluster w p,
        addedAndUpdatedHostsCount (getChi p (fst (deleteCluster ctx cluster w)))
        = addedAndUpdatedHostsCount (getChi p w)
        /\ chi_Clusters (getChi p (fst (deleteCluster ctx cluster w)))
           = chi_Clusters (getChi p w)).
Proof.
  split.
  - intros ctx chi w p. apply (Step_fst _ _ w (reconcile_Keeps_deleted ctx chi)).
  - intros ctx cluster w p. split.
    + apply (Step_fst _ _ w (deleteCluster_Keeps_added ctx cluster)).
    + apply (Step_fst _ _ w (deleteCluster_Keeps_clusters ctx cluster)).
Qed.

(** ** Errors that are dropped *)

Lemma excludeHost_returns_nil ctx host status :
  Returns (fun err => err = noError) (excludeHost ctx host status).
Proof. returns_nil. Qed.

Lemma includeHost_returns_nil ctx host status :
  Returns (fun err => err = noError) (includeHost ctx host status).
Proof. returns_nil. Qed.

(** X2.  [excludeHost] and [includeHost] return nil whenever they return:
    the errors of the reconcile of the ConfigMaps and of the poll are
    dropped, so [reconcileHost] never leaves through the error checks that
    follow its calls of them. *)
Theorem exclude_and_include_return_nil (ctx : Context) (host : HostPtr)
    (status : StatefulSetStatus) (w w' : World) (err : Error) :
  excludeHost ctx host status w = (w', Ret err)
  \/ includeHost ctx host status w = (w', Ret err) ->
  err = noError.
Proof.
  intros [H | H].
  - eapply excludeHost_returns_nil, H.
  - eapply includeHost_returns_nil, H.
Qed.

(** ** Whether to wait for the inclusion of a host *)

Lemma shouldWaitIncludeHost_eq host status w sh :
  GetShard host w = Some sh ->
  shouldWaitIncludeHost host status w
  = (w, Ret (negb (isNewOrSame status)
             && negb (HostsCount sh =? 1)
             && (IsReconcilingPolicyWait (getChi (hp_CHI host) w)
                 || negb (IsReconcilingPolicyNoWait (getChi (hp_CHI host) w))
                    && ReconcileWaitInclude config))).
Proof.
  intros Hsh. unfold shouldWaitIncludeHost.
  destruct (isNewOrSame status); [reflexivity|].
  unfold bind at 1, derefShard, orPanic. rewrite Hsh.
  destruct (HostsCount sh =? 1); [reflexivity|].
  unfold bind, readChi, gets.
  destruct (IsReconcilingPolicyWait _); [reflexivity|].
  destruct (IsReconcilingPolicyNoWait _); [reflexivity|].
  destruct (ReconcileWaitInclude config); reflexivity.
Qed.

(** X3.  For a host of a CHI, [shouldWaitIncludeHost] changes nothing, and
    its answer differs from the answer of [shouldWaitExcludeHost] exactly
    when the status is neither New nor Same, the shard has more than one
    host, the CHI names neither the policy Wait nor the policy NoWait, and
    the operator configuration has different values for
    [ReconcileWaitInclude] and [ReconcileWaitExclude].  Its answer is true
    exactly when the status is neither New nor Same, the shard has more
    than one host, and the policy is Wait or, with neither policy named,
    the configuration has [ReconcileWaitInclude]. *)
Theorem shouldWaitIncludeHost_differs (host : HostPtr) (status : StatefulSetStatus)
    (w : World) (h : ChiHost) :
  getHost host w = Some h ->
  exists (sh : ChiShard) (include exclude : bool),
    GetShard host w = Some sh
    /\ shouldWaitIncludeHost host status w = (w, Ret include)
    /\ shouldWaitExcludeHost host status w = (w, Ret exclude)
    /\ (include <> exclude <->
          isNewOrSame status = false
          /\ 1 < HostsCount sh
          /\ chi_ReconcilingPolicy (getChi (hp_CHI host) w) = ReconcilingPolicyUnspecified
          /\ ReconcileWaitInclude config <> ReconcileWaitExclude config)
    /\ (include = true <->
          isNewOrSame status = false
          /\ 1 < HostsCount sh
          /\ (chi_ReconcilingPolicy (getChi (hp_CHI host) w) = ReconcilingPolicyWait
              \/ (chi_ReconcilingPolicy (getChi (hp_CHI host) w) = ReconcilingPolicyUnspecified
                  /\ ReconcileWaitInclude config = true))).
Proof.
  intros Hh. destruct (GetShard_of_host _ _ _ Hh) as (sh & Hsh & Hcount).
  exists sh. eexists _, _. split; [done|].
  split; [by apply shouldWaitIncludeHost_eq|].
  split; [by apply shouldWaitExcludeHost_eq|].
  unfold IsReconcilingPolicyWait, IsReconcilingPolicyNoWait.
  destruct (isNewOrSame status), (Nat.eqb_spec (HostsCount sh) 1) as [E|E],
    (chi_ReconcilingPolicy (getChi (hp_CHI host) w)),
    (ReconcileWaitInclude config), (ReconcileWaitExclude config); simpl;
    (split; [split; [intros Hne | intros (H1 & H2 & H3 & H4)]
            | split; [intros Hne | intros (H1 & H2 & [H3 | [H3 H4]])]]);
    try done; try lia; try (repeat split; first [done | lia | by left | by right]).
Qed.

(** ** The status of a StatefulSet *)

(** X4.  [getStatefulSetStatus] makes one call, the lookup of the
    StatefulSet by its metadata, and changes no installation.  It answers
    Same exactly when the platform has the StatefulSet and both carry the
    version label with the same value; Modified exactly when the platform
    has it, the versions are not the same, and the comparison of the two
    specs reports them equal; New only when the lookup reported not-found.
    A StatefulSet that the platform has, found without an error, with
    another version and another spec, is Unknown. *)
Theorem getStatefulSetStatus_classifies (statefulSet : StatefulSet) (w : World) :
  exists status : StatefulSetStatus,
    getStatefulSetStatus statefulSet w
    = (emit (mkEvent (OpGetStatefulSet (sts_ObjectMeta statefulSet))
                     (env (OpGetStatefulSet (sts_ObjectMeta statefulSet)) (trace w))) w,
       Ret status)
    /\ (status = statefulSetStatusSame <->
          exists cur,
            ansStatefulSet (env (OpGetStatefulSet (sts_ObjectMeta statefulSet)) (trace w))
            = Some cur
            /\ sameVersion cur statefulSet)
    /\ (status = statefulSetStatusModified <->
          exists cur,
            ansStatefulSet (env (OpGetStatefulSet (sts_ObjectMeta statefulSet)) (trace w))
            = Some cur
            /\ ~ sameVersion cur statefulSet
            /\ sts_Spec cur = sts_Spec statefulSet)
    /\ (status = statefulSetStatusNew ->
          IsNotFound (ansErr (env (OpGetStatefulSet (sts_ObjectMeta statefulSet)) (trace w)))
          = true)
    /\ (forall cur,
          ansStatefulSet (env (OpGetStatefulSet (sts_ObjectMeta statefulSet)) (trace w))
          = Some cur ->
          ansErr (env (OpGetStatefulSet (sts_ObjectMeta statefulSet)) (trace w)) = noError ->
          ~ sameVersion cur statefulSet ->
          sts_Spec cur <> sts_Spec statefulSet ->
          status = statefulSetStatusUnknown).
Proof.
  unfold getStatefulSetStatus. rewrite bind_call.
  set (a := env (OpGetStatefulSet (sts_ObjectMeta statefulSet)) (trace w)).
  assert (Hsame : forall cur : StatefulSet,
             match statefulSetVersion cur, statefulSetVersion statefulSet with
             | Some _cur, Some _new => String.eqb _cur _new
             | _, _ => false
             end = true <-> sameVersion cur statefulSet).
  { intros cur. unfold sameVersion.
    destruct (statefulSetVersion cur) as [c|], (statefulSetVersion statefulSet) as [n|];
      try (split; [done | by intros (v & [=] & [=])]).
    rewrite String.eqb_eq. split.
    - intros ->. by exists n.
    - by intros (v & [= ->] & [= ->]). }
  destruct (ansStatefulSet a) as [cur|] eqn:Ecur; cbv zeta.
  - specialize (Hsame cur). unfold statefulSetVersion in Hsame at 1 2.
    destruct (match om_Labels (sts_ObjectMeta cur) !! LabelStatefulSetVersion with
              | Some _ => _ | None => _ end) eqn:Ever.
    { assert (Hs : sameVersion cur statefulSet) by (by apply Hsame).
      exists statefulSetStatusSame. split; [reflexivity|].
      split; [split; [intros _; by exists cur | done]|].
      split; [split; [done | by intros (c & [= <-] & Hn & _)]|].
      split; [done|]. by intros c [= <-] _ Hn. }
    assert (Hnot : ~ sameVersion cur statefulSet).
    { intros Hs. apply Hsame in Hs. done. }
    destruct (String.eqb_spec (sts_Spec cur) (sts_Spec statefulSet)) as [Espec|Espec].
    { exists statefulSetStatusModified. split; [reflexivity|].
      split; [split; [done | by intros (c & [= <-] & Hs)]|].
      split; [split; [intros _; by exists cur | done]|].
      split; [done|]. by intros c [= <-] _ _ Hne. }
    destruct (IsNotFound (ansErr a)) eqn:Enf.
    + exists statefulSetStatusNew. split; [reflexivity|].
      split; [split; [done | by intros (c & [= <-] & Hs)]|].
      split; [split; [done | by intros (c & [= <-] & _ & Hs)]|].
      split; [done|]. intros c _ Herr. by rewrite Herr in Enf.
    + exists statefulSetStatusUnknown. split; [reflexivity|].
      split; [split; [done | by intros (c & [= <-] & Hs)]|].
      split; [split; [done | by intros (c & [= <-] & _ & Hs)]|].
      split; done.
  - destruct (IsNotFound (ansErr a)) eqn:Enf.
    + exists statefulSetStatusNew. split; [reflexivity|].
      split; [split; [done | by intros (c & [=] & _)]|].
      split; [split; [done | by intros (c & [=] & _)]|].
      split; done.
    + exists statefulSetStatusUnknown. split; [reflexivity|].
      split; [split; [done | by intros (c & [=] & _)]|].
      split; [split; [done | by intros (c & [=] & _)]|].
      split; done.
Qed.

Ltac inv_bind H :=
  let w1 := fresh "w" in
  let a := fresh "a" in
  let H1 := fresh "H" in
  apply bind_inv_ret in H; destruct H as (w1 & a & H1 & H).

Lemma getStatefulSetStatus_same statefulSet cur w :
  ansStatefulSet (env (OpGetStatefulSet (sts_ObjectMeta statefulSet)) (trace w)) = Some cur ->
  sameVersion cur statefulSet ->
  getStatefulSetStatus statefulSet w
  = (emit (mkEvent (OpGetStatefulSet (sts_ObjectMeta statefulSet))
                   (env (OpGetStatefulSet (sts_ObjectMeta statefulSet)) (trace w))) w,
     Ret statefulSetStatusSame).
Proof.
  intros Hcur (v & Hc & Hn). unfold getStatefulSetStatus. rewrite bind_call, Hcur.
  unfold statefulSetVersion in Hc, Hn. cbv zeta. rewrite Hc, Hn, String.eqb_refl.
  reflexivity.
Qed.

(** X5.  [reconcileStatefulSet] decides on the StatefulSet the host
    carries, not on the one it was given: when the platform has that
    StatefulSet with the same version label, the lookup is the only call,
    nothing is created or updated and no status changes, whatever the new
    StatefulSet is. *)
Theorem reconcileStatefulSet_skips_same_version (ctx : Context)
    (newStatefulSet cur : StatefulSet) (host : HostPtr) (h : ChiHost) (w : World) :
  ctx (trace w) = false ->
  getHost host w = Some h ->
  ansStatefulSet (env (OpGetStatefulSet (sts_ObjectMeta (host_StatefulSet h))) (trace w))
  = Some cur ->
  sameVersion cur (host_StatefulSet h) ->
  reconcileStatefulSet ctx newStatefulSet host w
  = (emit (mkEvent (OpGetStatefulSet (sts_ObjectMeta (host_StatefulSet h)))
                   (env (OpGetStatefulSet (sts_ObjectMeta (host_StatefulSet h))) (trace w))) w,
     Ret noError).
Proof.
  intros Hlive Hh Hcur Hsame. unfold reconcileStatefulSet.
  rewrite bind_IsContextDone, Hlive. unfold derefHost.
  rewrite (bind_orPanic _ _ _ _ Hh).
  unfold bind at 1. by rewrite (getStatefulSetStatus_same _ _ _ Hcur Hsame).
Qed.

(** ** Failures of the object reconcilers are announced *)

Lemma announce_run chi a w :
  announce chi a w
  = (emit (mkEvent (OpAnnounce (getChi chi w) a) (env (OpAnnounce (getChi chi w) a) (trace w))) w,
     Ret tt).
Proof. reflexivity. Qed.

Lemma failure_announced chi (m : M unit) (err : Error) w1 w' e :
  (m ;; ret err) w1 = (w', Ret (Some e)) ->
  (err = Some e -> m = announce chi reconcileFailed) ->
  lastAnnounced chi reconcileFailed w'.
Proof.
  intros H Hm. inv_bind H. injection H as <- ->. rewrite (Hm eq_refl), announce_run in H0.
  injection H0 as <-. eexists _, _. rewrite getChi_emit. reflexivity.
Qed.

(** X6.  A non-nil error that [reconcileConfigMap], [reconcileService] or
    [reconcileStatefulSet] returns has been announced: the last call
    before the return is the event ReconcileFailed on the CHI, with the
    status action and the status error. *)
Theorem object_reconcilers_announce_failures :
  (forall ctx chi configMap update w w' e,
     reconcileConfigMap ctx chi configMap update w = (w', Ret (Some e)) ->
     lastAnnounced chi reconcileFailed w')
  /\ (forall ctx chi service w w' e,
        reconcileService ctx chi service w = (w', Ret (Some e)) ->
        lastAnnounced chi reconcileFailed w')
  /\ (forall ctx statefulSet host w w' e,
        reconcileStatefulSet ctx statefulSet host w = (w', Ret (Some e)) ->
        lastAnnounced (hp_CHI host) reconcileFailed w').
Proof.
  split; [|split].
  - intros ctx chi configMap update w w' e H.
    unfold reconcileConfigMap in H. rewrite bind_IsContextDone in H.
    destruct (ctx (trace w)); [done|]. rewrite bind_call in H. cbv zeta in H.
    destruct (ansConfigMap _).
    + destruct (negb update); [done|]. inv_bind H. inv_bind H.
      eapply failure_announced; [exact H | by intros ->].
    + inv_bind H. eapply failure_announced; [exact H | by intros ->].
  - intros ctx chi service w w' e H.
    unfold reconcileService in H. rewrite bind_IsContextDone in H.
    destruct (ctx (trace w)); [done|]. rewrite bind_call in H.
    inv_bind H. destruct a as [service' err]. inv_bind H.
    eapply failure_announced; [exact H | by intros ->].
  - intros ctx statefulSet host w w' e H.
    unfold reconcileStatefulSet in H. rewrite bind_IsContextDone in H.
    destruct (ctx (trace w)); [done|]. inv_bind H. inv_bind H.
    destruct a0; try done; rewrite bind_call in H; inv_bind H; inv_bind H;
      (eapply failure_announced; [exact H | by intros ->]).
Qed.

(** ** ConfigMaps *)

Lemma bind_announce {B} chi a (k : unit -> M B) w :
  bind (announce chi a) k w
  = k tt (emit (mkEvent (OpAnnounce (getChi chi w) a)
                        (env (OpAnnounce (getChi chi w) a) (trace w))) w).
Proof. reflexivity. Qed.

Lemma bind_callErr {B} op (k : Error -> M B) w :
  bind (callErr op) k w
  = k (ansErr (env op (trace w))) (emit (mkEvent op (env op (trace w))) w).
Proof. reflexivity. Qed.

(* Run a worker function call by call under a context that is never done. *)
Ltac run_live Hlive :=
  repeat first
    [ rewrite bind_bind | rewrite bind_ret
    | rewrite bind_IsContextDone, Hlive; cbv beta iota
    | rewrite bind_call | rewrite bind_callErr | rewrite bind_announce
    | progress cbn [isNil negb] ].

Ltac never_emits := repeat (first [ solve [ eauto ] | step_rules emits_side ]).

Lemma reconcileService_never_updateConfigMap ctx chi service :
  Step (Emits (never isUpdateConfigMapOp)) (reconcileService ctx chi service).
Proof. never_emits. Qed.

Lemma reconcileConfigMap_createOnly ctx chi configMap :
  Step (Emits (never isUpdateConfigMapOp)) (reconcileConfigMap ctx chi configMap false).
Proof. unfold reconcileConfigMap. cbn [negb]. never_emits. Qed.

Lemma reconcileCHIConfigMaps_createOnly ctx chi options :
  Step (Emits (never isUpdateConfigMapOp)) (reconcileCHIConfigMaps ctx chi options false).
Proof. pose proof reconcileConfigMap_createOnly. never_emits. Qed.

(** X7.  The preliminary step of the reconcile walk creates the ConfigMaps
    of the CHI that are missing and never updates a ConfigMap: whatever the
    platform answers and however the step ends, none of its calls is an
    update of a ConfigMap.  With [update = false], [reconcileConfigMap]
    that finds the ConfigMap makes no call but the lookup and returns
    nil. *)
Theorem preliminary_never_updates_configMaps :
  (forall ctx chi w,
     Emits (never isUpdateConfigMapOp) w (fst (reconcileCHIAuxObjectsPreliminary ctx chi w)))
  /\ (forall ctx chi configMap w,
        ctx (trace w) = false ->
        isSome (ansConfigMap (env (OpGetConfigMap (cm_ObjectMeta configMap)) (trace w))) = true ->
        reconcileConfigMap ctx chi configMap false w
        = (emit (mkEvent (OpGetConfigMap (cm_ObjectMeta configMap))
                         (env (OpGetConfigMap (cm_ObjectMeta configMap)) (trace w))) w,
           Ret noError)).
Proof.
  split.
  - intros ctx chi w. apply Step_fst.
    pose proof reconcileCHIConfigMaps_createOnly.
    pose proof reconcileService_never_updateConfigMap. never_emits.
  - intros ctx chi configMap w Hlive Hsome. unfold reconcileConfigMap.
    rewrite bind_IsContextDone, Hlive, bind_call.
    destruct (ansConfigMap _); [reflexivity | done].
Qed.

(** X8.  What [reconcileConfigMap] does, under a context that is never
    done, when the lookup yields no ConfigMap.  If the lookup reported
    not-found, the ConfigMap is created as given and the error of the
    creation is returned.  Otherwise nothing is created or updated and the
    error of the lookup is returned; a lookup that yields neither a
    ConfigMap nor an error returns nil after the lookup alone.  All other
    calls are announcements. *)
Theorem reconcileConfigMap_without_current (ctx : Context) (chi : ChiPtr)
    (configMap : ConfigMap) (update : bool) (w : World) :
  (forall t, ctx t = false) ->
  ansConfigMap (env (OpGetConfigMap (cm_ObjectMeta configMap)) (trace w)) = None ->
  let got := mkEvent (OpGetConfigMap (cm_ObjectMeta configMap))
                     (env (OpGetConfigMap (cm_ObjectMeta configMap)) (trace w)) in
  (IsNotFound (ansErr (ev_ans got)) = true ->
   exists w' created announcements,
     reconcileConfigMap ctx chi configMap update w = (w', Ret (ansErr created))
     /\ trace w'
        = trace w ++ [got; mkEvent (OpKubeCreateConfigMap configMap) created] ++ announcements
     /\ Forall (fun e => isAnnounceOp (ev_op e) = true) announcements)
  /\ (IsNotFound (ansErr (ev_ans got)) = false ->
      exists w' announcements,
        reconcileConfigMap ctx chi configMap update w = (w', Ret (ansErr (ev_ans got)))
        /\ trace w' = trace w ++ got :: announcements
        /\ Forall (fun e => isAnnounceOp (ev_op e) = true) announcements
        /\ (ansErr (ev_ans got) = noError -> announcements = [])).
Proof.
  intros Hlive Hnone got. unfold reconcileConfigMap.
  rewrite bind_IsContextDone, Hlive, bind_call, Hnone. cbv zeta. subst got. cbn [ev_ans].
  split; intros Hnf; rewrite Hnf.
  - unfold createConfigMap. run_live Hlive.
    match goal with
    | |- context [isNil (ansErr (env (OpKubeCreateConfigMap configMap) ?t))] =>
        destruct (isNil (ansErr (env (OpKubeCreateConfigMap configMap) t))) eqn:Enil
    end;
      run_live Hlive; rewrite ?Enil; run_live Hlive; unfold ret;
      eexists _, _, _; (split; [reflexivity|]); world_simpl; rewrite <- !app_assoc;
      (split; [reflexivity | by repeat constructor]).
  - run_live Hlive.
    destruct (isNil (ansErr (env (OpGetConfigMap (cm_ObjectMeta configMap)) (trace w))))
      eqn:Enil; run_live Hlive; unfold ret.
    + eexists _, []. split; [reflexivity|]. world_simpl. by repeat split.
    + eexists _, [_]. split; [reflexivity|]. world_simpl. rewrite <- !app_assoc.
      split; [reflexivity|]. split; [by repeat constructor|].
      intros Herr. by rewrite Herr in Enil.
Qed.

(** ** Services *)

(** X9.  What [reconcileService] does, under a context that is never done,
    when the platform has the Service.  The Service is updated with the
    new Service as [updateService] prepares it.  If the update succeeds
    nothing else is called but the announcement, and nil is returned.  If
    it fails the Service is deleted and created again, and what is
    submitted for creation is the prepared Service, with the resource
    version and the cluster IP of the Service that was found: the caller's
    Service was changed in place.  The error of the creation is
    returned. *)
Theorem reconcileService_with_current (ctx : Context) (chi : ChiPtr)
    (service cur : Service) (w : World) :
  (forall t, ctx t = false) ->
  let got := mkEvent (OpGetService (svc_ObjectMeta service))
                     (env (OpGetService (svc_ObjectMeta service)) (trace w)) in
  ansService (ev_ans got) = Some cur ->
  let submitted := updateService_prepare cur service in
  let updated := mkEvent (OpKubeUpdateService submitted)
                         (env (OpKubeUpdateService submitted) (trace w ++ [got])) in
  (ansErr (ev_ans updated) = noError ->
   exists w' announced,
     reconcileService ctx chi service w = (w', Ret noError)
     /\ trace w' = trace w ++ [got; updated; announced]
     /\ isAnnounceOp (ev_op announced) = true)
  /\ (ansErr (ev_ans updated) <> noError ->
      exists w' failed deleted created announcements,
        reconcileService ctx chi service w = (w', Ret (ansErr created))
        /\ trace w'
           = trace w
             ++ [got; updated; failed;
                 mkEvent (OpDeleteServiceIfExists (om_Namespace (svc_ObjectMeta service))
                            (om_Name (svc_ObjectMeta service))) deleted;
                 mkEvent (OpKubeCreateService submitted) created]
             ++ announcements
        /\ isAnnounceOp (ev_op failed) = true
        /\ Forall (fun e => isAnnounceOp (ev_op e) = true) announcements
        /\ om_ResourceVersion (svc_ObjectMeta submitted)
           = om_ResourceVersion (svc_ObjectMeta cur)
        /\ spec_ClusterIP (svc_Spec submitted) = spec_ClusterIP (svc_Spec cur)).
Proof.
  intros Hlive got Hcur submitted updated. subst got updated. cbn [ev_ans ev_op] in *.
  unfold reconcileService.
  rewrite bind_IsContextDone, Hlive, bind_call, Hcur.
  unfold updateService. run_live Hlive. fold submitted. world_simpl.
  split; intros Herr.
  - rewrite Herr. run_live Hlive. cbn [isNil negb]. run_live Hlive. unfold ret.
    eexists _, _. split; [reflexivity|]. world_simpl. rewrite <- !app_assoc.
    split; [reflexivity | reflexivity].
  - destruct (ansErr (env (OpKubeUpdateService submitted) _)) as [e|] eqn:E; [|done].
    run_live Hlive. cbn [isNil negb]. run_live Hlive. unfold createService. run_live Hlive.
    match goal with
    | |- context [isNil (ansErr (env (OpKubeCreateService submitted) ?t))] =>
        destruct (isNil (ansErr (env (OpKubeCreateService submitted) t))) eqn:Enil
    end;
      run_live Hlive; rewrite ?Enil; cbn [negb]; run_live Hlive; unfold ret;
      eexists _, _, _, _, _; (split; [reflexivity|]); world_simpl; rewrite <- !app_assoc;
      (split; [reflexivity|]); (split; [reflexivity|]);
      (split; [by repeat constructor | by split]).
Qed.

(** X10.  What [reconcileService] does, under a context that is never
    done, when the lookup yields no Service.  With any error of the
    lookup, not-found or another, the Service is deleted if it exists and
    then created as given, and the error of the creation is returned.  A
    lookup that yields neither a Service nor an error returns nil after the
    lookup alone. *)
Theorem reconcileService_without_current (ctx : Context) (chi : ChiPtr)
    (service : Service) (w : World) :
  (forall t, ctx t = false) ->
  let got := mkEvent (OpGetService (svc_ObjectMeta service))
                     (env (OpGetService (svc_ObjectMeta service)) (trace w)) in
  ansService (ev_ans got) = None ->
  (ansErr (ev_ans got) <> noError ->
   exists w' deleted created announcements,
     reconcileService ctx chi service w = (w', Ret (ansErr created))
     /\ trace w'
        = trace w
          ++ [got;
              mkEvent (OpDeleteServiceIfExists (om_Namespace (svc_ObjectMeta service))
                         (om_Name (svc_ObjectMeta service))) deleted;
              mkEvent (OpKubeCreateService service) created]
          ++ announcements
     /\ Forall (fun e => isAnnounceOp (ev_op e) = true) announcements)
  /\ (ansErr (ev_ans got) = noError ->
      reconcileService ctx chi service w = (emit got w, Ret noError)).
Proof.
  intros Hlive got Hnone. subst got. cbn [ev_ans ev_op] in *. unfold reconcileService.
  rewrite bind_IsContextDone, Hlive, bind_call, Hnone.
  run_live Hlive. split; intros Herr.
  - destruct (ansErr (env (OpGetService (svc_ObjectMeta service)) (trace w))) as [e|] eqn:E;
      [|done].
    run_live Hlive. cbn [isNil negb]. run_live Hlive. unfold createService. run_live Hlive.
    match goal with
    | |- context [isNil (ansErr (env (OpKubeCreateService service) ?t))] =>
        destruct (isNil (ansErr (env (OpKubeCreateService service) t))) eqn:Enil
    end;
      run_live Hlive; rewrite ?Enil; cbn [negb]; run_live Hlive; unfold ret;
      eexists _, _, _, _; (split; [reflexivity|]); world_simpl; rewrite <- !app_assoc;
      (split; [reflexivity | by repeat constructor]).
  - rewrite Herr. reflexivity.
Qed.

(** ** The reconcile of a host *)

Lemma lookupHost_alterHost c ci si ri f :
  lookupHost (chi_alterHost ci si ri f c) ci si ri = f <$> lookupHost c ci si ri.
Proof.
  unfold lookupHost, lookupShard, lookupCluster, chi_alterHost. cbn [chi_setClusters chi_Clusters].
  rewrite list_lookup_alter_eq. destruct (chi_Clusters c !! ci) as [cl|]; [|reflexivity].
  cbn [fmap option_fmap option_map cluster_alterHost cluster_Shards].
  rewrite list_lookup_alter_eq. destruct (cluster_Shards cl !! si) as [sh|]; [|reflexivity].
  cbn [fmap option_fmap option_map shard_alterHost shard_Hosts].
  by rewrite list_lookup_alter_eq.
Qed.

Lemma lookupHost_alterHost_ne c ci si ri f ci' si' ri' :
  (ci', si', ri') <> (ci, si, ri) ->
  lookupHost (chi_alterHost ci si ri f c) ci' si' ri' = lookupHost c ci' si' ri'.
Proof.
  intros Hne.
  unfold lookupHost, lookupShard, lookupCluster, chi_alterHost. cbn [chi_setClusters chi_Clusters].
  destruct (decide (ci' = ci)) as [->|Hci]; [|by rewrite list_lookup_alter_ne].
  rewrite list_lookup_alter_eq. destruct (chi_Clusters c !! ci) as [cl|]; [|reflexivity].
  cbn [fmap option_fmap option_map cluster_alterHost cluster_Shards].
  destruct (decide (si' = si)) as [->|Hsi]; [|by rewrite list_lookup_alter_ne].
  rewrite list_lookup_alter_eq. destruct (cluster_Shards cl !! si) as [sh|]; [|reflexivity].
  cbn [fmap option_fmap option_map shard_alterHost shard_Hosts].
  rewrite list_lookup_alter_ne; [reflexivity|]. intros ->. by apply Hne.
Qed.

(** The host behind a pointer after a write through a pointer. *)
Lemma getHost_updateHostAttrs host f w :
  getHost host (setChi (hp_CHI host)
                  (chi_alterHost (hp_Cluster host) (hp_Shard host) (hp_Replica host)
                     (host_setAttrs f) (getChi (hp_CHI host) w)) w)
  = host_setAttrs f <$> getHost host w.
Proof. unfold getHost. by rewrite getChi_setChi, lookupHost_alterHost. Qed.

Lemma getHost_updateHostAttrs_ne host other f w :
  other <> host ->
  getHost other (setChi (hp_CHI host)
                   (chi_alterHost (hp_Cluster host) (hp_Shard host) (hp_Replica host)
                      (host_setAttrs f) (getChi (hp_CHI host) w)) w)
  = getHost other w.
Proof.
  intros Hne. unfold getHost.
  assert (Hdec : hp_CHI other = hp_CHI host \/ hp_CHI other <> hp_CHI host).
  { destruct (hp_CHI other), (hp_CHI host); (by left) || (by right). }
  destruct Hdec as [E|E].
  - rewrite E, getChi_setChi. apply lookupHost_alterHost_ne.
    intros [= E1 E2 E3]. apply Hne. destruct other, host. simpl in *. congruence.
  - by rewrite getChi_setChi_ne.
Qed.

Lemma getHost_Keeps host w w' : Keeps chi_Clusters w w' -> getHost host w' = getHost host w.
Proof.
  intros H. unfold getHost, lookupHost, lookupShard, lookupCluster. by rewrite H.
Qed.

Lemma getHost_emit host e w : getHost host (emit e w) = getHost host w.
Proof. unfold getHost. by rewrite getChi_emit. Qed.

Lemma Step_reconcileResourceEach (R : World -> World -> Prop) ctx desired names :
  (forall w, R w w) ->
  (forall w1 w2 w3, R w1 w2 -> R w2 w3 -> R w1 w3) ->
  (forall pvc name, Step R (reconcileResource ctx pvc desired name)) ->
  forall pvc, Step R (reconcileResourceEach ctx pvc desired names).
Proof.
  intros Hrefl Htrans Hone. induction names as [|n names IH]; intros pvc; simpl.
  - by apply Step_ret.
  - apply Step_bind; [exact Htrans | apply Hone | apply IH].
Qed.

(* Every call of a worker function, down to the calls that leave the worker. *)
Ltac steps side :=
  repeat first
    [ apply Step_reconcileResourceEach; [ intros ?; side | side | intros ? ? ]
    | step_rules side ].

Ltac emits := steps emits_side.

Lemma hostUntouched_refl w : hostUntouched w w.
Proof. split; [apply Emits_refl | apply Keeps_refl]. Qed.

Lemma hostUntouched_trans w1 w2 w3 :
  hostUntouched w1 w2 -> hostUntouched w2 w3 -> hostUntouched w1 w3.
Proof.
  intros [E1 K1] [E2 K2]. split; [by eapply Emits_trans | by eapply Keeps_trans].
Qed.

Lemma hostUntouched_emit w op a :
  isCreateTablesOp op = false -> hostUntouched w (emit (mkEvent op a) w).
Proof. intros H. split; [by apply Emits_emit | apply Keeps_emit]. Qed.

Lemma hostUntouched_status w p g :
  hostUntouched w (setChi p (chi_setStatus g (getChi p w)) w).
Proof. split; [apply Emits_setChi | by apply Keeps_setChi]. Qed.

Ltac untouched_side :=
  first
    [ apply hostUntouched_refl | apply hostUntouched_trans
    | apply hostUntouched_emit; reflexivity | apply hostUntouched_status ].

Lemma bind_Step {A B} (R : World -> World -> Prop) (m : M A) (k : A -> M B) w0 w w' r :
  (forall w1 w2 w3, R w1 w2 -> R w2 w3 -> R w1 w3) ->
  R w0 w -> Step R m -> bind m k w = (w', r) ->
  (exists w1 a, R w0 w1 /\ k a w1 = (w', r)) \/ (R w0 w' /\ forall b, r <> Ret b).
Proof.
  intros Htrans HR Hm H.
  destruct (bind_inv _ _ _ _ _ H) as [(w1 & a & H1 & H2) | [[H1 ->] | [H1 ->]]].
  - left. exists w1, a. split; [|exact H2]. eapply Htrans; [exact HR | eapply Hm, H1].
  - right. split; [|done]. eapply Htrans; [exact HR | eapply Hm, H1].
  - right. split; [|done]. eapply Htrans; [exact HR | eapply Hm, H1].
Qed.

(* One call further into a run [H] of a function, with [HR] relating the
   world at the start to the world reached so far. *)
Ltac through R Rtrans side H HR :=
  let w1 := fresh "w" in
  let a := fresh "a" in
  let HR1 := fresh "HR" in
  let Hr := fresh "Hr" in
  eapply (bind_Step R) in H; [ | exact Rtrans | exact HR | solve [steps side] ];
  destruct H as [(w1 & a & HR1 & H) | [HR1 Hr]];
  [ clear HR; rename HR1 into HR | ].

Ltac next_untouched H HR :=
  through hostUntouched hostUntouched_trans untouched_side H HR;
  [ | left; split; [assumption | auto] ].

(* The error check after a call: the run ends with the error, or goes on. *)
Ltac error_check H HR :=
  match type of H with
  | (if negb (isNil ?err) then _ else _) _ = _ =>
      destruct err; cbn [isNil negb] in H;
      [ injection H as <- <-; left; split; [exact HR | done] | ]
  end.

(** A run of [reconcileHost] that was entered with a live context either
    ends while the objects of the host are reconciled, without nil, or
    goes on to [reconcileHost_complete]; up to there no table is created
    and no host is changed. *)
Lemma reconcileHost_reaches_complete ctx host w w' r :
  ctx (trace w) = false ->
  reconcileHost ctx host w = (w', r) ->
  (hostUntouched w w' /\ r <> Ret noError)
  \/ exists w1 status,
       hostUntouched w w1 /\ reconcileHost_complete ctx host status w1 = (w', r).
Proof.
  intros Hlive H. unfold reconcileHost in H. rewrite bind_IsContextDone, Hlive in H.
  pose proof (hostUntouched_refl w) as HR.
  do 4 next_untouched H HR.
  next_untouched H HR. error_check H HR.
  next_untouched H HR. error_check H HR.
  next_untouched H HR. error_check H HR.
  next_untouched H HR. next_untouched H HR. error_check H HR.
  right. eexists _, _. split; [exact HR | exact H].
Qed.

Lemma reconcileHost_complete_no_tables ctx host status h w w' r :
  getHost host w = Some h ->
  IsMigrate (host_ReconcileAttributes h) = false ->
  reconcileHost_complete ctx host status w = (w', r) ->
  Emits (never isCreateTablesOp) w w'.
Proof.
  intros Hh Hmigrate H. unfold reconcileHost_complete in H.
  unfold updateHostAttrs at 1, updateChi at 1 in H.
  unfold bind at 1, modify at 1 in H. unfold derefHost in H.
  rewrite (bind_orPanic _ _ _ (host_setAttrs UnsetAdd h)) in H;
    [|by rewrite getHost_updateHostAttrs, Hh].
  cbn [host_setAttrs host_ReconcileAttributes UnsetAdd IsMigrate attr_migrate] in H.
  unfold IsMigrate in Hmigrate. rewrite Hmigrate in H.
  set (w2 := setChi (hp_CHI host) _ w) in H.
  apply (Emits_trans _ w w2); [apply Emits_setChi|]. clearbody w2.
  assert (Hrest : Step (Emits (never isCreateTablesOp))
                    (ret tt ;;
                     err <- includeHost ctx host status ;;
                     if negb (isNil err) then ret err
                     else
                       updateHostAttrs host SetReconciled ;;
                       announce (hp_CHI host)
                         (WithStatusAction
                            (WithEvent eventActionReconcile eventReasonReconcileCompleted)) ;;
                       ret noError)) by emits.
  eapply Hrest, H.
Qed.

(** X11.  [reconcileHost] creates tables on a host only if the host is
    marked Migrate: for a host that is not, no call of a reconcile of the
    host, however it ends, is [HostCreateTables]. *)
Theorem reconcileHost_creates_tables_on_migrate_only (ctx : Context) (host : HostPtr)
    (h : ChiHost) (w : World) :
  getHost host w = Some h ->
  IsMigrate (host_ReconcileAttributes h) = false ->
  Emits (never isCreateTablesOp) w (fst (reconcileHost ctx host w)).
Proof.
  intros Hh Hmigrate. destruct (reconcileHost ctx host w) as [w' r] eqn:H. cbn [fst].
  destruct (ctx (trace w)) eqn:Hlive.
  - unfold reconcileHost in H. rewrite bind_IsContextDone, Hlive in H.
    injection H as <- _. apply Emits_refl.
  - destruct (reconcileHost_reaches_complete _ _ _ _ _ Hlive H)
      as [[[He _] _] | (w1 & status & [He Hk] & Hc)]; [exact He|].
    eapply Emits_trans; [exact He|].
    eapply reconcileHost_complete_no_tables; [|exact Hmigrate|exact Hc].
    by rewrite (getHost_Keeps _ _ _ Hk).
Qed.

Lemma reconcileHost_complete_returns ctx host status h w w' err :
  getHost host w = Some h ->
  reconcileHost_complete ctx host status w = (w', Ret err) ->
  err = noError
  /\ getHost host w' = Some (host_setAttrs SetReconciled (host_setAttrs UnsetAdd h))
  /\ forall other, other <> host -> getHost other w' = getHost other w.
Proof.
  intros Hh H. unfold reconcileHost_complete in H.
  unfold updateHostAttrs at 1, updateChi at 1 in H.
  unfold bind at 1, modify at 1 in H. unfold derefHost in H.
  rewrite (bind_orPanic _ _ _ (host_setAttrs UnsetAdd h)) in H;
    [|by rewrite getHost_updateHostAttrs, Hh].
  set (w2 := setChi (hp_CHI host) _ w) in H.
  assert (H2 : getHost host w2 = Some (host_setAttrs UnsetAdd h)).
  { subst w2. by rewrite getHost_updateHostAttrs, Hh. }
  assert (H2' : forall other, other <> host -> getHost other w2 = getHost other w).
  { intros other Hne. subst w2. by apply getHost_updateHostAttrs_ne. }
  clearbody w2.
  pose proof (Keeps_refl chi_Clusters w2) as HR.
  through (Keeps chi_Clusters) (Keeps_trans chi_Clusters) keeps_side H HR;
    [|match goal with Hr : forall b, _ <> Ret b |- _ => by destruct (Hr err) end].
  apply bind_inv_ret in H. destruct H as (w3 & err' & Hinc & H).
  pose proof (includeHost_returns_nil _ _ _ _ _ _ Hinc) as ->. cbn [isNil negb noError] in H.
  pose proof (includeHost_Keeps chi_Clusters _ _ _ _ _ _ Hinc) as HR2.
  unfold updateHostAttrs, updateChi in H. unfold bind at 1, modify in H.
  rewrite bind_announce in H. injection H as <- <-.
  split; [reflexivity|].
  assert (Hk : Keeps chi_Clusters w2 w3) by (by eapply Keeps_trans).
  split.
  - rewrite getHost_emit, getHost_updateHostAttrs, (getHost_Keeps _ _ _ Hk), H2. reflexivity.
  - intros other Hne.
    rewrite getHost_emit, getHost_updateHostAttrs_ne, (getHost_Keeps _ _ _ Hk) by done.
    by apply H2'.
Qed.

Lemma reconcileHost_complete_returns_nil ctx host status :
  Returns (fun err => err = noError) (reconcileHost_complete ctx host status).
Proof.
  intros w w' err H. unfold reconcileHost_complete in H.
  do 4 inv_bind H.
  pose proof (includeHost_returns_nil _ _ _ _ _ _ H3) as ->. cbn [isNil negb noError] in H.
  do 2 inv_bind H. by injection H as _ <-.
Qed.

(** X12.  A reconcile of a host that was entered with a live context and
    returns nil has completed: the host has lost the mark Add and carries
    the mark Reconciled, its other marks and fields are as they were, and
    no other host of any installation has changed. *)
Theorem reconcileHost_marks_reconciled (ctx : Context) (host : HostPtr) (h : ChiHost)
    (w w' : World) :
  ctx (trace w) = false ->
  getHost host w = Some h ->
  reconcileHost ctx host w = (w', Ret noError) ->
  getHost host w' = Some (host_setAttrs (fun a => SetReconciled (UnsetAdd a)) h)
  /\ forall other, other <> host -> getHost other w' = getHost other w.
Proof.
  intros Hlive Hh H.
  destruct (reconcileHost_reaches_complete _ _ _ _ _ Hlive H)
    as [[_ Hne] | (w1 & status & [_ Hk] & Hc)]; [done|].
  assert (Hh1 : getHost host w1 = Some h) by (by rewrite (getHost_Keeps _ _ _ Hk)).
  destruct (reconcileHost_complete_returns _ _ _ _ _ _ _ Hh1 Hc) as (_ & Hhost & Hother).
  split; [exact Hhost|]. intros other Hne.
  by rewrite (Hother _ Hne), (getHost_Keeps _ _ _ Hk).
Qed.

(** X13.  A reconcile of a host that returns an error has marked nothing:
    every cluster, shard and host of every installation, with its marks,
    is as it was; in particular the host still carries Add if it did and
    has not become Reconciled. *)
Theorem reconcileHost_failure_marks_nothing (ctx : Context) (host : HostPtr)
    (w w' : World) (e : ErrKind) :
  reconcileHost ctx host w = (w', Ret (Some e)) ->
  (forall p, chi_Clusters (getChi p w') = chi_Clusters (getChi p w))
  /\ forall other, getHost other w' = getHost other w.
Proof.
  intros H.
  assert (Hk : Keeps chi_Clusters w w').
  { destruct (ctx (trace w)) eqn:Hlive.
    - unfold reconcileHost in H. by rewrite bind_IsContextDone, Hlive in H.
    - destruct (reconcileHost_reaches_complete _ _ _ _ _ Hlive H)
        as [[[_ Hk] _] | (w1 & status & _ & Hc)]; [exact Hk|].
      by pose proof (reconcileHost_complete_returns_nil _ _ _ _ _ _ Hc). }
  split; [exact Hk|]. intros other. by apply getHost_Keeps.
Qed.

(** ** Deletion *)

Lemma deleteTables_only ctx host : Step (Emits (only isDeleteTablesStep)) (deleteTables ctx host).
Proof. emits. Qed.

Lemma Keeps_id w w' p : Keeps (fun c => c) w w' -> getChi p w' = getChi p w.
Proof. intros H. apply H. Qed.

Lemma bind_updateChi {B} p f (k : unit -> M B) w :
  bind (updateChi p f) k w = k tt (setChi p (f (getChi p w)) w).
Proof. reflexivity. Qed.

Lemma bind_updateCHIObjectStatus {B} p tolerateAbsence (k : Error -> M B) w :
  bind (updateCHIObjectStatus p tolerateAbsence) k w
  = k (ansErr (env (OpUpdateCHIObjectStatus (getChi p w) tolerateAbsence) (trace w)))
      (emit (mkEvent (OpUpdateCHIObjectStatus (getChi p w) tolerateAbsence)
                     (env (OpUpdateCHIObjectStatus (getChi p w) tolerateAbsence) (trace w))) w).
Proof. reflexivity. Qed.

(** X14.  When the lookup of the StatefulSet of a host fails, [deleteHost]
    deletes nothing: it announces the start, looks the StatefulSet up,
    announces the completion and returns nil; no installation changes, so
    no deleted host is counted. *)
Theorem deleteHost_without_statefulSet (ctx : Context) (host : HostPtr) (w : World) :
  ctx (trace w) = false ->
  let chi := getChi (hp_CHI host) w in
  let started := mkEvent (OpAnnounce chi deleteStarted)
                         (env (OpAnnounce chi deleteStarted) (trace w)) in
  let got := mkEvent (OpGetStatefulSetByHost host)
                     (env (OpGetStatefulSetByHost host) (trace w ++ [started])) in
  ansErr (ev_ans got) <> noError ->
  exists w' completed,
    deleteHost ctx host w = (w', Ret noError)
    /\ trace w' = trace w ++ [started; got; mkEvent (OpAnnounce chi deleteCompleted) completed]
    /\ forall p, getChi p w' = getChi p w.
Proof.
  intros Hlive chi started got Herr. subst got started chi. cbn [ev_ans] in Herr.
  unfold deleteHost. rewrite bind_IsContextDone, Hlive, bind_announce, bind_call.
  world_simpl.
  destruct (ansErr (env (OpGetStatefulSetByHost host) _)) as [e|]; [|done].
  cbn [isNil negb]. rewrite bind_announce. unfold ret.
  eexists _, _. split; [reflexivity|]. world_simpl. rewrite <- !app_assoc.
  split; [reflexivity|]. intros p. by world_simpl.
Qed.

(** X15.  When the StatefulSet of the host is found, a [deleteHost] that
    returns has asked the controller to delete the host, has incremented
    [DeletedHostsCount] of the host's CHI (by one, as Go's [++] does)
    whether or not that deletion failed, and has attempted a status update
    that tolerates the absence of the CHI.  It returns the error of the
    controller's deletion: the error of [deleteTables], whose calls come
    first, is dropped. *)
Theorem deleteHost_counts_and_returns (ctx : Context) (host : HostPtr) (w w' : World)
    (err : Error) :
  ctx (trace w) = false ->
  let chi := getChi (hp_CHI host) w in
  let started := mkEvent (OpAnnounce chi deleteStarted)
                         (env (OpAnnounce chi deleteStarted) (trace w)) in
  let got := mkEvent (OpGetStatefulSetByHost host)
                     (env (OpGetStatefulSetByHost host) (trace w ++ [started])) in
  ansErr (ev_ans got) = noError ->
  deleteHost ctx host w = (w', Ret err) ->
  let chi' := chi_setStatus incrDeletedHostsCount chi in
  exists tables deleted updated announced,
    trace w'
    = trace w ++ [started; got] ++ tables
      ++ [mkEvent (OpDeleteHost host) deleted;
          mkEvent (OpUpdateCHIObjectStatus chi' true) updated;
          mkEvent (OpAnnounce chi' (if isNil err then deleteCompleted else deleteFailed))
                  announced]
    /\ Forall (fun e => isDeleteTablesStep (ev_op e) = true) tables
    /\ err = ansErr deleted
    /\ getChi (hp_CHI host) w' = chi'
    /\ st_DeletedHostsCount (chi_Status (getChi (hp_CHI host) w'))
       = int_incr (st_DeletedHostsCount (chi_Status chi)).
Proof.
  intros Hlive chi started got Herr H chi'. subst got started chi' chi.
  cbn [ev_ans] in Herr. unfold deleteStarted, deleteCompleted, deleteFailed in *.
  unfold deleteHost in H.
  rewrite bind_IsContextDone, Hlive, bind_announce, bind_call in H.
  rewrite trace_emit, Herr in H. cbn [isNil negb noError] in H.
  inv_bind H.
  destruct (deleteTables_only _ _ _ _ _ H0) as (tables & Htables & Honly).
  pose proof (Keeps_id _ _ (hp_CHI host) (deleteTables_Keeps (fun c => c) _ _ _ _ _ H0)) as Hchi.
  rewrite !getChi_emit in Hchi. rewrite !trace_emit in Htables.
  rewrite bind_callErr, bind_updateChi, bind_updateCHIObjectStatus in H.
  rewrite !getChi_setChi, !getChi_emit, Hchi in H.
  match type of H with
  | context [isNil (ansErr (env (OpDeleteHost host) ?t))] =>
      destruct (isNil (ansErr (env (OpDeleteHost host) t))) eqn:Enil
  end;
    rewrite bind_announce in H; injection H as <- <-; rewrite Enil;
    eexists tables, _, _, _; world_simpl; rewrite Htables, <- !app_assoc;
    (split; [reflexivity|]); (split; [exact Honly|]); (split; [reflexivity|]);
    split; reflexivity.
Qed.

Lemma bind_announceCHI {B} c a (k : unit -> M B) w :
  bind (announceCHI c a) k w
  = k tt (emit (mkEvent (OpAnnounce c a) (env (OpAnnounce c a) (trace w))) w).
Proof. reflexivity. Qed.

(* The run [H] returned an error although its function returns nil only. *)
Ltac returned_nil H :=
  match type of H with
  | ?m ?w = (_, Ret (Some ?e)) =>
      let Hr := fresh "Hr" in
      assert (Hr : Returns (fun err => err = noError) m) by returns_nil;
      by pose proof (Hr _ _ _ H)
  end.

Lemma deleteCHI_error ctx chi w w' e :
  deleteCHI ctx chi w = (w', Ret (Some e)) ->
  exists c c' started failed,
    chi = Some c
    /\ CreateTemplatedCHI normalizer c true = (c', Some e)
    /\ trace w' = trace w ++ [mkEvent (OpAnnounce c deleteStarted) started;
                              mkEvent (OpAnnounce c' deleteFailed) failed]
    /\ forall p, getChi p w' = getChi p w.
Proof.
  intros H. unfold deleteCHI in H. rewrite bind_IsContextDone in H.
  destruct (ctx (trace w)); [done|]. destruct chi as [c|]; [|done].
  rewrite bind_announceCHI in H.
  destruct (CreateTemplatedCHI normalizer c true) as [c' [e'|]] eqn:Enorm;
    cbn [isNil negb] in H.
  - rewrite bind_announceCHI in H. injection H as <- <-.
    eexists c, c', _, _. split; [reflexivity|]. split; [exact Enorm|].
    world_simpl. rewrite <- !app_assoc. split; [reflexivity|]. intros p. by world_simpl.
  - returned_nil H.
Qed.

(** X16.  [deleteCHI] returns an error only when the CHI cannot be
    normalized, and then it has deleted nothing: it has announced the start
    and the failure, and no installation and no monitoring has changed.
    Whatever else fails during the deletion of the clusters, ConfigMaps and
    Service of the CHI is dropped; [deleteCluster] and [deleteShard] return
    nil whenever they return. *)
Theorem deleteCHI_fails_only_on_normalization :
  (forall ctx chi w w' e,
     deleteCHI ctx chi w = (w', Ret (Some e)) ->
     exists c c' started failed,
       chi = Some c
       /\ CreateTemplatedCHI normalizer c true = (c', Some e)
       /\ trace w' = trace w ++ [mkEvent (OpAnnounce c deleteStarted) started;
                                 mkEvent (OpAnnounce c' deleteFailed) failed]
       /\ forall p, getChi p w' = getChi p w)
  /\ (forall ctx cluster w w' err, deleteCluster ctx cluster w = (w', Ret err) -> err = noError)
  /\ (forall ctx shard w w' err, deleteShard ctx shard w = (w', Ret err) -> err = noError).
Proof.
  split; [|split].
  - intros ctx chi w w' e. apply deleteCHI_error.
  - intros ctx cluster w w' err H.
    assert (Hr : Returns (fun err => err = noError) (deleteCluster ctx cluster)) by returns_nil.
    eapply Hr, H.
  - intros ctx shard w w' err H.
    assert (Hr : Returns (fun err => err = noError) (deleteShard ctx shard)) by returns_nil.
    eapply Hr, H.
Qed.

(** ** Finalization *)

(** X17.  The guards of [finalizeCHI], entered with a live context.  When
    the CHI cannot be fetched (an error, or nil), or when it does not carry
    the finalizer, the lookup is the only call and nil is returned: nothing
    is deleted.  When the status Terminating cannot be written, the write
    is the last call: nothing is deleted and the finalizer stays.
    Otherwise the CHI is deleted, and when [deleteCHI] returns, with nil or
    with an error, the finalizer is uninstalled from the CHI as the last
    call, and nil is returned. *)
Theorem finalizeCHI_guards (ctx : Context) (chi : ClickHouseInstallation) (w : World) :
  ctx (trace w) = false ->
  let got := mkEvent (OpGetCHI (om_Namespace (chi_ObjectMeta chi)) (om_Name (chi_ObjectMeta chi)))
                     (env (OpGetCHI (om_Namespace (chi_ObjectMeta chi))
                             (om_Name (chi_ObjectMeta chi))) (trace w)) in
  let terminating := chi_setStatus DeleteStart chi in
  let written := mkEvent (OpUpdateCHIObjectStatus terminating true)
                         (env (OpUpdateCHIObjectStatus terminating true) (trace w ++ [got])) in
  let fetched :=
    ansErr (ev_ans got) = noError /\ is_Some (ansCHI (ev_ans got))
    /\ InArray FinalizerName (om_Finalizers (chi_ObjectMeta chi)) = true in
  (~ fetched -> finalizeCHI ctx chi w = (emit got w, Ret noError))
  /\ (fetched -> ansErr (ev_ans written) <> noError ->
      finalizeCHI ctx chi w = (emit written (emit got w), Ret noError))
  /\ (fetched -> ansErr (ev_ans written) = noError ->
      forall w' err,
        finalizeCHI ctx chi w = (w', Ret err) ->
        err = noError
        /\ exists deletion uninstalled,
             trace w'
             = trace w ++ [got; written] ++ deletion
               ++ [mkEvent (OpUninstallFinalizer terminating) uninstalled]).
Proof.
  intros Hlive got terminating written fetched. subst fetched written got.
  cbn [ev_ans]. unfold finalizeCHI. rewrite bind_IsContextDone, Hlive, bind_call.
  fold terminating.
  destruct (ansErr (env (OpGetCHI _ _) (trace w))) as [e|] eqn:Eerr; cbn [isNil negb orb].
  { split; [done|]. split; by intros ([=] & _). }
  destruct (ansCHI (env (OpGetCHI _ _) (trace w))) as [cur|] eqn:Ecur; cbn [isSome negb];
    [|split; [done|]; split; by intros (_ & [? [=]] & _)].
  destruct (InArray FinalizerName (om_Finalizers (chi_ObjectMeta chi))) eqn:Efin;
    cbn [negb]; [|split; [done|]; split; by intros (_ & _ & [=])].
  rewrite bind_callErr, trace_emit.
  split; [intros Hnot; destruct Hnot; by repeat split|].
  split.
  - intros _ Hfail.
    destruct (ansErr (env (OpUpdateCHIObjectStatus terminating true) _)); [reflexivity | done].
  - intros _ Hok w' err H. rewrite Hok in H. cbn [isNil negb noError] in H.
    inv_bind H. rewrite bind_callErr in H. injection H as <- <-.
    split; [reflexivity|].
    destruct (deleteCHI_noQueue _ _ _ _ _ H0) as (deletion & Hdel & _).
    exists deletion. eexists. rewrite trace_emit, Hdel, !trace_emit, <- !app_assoc.
    reflexivity.
Qed.

(** ** The reconcile of one installation *)

Lemma normalize_run (chi : option ClickHouseInstallation) w :
  exists announcements,
    normalize chi w
    = (mkWorld (trace w ++ announcements) (objOld w) (objNew w) (objDel w) (creator w),
       Ret (normalized chi))
    /\ Forall (fun e => isAnnounceOp (ev_op e) = true) announcements
    /\ length announcements <= 1.
Proof.
  unfold normalize, normalized.
  destruct chi as [c|].
  - destruct (CreateTemplatedCHI normalizer c true) as [c' [e|]]; cbn [isNil negb fst].
    + rewrite bind_announceCHI. eexists [_]. split; [reflexivity|].
      split; [by repeat constructor | simpl; lia].
    + exists []. rewrite app_nil_r. split; [by destruct w|]. split; [constructor | simpl; lia].
  - destruct (CreateTemplatedCHI normalizer emptyCHI false) as [c' [e|]]; cbn [isNil negb fst].
    + rewrite bind_announceCHI. eexists [_]. split; [reflexivity|].
      split; [by repeat constructor | simpl; lia].
    + exists []. rewrite app_nil_r. split; [by destruct w|]. split; [constructor | simpl; lia].
Qed.

(** A run of [updateCHI] on a CHI that is not being deleted and that is
    not ignored: the finalizer is installed, old and new are normalized,
    and [updateCHI_planned] goes on with the normalized installations. *)
Lemma updateCHI_reaches_planned ctx old n w :
  isUpdate old (Some n) && sameResourceVersion old (Some n) = false ->
  DeletionTimestamp_IsZero (chi_ObjectMeta n) = true ->
  exists w1 installed announcements,
    updateCHI ctx old (Some n) w
    = updateCHI_planned ctx (isUpdate old (Some n))
        (NewActionPlan (normalized old) (normalized (Some n))) (normalized (Some n)) w1
    /\ trace w1 = trace w ++ mkEvent (OpInstallFinalizer n) installed :: announcements
    /\ Forall (fun e => isAnnounceOp (ev_op e) = true) announcements
    /\ length announcements <= 2
    /\ getChi PtrOld w1 = normalized old
    /\ getChi PtrNew w1 = normalized (Some n).
Proof.
  intros Hrv Hzero. unfold updateCHI. cbv zeta. rewrite Hrv, Hzero. cbn [negb].
  unfold bind at 1. rewrite ensureFinalizer_always_installs.
  destruct (normalize_run old (emit (mkEvent (OpInstallFinalizer n)
                                       (env (OpInstallFinalizer n) (trace w))) w))
    as (a1 & Hold & Ha1 & Hl1).
  unfold bind at 1. rewrite Hold. unfold bind at 1, modify.
  set (w0 := setChi PtrOld (normalized old) _).
  destruct (normalize_run (Some n) w0) as (a2 & Hnew & Ha2 & Hl2).
  unfold bind at 1. rewrite Hnew. unfold bind at 1.
  eexists _, _, (a1 ++ a2). split; [reflexivity|]. subst w0.
  cbn [setChi trace emit getChi objOld objNew]. rewrite <- !app_assoc.
  split; [reflexivity|]. split; [by apply Forall_app|].
  rewrite length_app. split; [lia|]. by split.
Qed.

(** A run of [updateCHI_planned] whose plan has actions and whose first
    write of the status succeeds: the status is written and announced, a
    stopped CHI is taken out of the monitoring, the hosts are marked, and
    the reconcile goes on with the marked CHI. *)
Lemma updateCHI_planned_reaches_reconcile ctx update actionPlan newN w1 :
  HasActionsToDo actionPlan = true ->
  getChi PtrNew w1 = newN ->
  let started := chi_setStatus (ReconcileStart (GetRemovedHostsNum actionPlan)) newN in
  ansErr (env (OpUpdateCHIObjectStatus started false) (trace w1)) = noError ->
  exists w2,
    updateCHI_planned ctx update actionPlan newN w1
    = updateCHI_reconcile ctx update actionPlan newN w2
    /\ getChi PtrNew w2
       = updateCHI_markHosts update
           (updateCHI_markModified actionPlan (updateCHI_markAdded actionPlan started))
    /\ getChi PtrOld w2 = getChi PtrOld w1.
Proof.
  intros Hact Hnew started Hok. unfold updateCHI_planned. rewrite Hact. cbn [negb].
  rewrite bind_updateChi, bind_updateCHIObjectStatus, getChi_setChi, Hnew.
  fold started. rewrite trace_setChi, Hok. cbn [isNil negb noError].
  rewrite bind_announce.
  destruct (IsStopped newN).
  - rewrite !bind_bind, bind_announce, bind_bind, bind_call, !bind_ret.
    rewrite !bind_updateChi. eexists. split; [reflexivity|].
    world_simpl. split; [reflexivity|]. by rewrite getChi_setChi_ne.
  - rewrite bind_ret, !bind_updateChi. eexists. split; [reflexivity|].
    world_simpl. split; [reflexivity|]. by rewrite getChi_setChi_ne.
Qed.

(** C6.  A run of [updateCHI] that gets to the reconcile (the CHI is not
    ignored and not being deleted, the action plan has actions, the first
    write of the status succeeds) enters the reconcile walk with a new CHI
    whose hosts are marked.  That CHI is the normalized new CHI with the
    status of a started reconcile, marked by the two walks of the action
    plan and then by the two walks over its hosts.  These last walks keep
    the hosts and their order and leave [Add] and [Modify] as the plan set
    them.  In an update reconcile (old and new CHI both present) every host
    of the new CHI has [Migrate] set; in every reconcile a host with
    neither [Add] nor [Modify] has [Unclear] set, so every host is marked
    [Add], [Modify] or [Unclear]. *)
Theorem updateCHI_marks_hosts_before_reconcile (ctx : Context)
    (old : option ClickHouseInstallation) (new : ClickHouseInstallation) (w : World) :
  isUpdate old (Some new) && sameResourceVersion old (Some new) = false ->
  DeletionTimestamp_IsZero (chi_ObjectMeta new) = true ->
  let update := isUpdate old (Some new) in
  let newN := normalized (Some new) in
  let actionPlan := NewActionPlan (normalized old) newN in
  let started := chi_setStatus (ReconcileStart (GetRemovedHostsNum actionPlan)) newN in
  let planned :=
    updateCHI_markModified actionPlan (updateCHI_markAdded actionPlan started) in
  HasActionsToDo actionPlan = true ->
  (forall t, ansErr (env (OpUpdateCHIObjectStatus started false) t) = noError) ->
  exists w2,
    updateCHI ctx old (Some new) w = updateCHI_reconcile ctx update actionPlan newN w2
    /\ getChi PtrNew w2 = updateCHI_markHosts update planned
    /\ Forall2 (fun h h' =>
                  host_Name h' = host_Name h
                  /\ IsAdd (host_ReconcileAttributes h') = IsAdd (host_ReconcileAttributes h)
                  /\ IsModify (host_ReconcileAttributes h')
                     = IsModify (host_ReconcileAttributes h))
               (chi_hosts planned) (chi_hosts (getChi PtrNew w2))
    /\ (forall h', In h' (chi_hosts (getChi PtrNew w2)) ->
          (is_Some old -> IsMigrate (host_ReconcileAttributes h') = true)
          /\ (IsAdd (host_ReconcileAttributes h') = false ->
              IsModify (host_ReconcileAttributes h') = false ->
              IsUnclear (host_ReconcileAttributes h') = true)
          /\ (IsAdd (host_ReconcileAttributes h') = true
              \/ IsModify (host_ReconcileAttributes h') = true
              \/ IsUnclear (host_ReconcileAttributes h') = true)).
Proof.
  intros Hrv Hzero update newN actionPlan started planned Hact Hok.
  destruct (updateCHI_reaches_planned ctx old new w Hrv Hzero)
    as (w1 & installed & announcements & Hrun & _ & _ & _ & _ & Hnew).
  destruct (updateCHI_planned_reaches_reconcile ctx update actionPlan newN w1 Hact Hnew
              (Hok _)) as (w2 & Hplanned & Hmarked & _).
  exists w2. split; [by rewrite Hrun|]. split; [exact Hmarked|].
  rewrite Hmarked.
  destruct (updateCHI_markHosts_marks old (Some new) planned) as (_ & Hkept & Hmarks).
  split; [exact Hkept|].
  intros h' Hin. destruct (Hmarks h' Hin) as (Hmig & Hunclear & Hany).
  split; [|by split]. intros [o ->]. apply Hmig. by exists o, new.
Qed.

(** X18.  An update whose new CHI has the resource version of the old one
    is ignored, whatever else differs and even when the new CHI carries a
    deletion timestamp: [updateCHI] and [processItem] return nil without a
    call, and the round of the work loop consists of [Forget] and
    [Done]. *)
Theorem unchanged_resourceVersion_is_ignored (ctx : Context)
    (old new : ClickHouseInstallation) (w : World) :
  chi_ResourceVersion old = chi_ResourceVersion new ->
  let item := ReconcileCHI reconcileUpdate (Some old) (Some new) in
  updateCHI ctx (Some old) (Some new) w = (w, Ret noError)
  /\ processItem ctx item w = (w, Ret noError)
  /\ exists forgotten done,
       runItem ctx item w = (emit (mkEvent (OpQueueDone item) done)
                               (emit (mkEvent (OpQueueForget item) forgotten) w), Ret tt).
Proof.
  intros Hrv item.
  assert (Hupdate : updateCHI ctx (Some old) (Some new) w = (w, Ret noError)).
  { unfold updateCHI. cbn [isUpdate sameResourceVersion andb].
    by rewrite Hrv, String.eqb_refl. }
  assert (Hitem : processItem ctx item w = (w, Ret noError)).
  { unfold processItem, item. rewrite bind_IsContextDone.
    destruct (ctx (trace w)); [reflexivity | exact Hupdate]. }
  split; [exact Hupdate|]. split; [exact Hitem|].
  unfold runItem. unfold bind at 1. rewrite Hitem. unfold noError. cbv beta iota.
  rewrite bind_ret, !bind_call.
  eexists _, _. reflexivity.
Qed.

Lemma finalizeCHI_never_writes ctx chi :
  Step (Emits (never isReconcileWrite)) (finalizeCHI ctx chi).
Proof. emits. Qed.

(** X19.  A CHI that carries a deletion timestamp is finalized and nothing
    else: whatever the old CHI is and however the call ends, [updateCHI]
    does not install the finalizer, creates and updates no object of the
    platform and no table, and does not add the CHI to the monitoring. *)
Theorem deleted_CHI_is_not_reconciled (ctx : Context) (old : option ClickHouseInstallation)
    (new : ClickHouseInstallation) (w : World) :
  DeletionTimestamp_IsZero (chi_ObjectMeta new) = false ->
  Emits (never isReconcileWrite) w (fst (updateCHI ctx old (Some new) w)).
Proof.
  intros Hdel. unfold updateCHI. cbv zeta.
  destruct (isUpdate old (Some new) && sameResourceVersion old (Some new));
    [apply Emits_refl|].
  rewrite Hdel. cbn [negb]. apply Step_fst, finalizeCHI_never_writes.
Qed.

(** X20.  [updateCHI] on a CHI that is not being deleted and not ignored
    stops before the reconcile in two cases.  When the action plan of the
    normalized installations has nothing to do, the finalizer has been
    installed, at most two failures of the normalization have been
    announced, and nil is returned: no status is written.  When the plan
    has actions but the first write of the status fails, that write, of
    the normalized new CHI with the status the reconcile starts with, is
    the last call, and nil is returned. *)
Theorem updateCHI_stops_before_reconcile (ctx : Context)
    (old : option ClickHouseInstallation) (new : ClickHouseInstallation) (w : World) :
  isUpdate old (Some new) && sameResourceVersion old (Some new) = false ->
  DeletionTimestamp_IsZero (chi_ObjectMeta new) = true ->
  let actionPlan := NewActionPlan (normalized old) (normalized (Some new)) in
  let started :=
    chi_setStatus (ReconcileStart (GetRemovedHostsNum actionPlan)) (normalized (Some new)) in
  (HasActionsToDo actionPlan = false ->
   exists w' installed announcements,
     updateCHI ctx old (Some new) w = (w', Ret noError)
     /\ trace w' = trace w ++ mkEvent (OpInstallFinalizer new) installed :: announcements
     /\ Forall (fun e => isAnnounceOp (ev_op e) = true) announcements
     /\ length announcements <= 2)
  /\ (HasActionsToDo actionPlan = true ->
      (forall t, ansErr (env (OpUpdateCHIObjectStatus started false) t) <> noError) ->
      exists w' installed announcements written,
        updateCHI ctx old (Some new) w = (w', Ret noError)
        /\ trace w'
           = trace w ++ mkEvent (OpInstallFinalizer new) installed :: announcements
             ++ [mkEvent (OpUpdateCHIObjectStatus started false) written]
        /\ Forall (fun e => isAnnounceOp (ev_op e) = true) announcements
        /\ length announcements <= 2).
Proof.
  intros Hrv Hzero actionPlan started.
  destruct (updateCHI_reaches_planned ctx old new w Hrv Hzero)
    as (w1 & installed & announcements & Hrun & Htrace & Hann & Hlen & _ & Hnew).
  fold actionPlan in Hrun. rewrite Hrun. unfold updateCHI_planned. split.
  - intros ->. cbn [negb]. exists w1, installed, announcements. by repeat split.
  - intros -> Hfail. cbn [negb].
    rewrite bind_updateChi, bind_updateCHIObjectStatus, getChi_setChi, Hnew.
    fold started. rewrite trace_setChi.
    destruct (ansErr (env (OpUpdateCHIObjectStatus started false) (trace w1))) eqn:E;
      [|by destruct (Hfail (trace w1))].
    cbn [isNil negb]. eexists _, installed, announcements, _. split; [reflexivity|].
    rewrite trace_emit, trace_setChi, Htrace. cbn [app]. rewrite <- app_assoc.
    by repeat split.
Qed.

Lemma updateCHI_planned_stopped ctx update actionPlan newN :
  IsStopped newN = true ->
  Step (Emits (never isUpdateWatchOp)) (updateCHI_planned ctx update actionPlan newN).
Proof.
  intros Hstopped. unfold updateCHI_planned, updateCHI_reconcile. rewrite Hstopped.
  cbn [negb]. emits.
Qed.

(** X21.  A stopped CHI is never added to the monitoring: whatever
    [updateCHI] does for a CHI whose normalized form is stopped, none of
    its calls is [updateWatch]. *)
Theorem stopped_CHI_is_not_monitored (ctx : Context) (old : option ClickHouseInstallation)
    (new : ClickHouseInstallation) (w : World) :
  IsStopped (normalized (Some new)) = true ->
  Emits (never isUpdateWatchOp) w (fst (updateCHI ctx old (Some new) w)).
Proof.
  intros Hstopped.
  destruct (isUpdate old (Some new) && sameResourceVersion old (Some new)) eqn:Hrv.
  { unfold updateCHI. cbv zeta. rewrite Hrv. apply Emits_refl. }
  destruct (DeletionTimestamp_IsZero (chi_ObjectMeta new)) eqn:Hzero.
  - destruct (updateCHI_reaches_planned ctx old new w Hrv Hzero)
      as (w1 & installed & announcements & -> & Htrace & Hann & _).
    eapply Emits_trans; [|apply Step_fst, updateCHI_planned_stopped, Hstopped].
    eexists. split; [exact Htrace|]. constructor; [reflexivity|].
    eapply Forall_impl; [exact Hann|]. intros e. unfold never. cbv beta.
    by destruct (ev_op e).
  - unfold updateCHI. cbv zeta. rewrite Hrv, Hzero. cbn [negb]. apply Step_fst.
    assert (Hfin : Step (Emits (never isUpdateWatchOp)) (finalizeCHI ctx new)) by emits.
    exact Hfin.
Qed.

(** ** Work items *)

(** X22.  The only work items for which [processItem] returns an error.
    For a CHI it is the deletion of a CHI that cannot be normalized, and
    the error is the error of the normalization.  For a CHI template and
    for an operator configuration it is the error of the one call of the
    controller that the item stands for.  A DNS item and an unknown item
    never return an error. *)
Theorem processItem_errors (ctx : Context) (item : Command) (w w' : World) (e : ErrKind) :
  processItem ctx item w = (w', Ret (Some e)) ->
  match item with
  | ReconcileCHI cmd old _ =>
      cmd = reconcileDelete
      /\ exists c c', old = Some c /\ CreateTemplatedCHI normalizer c true = (c', Some e)
  | ReconcileCHIT cmd old new =>
      exists op a,
        w' = emit (mkEvent op a) w /\ ansErr a = Some e
        /\ (cmd = reconcileAdd /\ op = OpAddChit new
            \/ cmd = reconcileUpdate /\ op = OpUpdateChit old new
            \/ cmd = reconcileDelete /\ op = OpDeleteChit old)
  | ReconcileChopConfig cmd old new =>
      exists op a,
        w' = emit (mkEvent op a) w /\ ansErr a = Some e
        /\ (cmd = reconcileAdd /\ op = OpAddChopConfig new
            \/ cmd = reconcileUpdate /\ op = OpUpdateChopConfig old new
            \/ cmd = reconcileDelete /\ op = OpDeleteChopConfig old)
  | DropDns _ | UnknownItem _ => False
  end.
Proof.
  intros H. unfold processItem in H. rewrite bind_IsContextDone in H.
  destruct (ctx (trace w)); [done|].
  destruct item as [cmd old new | cmd old new | cmd old new | initiator | description].
  - destruct cmd.
    + by pose proof (updateCHI_returns_nil _ _ _ _ _ _ H).
    + by pose proof (updateCHI_returns_nil _ _ _ _ _ _ H).
    + split; [reflexivity|].
      destruct (deleteCHI_error _ _ _ _ _ H) as (c & c' & _ & _ & -> & Hnorm & _).
      by exists c, c'.
    + by rewrite bind_call in H.
  - destruct cmd; unfold callErr in H; rewrite ?bind_call in H; try done;
      injection H as <- H; eexists _, _; (split; [reflexivity|]); (split; [exact H|]); tauto.
  - destruct cmd; unfold callErr in H; rewrite ?bind_call in H; try done;
      injection H as <- H; eexists _, _; (split; [reflexivity|]); (split; [exact H|]); tauto.
  - inv_bind H. destruct a as [[chi|] [err|]]; by rewrite ?bind_callErr in H.
  - by rewrite bind_call in H.
Qed.

(** ** Installations and clusters by object metadata *)

Lemma createCHIFromObjectMeta_returns objectMeta w w' chi err :
  createCHIFromObjectMeta objectMeta w = (w', Ret (chi, err)) ->
  w' = emit (mkEvent (OpGetCHIByObjectMeta objectMeta)
                     (env (OpGetCHIByObjectMeta objectMeta) (trace w))) w
  /\ isSome chi = isNil err
  /\ forall c, chi = Some c ->
       exists raw,
         ansCHI (env (OpGetCHIByObjectMeta objectMeta) (trace w)) = Some raw
         /\ NormalizeCHI normalizer raw = (c, noError).
Proof.
  intros H. unfold createCHIFromObjectMeta in H. rewrite bind_call in H.
  destruct (ansErr (env (OpGetCHIByObjectMeta objectMeta) (trace w))) as [e|] eqn:Eerr;
    cbn [isNil negb] in H.
  - injection H as <- <- <-. by repeat split.
  - destruct (ansCHI (env (OpGetCHIByObjectMeta objectMeta) (trace w))) as [raw|]; [|done].
    destruct (NormalizeCHI normalizer raw) as [c [e|]] eqn:Enorm; cbn [isNil negb] in H;
      injection H as <- <- <-; (split; [reflexivity|]); (split; [reflexivity|]);
      intros c0 [= <-]. by exists raw.
Qed.

(** X23.  [createCHIFromObjectMeta] and [createClusterFromObjectMeta]
    return either an object or an error, never both and never neither.
    The CHI is fetched with one call and is returned normalized.  When the
    cluster name cannot be derived from the metadata, no call is made at
    all, and the error that is returned is a new error, which is not a
    not-found error whatever the cause was; a cluster that is returned is
    the cluster of the derived name in the normalized CHI. *)
Theorem objects_from_metadata :
  (forall objectMeta w w' chi err,
     createCHIFromObjectMeta objectMeta w = (w', Ret (chi, err)) ->
     w' = emit (mkEvent (OpGetCHIByObjectMeta objectMeta)
                        (env (OpGetCHIByObjectMeta objectMeta) (trace w))) w
     /\ isSome chi = isNil err
     /\ forall c, chi = Some c ->
          exists raw,
            ansCHI (env (OpGetCHIByObjectMeta objectMeta) (trace w)) = Some raw
            /\ NormalizeCHI normalizer raw = (c, noError))
  /\ (forall objectMeta w w' cluster err,
        createClusterFromObjectMeta objectMeta w = (w', Ret (cluster, err)) ->
        isSome cluster = isNil err
        /\ (snd (GetClusterNameFromObjectMeta objectMeta) <> noError ->
            w' = w /\ err = Some (errNotGeneratedByCHI objectMeta) /\ IsNotFound err = false)
        /\ forall cl, cluster = Some cl ->
             exists chi,
               createCHIFromObjectMeta objectMeta w = (w', Ret (Some chi, noError))
               /\ FindCluster chi (fst (GetClusterNameFromObjectMeta objectMeta)) = Some cl).
Proof.
  split; [intros objectMeta w w' chi err; apply createCHIFromObjectMeta_returns|].
  intros objectMeta w w' cluster err H. unfold createClusterFromObjectMeta in H.
  destruct (GetClusterNameFromObjectMeta objectMeta) as [clusterName [e|]];
    cbn [isNil negb fst snd] in *.
  - injection H as <- <- <-. split; [reflexivity|]. split; [by intros _|]. by intros cl.
  - inv_bind H. destruct a as [chi err0].
    destruct (createCHIFromObjectMeta_returns _ _ _ _ _ H0) as (_ & Hone & _).
    destruct err0 as [e|]; cbn [isNil negb] in H.
    + injection H as <- <- <-. split; [reflexivity|]. split; [done|]. by intros cl.
    + destruct chi as [chi|]; [|done]. rewrite (bind_orPanic _ _ _ chi) in H by done.
      destruct (FindCluster chi clusterName) as [cl|] eqn:Efind; injection H as <- <- <-;
        (split; [reflexivity|]); (split; [done|]); intros cl' [= <-].
      by exists chi.
Qed.

(** ** Persistent volumes and claims *)

Lemma updatePersistentVolumes_each host p c pvs w :
  creator w = Some p -> getChi p w = c ->
  exists w' updates,
    forEach (fun pv =>
               c <- creatorCHI ;;
               let pv := PreparePersistentVolume creatorFns c pv host in
               callErr (OpUpdatePersistentVolume pv)) pvs w
    = (w', Ret tt)
    /\ trace w' = trace w ++ updates
    /\ map ev_op updates
       = map (fun pv => OpUpdatePersistentVolume (PreparePersistentVolume creatorFns c pv host))
             pvs
    /\ forall q, getChi q w' = getChi q w.
Proof.
  revert w. induction pvs as [|pv pvs IH]; intros w Hcreator Hchi.
  - exists w, []. by rewrite app_nil_r.
  - cbn [forEach]. unfold creatorCHI.
    rewrite bind_bind, (bind_orPanic _ _ _ c) by (by rewrite Hcreator; cbn; rewrite Hchi).
    cbv zeta. rewrite bind_callErr.
    set (w1 := emit _ w).
    destruct (IH w1) as (w' & updates & Hrun & Htrace & Hops & Hsame).
    { subst w1. by rewrite creator_emit. }
    { subst w1. by rewrite getChi_emit. }
    eexists w', (_ :: updates). split; [exact Hrun|]. subst w1.
    rewrite Htrace, trace_emit, <- app_assoc. split; [reflexivity|].
    split; [cbn [map ev_op]; by rewrite Hops|].
    intros q. by rewrite Hsame, getChi_emit.
Qed.

(** X24.  [reconcilePersistentVolumes], entered with a live context by a
    worker that has a Creator, asks the controller for the volumes of the
    host and then updates every one of them, in the order of the answer,
    with the volume as the Creator prepares it for the host.  The errors
    of the updates are dropped, the context is not looked at again, and no
    installation changes. *)
Theorem reconcilePersistentVolumes_updates_each (ctx : Context) (host : HostPtr)
    (p : ChiPtr) (w : World) :
  ctx (trace w) = false ->
  creator w = Some p ->
  exists w' updates,
    reconcilePersistentVolumes ctx host w = (w', Ret tt)
    /\ trace w'
       = trace w ++ mkEvent (OpWalkPVs host) (env (OpWalkPVs host) (trace w)) :: updates
    /\ map ev_op updates
       = map (fun pv => OpUpdatePersistentVolume
                          (PreparePersistentVolume creatorFns (getChi p w) pv host))
             (ansPVs (env (OpWalkPVs host) (trace w)))
    /\ forall q, getChi q w' = getChi q w.
Proof.
  intros Hlive Hcreator. unfold reconcilePersistentVolumes.
  rewrite bind_IsContextDone, Hlive, bind_call.
  set (w1 := emit _ w).
  destruct (updatePersistentVolumes_each host p (getChi p w)
              (ansPVs (env (OpWalkPVs host) (trace w))) w1)
    as (w' & updates & Hrun & Htrace & Hops & Hsame).
  { subst w1. by rewrite creator_emit. }
  { subst w1. by rewrite getChi_emit. }
  exists w', updates. split; [exact Hrun|]. subst w1.
  rewrite Htrace, trace_emit, <- app_assoc. split; [reflexivity|]. split; [exact Hops|].
  intros q. by rewrite Hsame, getChi_emit.
Qed.

Lemma reconcilePersistentVolumeClaims_only ctx host :
  Step (Emits (only isClaimOp)) (reconcilePersistentVolumeClaims ctx host).
Proof. emits. Qed.

Lemma reconcilePersistentVolumeClaims_returns_nil ctx host :
  Returns (fun err => err = noError) (reconcilePersistentVolumeClaims ctx host).
Proof. returns_nil. Qed.

(** X25.  [reconcilePersistentVolumeClaims] only looks claims up and
    updates them: however it ends, every call of it is a lookup or an
    update of a PersistentVolumeClaim, so no claim is created or deleted;
    it changes no installation; and whenever it returns, it returns nil,
    whatever the lookups and updates answered. *)
Theorem reconcilePersistentVolumeClaims_only_updates (ctx : Context) (host : HostPtr)
    (w : World) :
  Emits (only isClaimOp) w (fst (reconcilePersistentVolumeClaims ctx host w))
  /\ (forall p, getChi p (fst (reconcilePersistentVolumeClaims ctx host w)) = getChi p w)
  /\ (forall w' err, reconcilePersistentVolumeClaims ctx host w = (w', Ret err) ->
                     err = noError).
Proof.
  split; [apply Step_fst, reconcilePersistentVolumeClaims_only|]. split.
  - intros p.
    apply (Step_fst _ _ w (reconcilePersistentVolumeClaims_Keeps (fun c => c) ctx host)).
  - intros w' err. apply reconcilePersistentVolumeClaims_returns_nil.
Qed.

(** ** What the update of a Service keeps of the new Service *)

Lemma reusePort_port newPort curPorts :
  port_Port (reusePort newPort curPorts) = port_Port newPort.
Proof.
  induction curPorts as [|curPort rest IH]; cbn [reusePort]; [reflexivity|].
  destruct (Z.eqb_spec (port_Port newPort) (port_Port curPort)) as [E|E]; [by rewrite E | exact IH].
Qed.

Lemma reusePort_idem newPort curPorts :
  reusePort (reusePort newPort curPorts) curPorts = reusePort newPort curPorts.
Proof.
  induction curPorts as [|curPort rest IH]; cbn [reusePort]; [reflexivity|].
  destruct (Z.eqb_spec (port_Port newPort) (port_Port curPort)) as [E|E].
  - cbn [reusePort]. by rewrite Z.eqb_refl.
  - cbn [reusePort]. rewrite reusePort_port.
    destruct (Z.eqb_spec (port_Port newPort) (port_Port curPort)); [done | exact IH].
Qed.

(** X26.  What [updateService] submits keeps what the new Service asks
    for: its namespace and name, its type and external traffic policy, and
    the port numbers of its ports, in their order, whatever the current
    Service is; the resource version is the one of the current Service.
    Unless both Services are of type NodePort or both of type
    LoadBalancer, the ports are the ports of the new Service as they are.
    And preparing the prepared Service again against the same current
    Service changes nothing of its spec. *)
Theorem updateService_prepare_keeps_request (curService newService : Service) :
  let submitted := updateService_prepare curService newService in
  om_Namespace (svc_ObjectMeta submitted) = om_Namespace (svc_ObjectMeta newService)
  /\ om_Name (svc_ObjectMeta submitted) = om_Name (svc_ObjectMeta newService)
  /\ om_ResourceVersion (svc_ObjectMeta submitted)
     = om_ResourceVersion (svc_ObjectMeta curService)
  /\ spec_Type (svc_Spec submitted) = spec_Type (svc_Spec newService)
  /\ spec_ExternalTrafficPolicy (svc_Spec submitted)
     = spec_ExternalTrafficPolicy (svc_Spec newService)
  /\ map port_Port (spec_Ports (svc_Spec submitted))
     = map port_Port (spec_Ports (svc_Spec newService))
  /\ (sameAllocatingType curService newService = false ->
      spec_Ports (svc_Spec submitted) = spec_Ports (svc_Spec newService))
  /\ svc_Spec (updateService_prepare curService submitted) = svc_Spec submitted.
Proof.
  intros submitted. subst submitted. unfold updateService_prepare, sameAllocatingType.
  cbn [svc_ObjectMeta svc_Spec om_Namespace om_Name om_ResourceVersion spec_Type
         spec_ExternalTrafficPolicy spec_Ports spec_ClusterIP spec_HealthCheckNodePort].
  repeat split.
  - destruct (_ || _); [|reflexivity].
    rewrite map_map. apply map_ext. intros newPort. apply reusePort_port.
  - by intros ->.
  - f_equal.
    + destruct (_ || _); [|reflexivity].
      rewrite map_map. apply map_ext. intros newPort. apply reusePort_idem.
    + destruct (_ && _); reflexivity.
Qed.

(** ** Inclusion without waiting *)

Lemma shouldWaitIncludeHost_Keeps host status w w1 b :
  (forall p, getChi p w1 = getChi p w) ->
  shouldWaitIncludeHost host status w = (w, Ret b) ->
  shouldWaitIncludeHost host status w1 = (w1, Ret b).
Proof.
  intros Hsame H. unfold shouldWaitIncludeHost in *.
  destruct (isNewOrSame status); [by injection H as <-|].
  unfold derefShard, orPanic, bind at 1 in H. unfold derefShard, orPanic, bind at 1.
  unfold GetShard in *. rewrite Hsame.
  destruct (lookupShard _ _ _) as [sh|]; [|done].
  destruct (HostsCount sh =? 1); [by injection H as <-|].
  unfold bind, readChi, gets in *. rewrite Hsame.
  destruct (IsReconcilingPolicyWait _); [by injection H as <-|].
  destruct (IsReconcilingPolicyNoWait _); [by injection H as <-|].
  destruct (Bool.eqb _ _); by injection H as <-.
Qed.

Lemma reconcileCHIConfigMaps_never_probes ctx chi options update :
  Step (Emits (never isProbeOp)) (reconcileCHIConfigMaps ctx chi options update).
Proof. emits. Qed.

(** X27.  [includeHost] reconciles the ConfigMaps of the CHI, with
    [update = true], whether or not it is going to wait.  When
    [shouldWaitIncludeHost] answers false for the host, the Schemer is
    never asked whether the host is in the cluster, and [includeHost] ends
    as the reconcile of the ConfigMaps ends, with nil if that returns. *)
Theorem includeHost_without_waiting (ctx : Context) (host : HostPtr)
    (status : StatefulSetStatus) (w : World) :
  shouldWaitIncludeHost host status w = (w, Ret false) ->
  Emits (never isProbeOp) w (fst (includeHost ctx host status w))
  /\ fst (includeHost ctx host status w)
     = fst (reconcileCHIConfigMaps ctx (hp_CHI host) (Some includeHostOptions) true w)
  /\ forall w1 err,
       reconcileCHIConfigMaps ctx (hp_CHI host) (Some includeHostOptions) true w
       = (w1, Ret err) ->
       includeHost ctx host status w = (w1, Ret noError).
Proof.
  intros Hno.
  assert (Hret : forall w1 err,
             reconcileCHIConfigMaps ctx (hp_CHI host) (Some includeHostOptions) true w
             = (w1, Ret err) ->
             includeHost ctx host status w = (w1, Ret noError)).
  { intros w1 err Hmaps. unfold includeHost, bind at 1. rewrite Hmaps.
    unfold bind at 1.
    rewrite (shouldWaitIncludeHost_Keeps host status w w1 false); [reflexivity| |exact Hno].
    intros p. apply (reconcileCHIConfigMaps_Keeps (fun c => c) _ _ _ _ _ _ _ Hmaps). }
  assert (Hfst : fst (includeHost ctx host status w)
                 = fst (reconcileCHIConfigMaps ctx (hp_CHI host) (Some includeHostOptions)
                          true w)).
  { destruct (reconcileCHIConfigMaps ctx (hp_CHI host) (Some includeHostOptions) true w)
      as [w1 [err| |]] eqn:Hmaps.
    - by rewrite (Hret _ _ eq_refl).
    - unfold includeHost, bind at 1. by rewrite Hmaps.
    - unfold includeHost, bind at 1. by rewrite Hmaps. }
  split; [|split; [exact Hfst | exact Hret]].
  rewrite Hfst. apply Step_fst, reconcileCHIConfigMaps_never_probes.
Qed.

(** ** Nil installations *)

(** X28.  [processItem] has no guard against a nil installation.  With a
    live context, an Add or an Update of a CHI whose new installation is
    nil, and a Delete whose old installation is nil, panic on the nil
    pointer before any call; the round of the work loop ends there, so the
    item is neither forgotten nor done, and the work loop does not go on to
    the next item. *)
Theorem nil_installation_panics (ctx : Context) (old new : option ClickHouseInstallation)
    (item : Command) (w : World) :
  ctx (trace w) = false ->
  item = ReconcileCHI reconcileAdd old None
  \/ item = ReconcileCHI reconcileUpdate old None
  \/ item = ReconcileCHI reconcileDelete None new ->
  processItem ctx item w = (w, Panic)
  /\ runItem ctx item w = (w, Panic)
  /\ forall rounds,
       env OpQueueGet (trace w) = AItem item false ->
       ctx (trace w ++ [mkEvent OpQueueGet (AItem item false)]) = false ->
       runLoop (S rounds) ctx w = (emit (mkEvent OpQueueGet (AItem item false)) w, Panic).
Proof.
  intros Hlive Hitem.
  assert (Hpanic : forall w0, ctx (trace w0) = false -> processItem ctx item w0 = (w0, Panic)).
  { intros w0 Hlive0. unfold processItem. rewrite bind_IsContextDone, Hlive0.
    destruct Hitem as [-> | [-> | ->]].
    - reflexivity.
    - unfold updateCHI. by destruct old.
    - unfold deleteCHI. by rewrite bind_IsContextDone, Hlive0. }
  assert (Hround : forall w0, ctx (trace w0) = false -> runItem ctx item w0 = (w0, Panic)).
  { intros w0 Hlive0. unfold runItem, bind at 1. by rewrite (Hpanic w0 Hlive0). }
  split; [by apply Hpanic|]. split; [by apply Hround|].
  intros rounds Hget Hlive1. cbn [runLoop]. rewrite bind_call, Hget. cbn [ansItem].
  unfold bind at 1. by rewrite Hround.
Qed.

(** ** The end of a reconcile *)

(** X29.  After a reconcile walk that returned nil, whatever the creation
    of tables, the deletion of the removed clusters, shards and hosts and
    the update of the monitoring answered: when [updateCHI_reconcile]
    returns, it returns nil, the status of the new installation has been
    completed and written without tolerance for the absence of the CHI,
    and the last call is the announcement ReconcileCompleted. *)
Theorem reconcile_is_completed (ctx : Context) (update : bool) (actionPlan : ActionPlan)
    (newN : ClickHouseInstallation) (w w1 w' : World) (err : Error) :
  reconcile ctx PtrNew w = (w1, Ret noError) ->
  updateCHI_reconcile ctx update actionPlan newN w = (w', Ret err) ->
  err = noError
  /\ exists before c written announced,
       getChi PtrNew w' = chi_setStatus ReconcileComplete c
       /\ trace w'
          = before
            ++ [mkEvent (OpUpdateCHIObjectStatus (getChi PtrNew w') false) written;
                mkEvent (OpAnnounce (getChi PtrNew w') reconcileCompleted) announced].
Proof.
  intros Hwalk H. unfold updateCHI_reconcile in H. unfold bind at 1 in H.
  rewrite Hwalk in H. cbn [isNil negb noError] in H.
  do 7 inv_bind H.
  rewrite bind_updateChi, bind_updateCHIObjectStatus, bind_announce in H.
  injection H as <- <-. split; [reflexivity|].
  eexists _, _, _, _. world_simpl. split; [reflexivity|].
  rewrite <- app_assoc. reflexivity.
Qed.

(** ** The entry point of a stopped installation *)

Lemma bind_readChi {B} p (k : ClickHouseInstallation -> M B) w :
  bind (readChi p) k w = k (getChi p w) w.
Proof. reflexivity. Qed.

Lemma reconcileCHIConfigMaps_never_service ctx chi options update :
  Step (Emits (never isServiceReconcileOp)) (reconcileCHIConfigMaps ctx chi options update).
Proof. emits. Qed.

Lemma reconcileCHIConfigMaps_never_deleteService ctx chi options update :
  Step (Emits (never isDeleteServiceCHIOp)) (reconcileCHIConfigMaps ctx chi options update).
Proof. emits. Qed.

Lemma reconcileService_never_deleteService ctx chi service :
  Step (Emits (never isDeleteServiceCHIOp)) (reconcileService ctx chi service).
Proof. emits. Qed.

(** X30.  A stopped installation has no entry point.  The preliminary step
    of the reconcile walk, entered with a live context for a stopped CHI,
    first asks the controller to delete the Service of the CHI, drops the
    error, and never looks up, creates, updates or recreates a Service.
    For a CHI that is not stopped it never asks for that deletion. *)
Theorem stopped_CHI_has_no_entry_point (ctx : Context) (chi : ChiPtr) (w : World) :
  ctx (trace w) = false ->
  (IsStopped (getChi chi w) = true ->
   exists rest,
     trace (fst (reconcileCHIAuxObjectsPreliminary ctx chi w))
     = trace w
       ++ mkEvent (OpDeleteServiceCHI (getChi chi w))
                  (env (OpDeleteServiceCHI (getChi chi w)) (trace w)) :: rest
     /\ Forall (fun e => isServiceReconcileOp (ev_op e) = false) rest)
  /\ (IsStopped (getChi chi w) = false ->
      Emits (never isDeleteServiceCHIOp) w (fst (reconcileCHIAuxObjectsPreliminary ctx chi w))).
Proof.
  intros Hlive. unfold reconcileCHIAuxObjectsPreliminary.
  rewrite bind_IsContextDone, Hlive, bind_readChi.
  split; intros Hstopped; rewrite Hstopped.
  - rewrite bind_bind, bind_callErr, bind_ret. cbn [isNil negb noError].
    set (w1 := emit _ w).
    destruct (reconcileCHIConfigMaps_never_service ctx chi None false w1
                (fst (reconcileCHIConfigMaps ctx chi None false w1))
                (snd (reconcileCHIConfigMaps ctx chi None false w1)))
      as (rest & Htrace & Hrest); [by destruct (reconcileCHIConfigMaps _ _ _ _ _)|].
    exists rest. split; [|exact Hrest]. rewrite Htrace. subst w1.
    by rewrite trace_emit, <- app_assoc.
  - apply Step_fst.
    pose proof reconcileCHIConfigMaps_never_deleteService.
    pose proof reconcileService_never_deleteService.
    repeat (first [ solve [ auto ] | step_rules emits_side ]).
Qed.

End Worker.

(** * The worker on the sample installation *)

Lemma sample_rangeKeys_spec (m : ResourceList) (k : string) :
  k ∈ sample_rangeKeys m <-> is_Some (m !! k).
Proof.
  unfold sample_rangeKeys. rewrite list_elem_of_fmap. split.
  - intros ([k' q] & -> & Hin). apply elem_of_map_to_list in Hin. by exists q.
  - intros [q Hq]. exists (k, q). split; [done|]. by apply elem_of_map_to_list.
Qed.

(** The first scenario of the design document: the sample installation is
    created on an empty platform.  The worker returns at the shutdown, two
    hosts were added and both are reconciled, and the queue saw [Get],
    [Forget], [Done] and the [Get] of the shutdown. *)
Example sample_run_adds_two_hosts :
  let ran :=
    run sample_env sample_config sample_creator sample_normalizer sample_plan
      (fun _ => true) sample_rangeKeys 5 3 initialWorld in
  snd ran = Ret tt
  /\ st_AddedHostsCount (chi_Status (objNew (fst ran))) = 2%Z
  /\ map (fun h => IsReconciled (host_ReconcileAttributes h)) (chi_hosts (objNew (fst ran)))
     = [true; true]
  /\ map eventName (queueOps (trace (fst ran)))
     = ["Get: item"; "Forget"; "Done"; "Get: shutdown"].
Proof. vm_compute. repeat split. Qed.

(** Excluding the first replica on the rolling platform: the topology is
    rendered without the host, and the host is polled until it has left the
    cluster. *)
Example sample_excludeHost_trace :
  let excluded :=
    excludeHost rolling_env sample_config sample_creator 5 Background sample_hostPtr
      statefulSetStatusUnknown sample_world in
  snd excluded = Ret noError
  /\ map eventName (trace (fst excluded))
     = ["get ConfigMap chi-c1-common-configd";
        "create ConfigMap chi-c1-common-configd: one host excluded";
        "CreateCompleted";
        "get ConfigMap chi-c1-common-usersd";
        "create ConfigMap chi-c1-common-usersd";
        "CreateCompleted";
        "in cluster"; "in cluster"; "not in cluster"].
Proof. vm_compute. repeat split. Qed.

(** The first replica of the sample shard, which has two replicas and the
    policy Wait: the worker waits for its exclusion when its StatefulSet is
    modified. *)
Lemma shouldWaitExcludeHost_iff_witness :
  getHost sample_hostPtr sample_world = Some (sample_host 0 "chi-c1-cluster-0-0")
  /\ exists (sh : ChiShard) (b : bool),
       GetShard sample_hostPtr sample_world = Some sh
       /\ shouldWaitExcludeHost sample_config sample_hostPtr statefulSetStatusModified
            sample_world = (sample_world, Ret b)
       /\ (b = true <->
             (statefulSetStatusModified <> statefulSetStatusNew
              /\ statefulSetStatusModified <> statefulSetStatusSame)
             /\ 1 < HostsCount sh
             /\ (IsReconcilingPolicyNoWait (getChi (hp_CHI sample_hostPtr) sample_world) = false
                 /\ (IsReconcilingPolicyWait (getChi (hp_CHI sample_hostPtr) sample_world) = true
                     \/ ReconcileWaitExclude sample_config = true)))
       /\ (HostsCount sh = 1 -> b = false).
Proof.
  split; [reflexivity|].
  exact (shouldWaitExcludeHost_iff sample_config sample_hostPtr statefulSetStatusModified
           sample_world (sample_host 0 "chi-c1-cluster-0-0") eq_refl).
Defined.

(** Excluding the first replica on the rolling platform. *)
Lemma excludeHost_excludes_and_waits_witness :
  (forall t, Background t = false)
  /\ shouldWaitExcludeHost sample_config sample_hostPtr statefulSetStatusUnknown sample_world
     = (sample_world, Ret true)
  /\ excludeHost rolling_env sample_config sample_creator 5 Background sample_hostPtr
       statefulSetStatusUnknown sample_world
     = (_ <- reconcileCHIConfigMaps rolling_env sample_creator Background PtrNew
               (Some (mkGeneratorOptions
                        (Some (mkRemoteServersOptions
                                 (Some sample_hostPtr)
                                 (Some (mkAttrs true false false false false))))))
               true ;;
        _ <- waitHostNotInCluster rolling_env 5 Background sample_hostPtr ;;
        ret noError)%go sample_world.
Proof.
  split; [reflexivity|]. split; [reflexivity|].
  exact (proj1 (proj1 (proj2 (excludeHost_excludes_and_waits rolling_env sample_config
                                sample_creator 5 Background sample_hostPtr
                                statefulSetStatusUnknown sample_world))
                      (fun t => eq_refl) eq_refl)).
Defined.






(** The update of the sample installation from its earlier version with
    one replica.  At the entry of the reconcile both replicas have
    [Migrate]; the first one, which the plan does not name, is marked
    [Unclear], the second one [Add]. *)
Lemma updateCHI_marks_hosts_before_reconcile_witness :
  isUpdate (Some earlier_chi) (Some sample_chi)
  && sameResourceVersion (Some earlier_chi) (Some sample_chi) = false
  /\ DeletionTimestamp_IsZero (chi_ObjectMeta sample_chi) = true
  /\ HasActionsToDo (update_plan earlier_chi sample_chi) = true
  /\ exists w2,
       updateCHI sample_env sample_config sample_creator sample_normalizer update_plan
         (fun _ => true) sample_rangeKeys 5 Background (Some earlier_chi) (Some sample_chi)
         initialWorld
       = updateCHI_reconcile sample_env sample_config sample_creator (fun _ => true)
           sample_rangeKeys 5 Background true (update_plan earlier_chi sample_chi)
           sample_chi w2
       /\ map (fun h => let a := host_ReconcileAttributes h in
                        (IsAdd a, IsModify a, IsUnclear a, IsMigrate a))
              (chi_hosts (getChi PtrNew w2))
          = [(false, false, true, true); (true, false, false, true)].
Proof.
  split; [reflexivity|]. split; [reflexivity|]. split; [reflexivity|].
  destruct (updateCHI_marks_hosts_before_reconcile sample_env sample_config sample_creator
              sample_normalizer update_plan (fun _ => true) sample_rangeKeys 5 Background
              (Some earlier_chi) sample_chi initialWorld eq_refl eq_refl eq_refl
              (fun t => eq_refl))
    as (w2 & Hrun & Hnew & _).
  exists w2. split; [exact Hrun|]. rewrite Hnew. reflexivity.
Defined.

(** Updating the sample NodePort service keeps the cluster IP the platform
    assigned. *)
Lemma updateService_preserves_assigned_fields_witness :
  Background (trace initialWorld) = false
  /\ spec_ClusterIP (svc_Spec (updateService_prepare sample_curService sample_newService))
     = spec_ClusterIP (svc_Spec sample_curService).
Proof.
  split; [reflexivity|].
  exact (proj1 (proj2 (updateService_preserves_assigned_fields sample_env Background PtrNew
                         sample_curService sample_newService initialWorld eq_refl))).
Defined.

Lemma sample_changed_names name :
  (exists q d, pvc_Requests sample_pvc !! name = Some q /\ sample_desired !! name = Some d
               /\ Quantity_Equal q d = false)
  <-> name = "storage".
Proof.
  unfold sample_pvc, sample_desired. cbn [pvc_Requests]. split.
  - intros (q & d & Hq & Hd & _).
    destruct (decide (name = "storage")) as [|Hs]; [done|].
    rewrite lookup_insert_ne in Hd by done.
    destruct (decide (name = "memory")) as [->|Hm].
    + by rewrite lookup_insert_ne, lookup_insert_ne in Hq.
    + by rewrite lookup_insert_ne in Hd.
  - intros ->. exists (sample_Gi 10), (sample_Gi 20). by rewrite !lookup_insert_eq.
Qed.

Lemma singleton_list {A} (a : A) (l : list A) :
  NoDup l -> (forall x, x ∈ l <-> x = a) -> l = [a].
Proof.
  intros Hnd Hin. destruct l as [|b l].
  - by destruct (not_elem_of_nil a); apply Hin.
  - assert (b = a) as -> by apply Hin, list_elem_of_here.
    destruct l as [|c l]; [done|].
    assert (c = a) as -> by (apply Hin; right; left).
    apply NoDup_cons in Hnd as [Hnotin _]. destruct Hnotin. left.
Qed.

(** The sample claim grows to the 20Gi of the template; its CPU request,
    which the template does not list, stays, and the memory the template
    lists is not added.  The one call is the update of the claim with
    these requests. *)
Lemma reconcileResourcesList_updates_common_names_witness :
  (forall t, Background t = false)
  /\ (forall (m : ResourceList) (k : string), k ∈ sample_rangeKeys m <-> is_Some (m !! k))
  /\ exists w' pvc',
       reconcileResourcesList sample_env sample_rangeKeys Background sample_pvc sample_desired
         initialWorld = (w', Ret pvc')
       /\ pvc_Requests pvc' !! "storage" = Some (sample_Gi 20)
       /\ pvc_Requests pvc' !! "cpu" = Some (mkQuantity 1 "DecimalSI")
       /\ pvc_Requests pvc' !! "memory" = None
       /\ map ev_op (trace w')
          = [OpKubeUpdatePVC
               (mkPVC (pvc_ObjectMeta sample_pvc)
                  (<["storage" := sample_Gi 20]> (pvc_Requests sample_pvc)))].
Proof.
  split; [reflexivity|]. split; [exact sample_rangeKeys_spec|].
  destruct (reconcileResourcesList_updates_common_names sample_env sample_rangeKeys Background
              sample_pvc sample_desired initialWorld (fun t => eq_refl) sample_rangeKeys_spec)
    as (w' & pvc' & Hrun & _ & Hboth & Hone & _ & _ & changed & evs & Htrace & Hnd & Hin & Hops
        & _).
  exists w', pvc'. split; [exact Hrun|]. split; [|split; [|split]].
  - exact (proj1 (Hboth "storage" (sample_Gi 10) (sample_Gi 20) eq_refl eq_refl) eq_refl).
  - exact (Hone "cpu" (or_intror eq_refl)).
  - exact (Hone "memory" (or_introl eq_refl)).
  - assert (changed = ["storage"]) as ->.
    { apply singleton_list; [exact Hnd|]. intros name. rewrite Hin.
      apply sample_changed_names. }
    rewrite Htrace. exact Hops.
Defined.

(** C9 (the code at the failing input).  The sample CHI already carries
    the finalizer, and [ensureFinalizer] calls [installFinalizer] on it all
    the same. *)
Theorem ensureFinalizer_installs_present_finalizer :
  InArray FinalizerName (om_Finalizers (chi_ObjectMeta sample_chi)) = true
  /\ ensureFinalizer sample_env sample_chi initialWorld
     = (emit (mkEvent (OpInstallFinalizer sample_chi) (AErr noError)) initialWorld, Ret tt).
Proof. split; [reflexivity | apply ensureFinalizer_always_installs]. Qed.


(** * The further properties on the sample installation *)

(** Including the first replica on a platform that refuses to create
    ConfigMaps announces the failure and returns nil. *)
Lemma exclude_and_include_return_nil_witness :
  let included :=
    includeHost occupied_env sample_config sample_creator 5 Background sample_hostPtr
      statefulSetStatusNew sample_world in
  exists err,
    included = (fst included, Ret err)
    /\ err = noError
    /\ existsb isStatusError (trace (fst included)) = true.
Proof.
  intros included.
  assert (H : included = (fst included, Ret noError)) by (vm_compute; reflexivity).
  exists noError. split; [exact H|]. split; [|vm_compute; reflexivity].
  exact (exclude_and_include_return_nil occupied_env sample_config sample_creator 5 Background
           sample_hostPtr statefulSetStatusNew sample_world (fst included) noError
           (or_intror H)).
Defined.

(** The first replica of the sample shard: with the policy Wait the worker
    waits for the inclusion as it waits for the exclusion. *)
Lemma shouldWaitIncludeHost_differs_witness :
  getHost sample_hostPtr sample_world = Some (sample_host 0 "chi-c1-cluster-0-0")
  /\ exists (sh : ChiShard) (include exclude : bool),
       GetShard sample_hostPtr sample_world = Some sh
       /\ shouldWaitIncludeHost sample_config sample_hostPtr statefulSetStatusModified
            sample_world = (sample_world, Ret include)
       /\ shouldWaitExcludeHost sample_config sample_hostPtr statefulSetStatusModified
            sample_world = (sample_world, Ret exclude).
Proof.
  split; [reflexivity|].
  destruct (shouldWaitIncludeHost_differs sample_config sample_hostPtr
              statefulSetStatusModified sample_world (sample_host 0 "chi-c1-cluster-0-0")
              eq_refl)
    as (sh & include & exclude & Hsh & Hinclude & Hexclude & _).
  exists sh, include, exclude. split; [exact Hsh|]. split; [exact Hinclude | exact Hexclude].
Defined.

(** The first replica carries the version the platform has: its
    StatefulSet is not touched, although the image differs. *)
Lemma reconcileStatefulSet_skips_same_version_witness :
  let cur := mkStatefulSet (sts_ObjectMeta (versioned_statefulSet "chi-c1-cluster-0-0"))
                           "image-v0" in
  Background (trace versioned_world) = false
  /\ sameVersion cur (versioned_statefulSet "chi-c1-cluster-0-0")
  /\ reconcileStatefulSet rolling_env sample_creator sample_rangeKeys Background
       sample_statefulSet sample_hostPtr versioned_world
     = (emit (mkEvent (OpGetStatefulSet
                         (sts_ObjectMeta (versioned_statefulSet "chi-c1-cluster-0-0")))
                      (AStatefulSet (Some cur) noError)) versioned_world,
        Ret noError).
Proof.
  intros cur.
  assert (Hsame : sameVersion cur (versioned_statefulSet "chi-c1-cluster-0-0")).
  { exists "v1". split; vm_compute; reflexivity. }
  split; [reflexivity|]. split; [exact Hsame|].
  exact (reconcileStatefulSet_skips_same_version rolling_env sample_creator sample_rangeKeys
           Background sample_statefulSet cur sample_hostPtr
           (versioned_host 0 "chi-c1-cluster-0-0") versioned_world eq_refl eq_refl eq_refl
           Hsame).
Defined.

(** The platform refuses to create the Service: the error that
    [reconcileService] returns has been announced. *)
Lemma object_reconcilers_announce_failures_witness :
  let failed := reconcileService failing_env Background PtrNew sample_newService sample_world in
  failed = (fst failed, Ret (Some (ErrOther "services quota exceeded")))
  /\ lastAnnounced PtrNew reconcileFailed (fst failed).
Proof.
  intros failed.
  assert (H : failed = (fst failed, Ret (Some (ErrOther "services quota exceeded"))))
    by (vm_compute; reflexivity).
  split; [exact H|].
  exact (proj1 (proj2 (object_reconcilers_announce_failures failing_env sample_creator
                         sample_rangeKeys))
           Background PtrNew sample_newService sample_world (fst failed)
           (ErrOther "services quota exceeded") H).
Defined.

(** A ConfigMap that exists is left alone by the create-only reconcile. *)
Lemma preliminary_never_updates_configMaps_witness :
  let configMap := mkConfigMap (sample_meta "chi-c1-common-configd") ∅ in
  Background (trace sample_world) = false
  /\ reconcileConfigMap configured_env Background PtrNew configMap false sample_world
     = (emit (mkEvent (OpGetConfigMap (cm_ObjectMeta configMap))
                      (AConfigMap (Some configMap) noError)) sample_world,
        Ret noError).
Proof.
  intros configMap. split; [reflexivity|].
  exact (proj2 (preliminary_never_updates_configMaps configured_env sample_creator)
           Background PtrNew configMap sample_world eq_refl eq_refl).
Defined.

(** On the empty platform the common ConfigMap is not found and is
    created. *)
Lemma reconcileConfigMap_without_current_witness :
  let configMap := mkConfigMap (sample_meta "chi-c1-common-configd") ∅ in
  (forall t, Background t = false)
  /\ ansConfigMap (sample_env (OpGetConfigMap (cm_ObjectMeta configMap)) (trace sample_world))
     = None
  /\ exists w' created announcements,
       reconcileConfigMap sample_env Background PtrNew configMap true sample_world
       = (w', Ret (ansErr created))
       /\ trace w'
          = trace sample_world
            ++ [mkEvent (OpGetConfigMap (cm_ObjectMeta configMap))
                        (sample_env (OpGetConfigMap (cm_ObjectMeta configMap))
                           (trace sample_world));
                mkEvent (OpKubeCreateConfigMap configMap) created]
            ++ announcements
       /\ Forall (fun e => isAnnounceOp (ev_op e) = true) announcements.
Proof.
  intros configMap. split; [reflexivity|]. split; [reflexivity|].
  exact (proj1 (reconcileConfigMap_without_current sample_env Background PtrNew configMap true
                  sample_world (fun t => eq_refl) eq_refl)
           eq_refl).
Defined.

(** The platform has the Service and refuses the update: the Service is
    deleted and created again with the resource version and the cluster IP
    of the Service that was found. *)
Lemma reconcileService_with_current_witness :
  (forall t, Background t = false)
  /\ ansService (occupied_env (OpGetService (svc_ObjectMeta sample_newService))
                   (trace sample_world))
     = Some sample_curService
  /\ exists w' created,
       reconcileService occupied_env Background PtrNew sample_newService sample_world
       = (w', Ret (ansErr created))
       /\ In (mkEvent (OpKubeCreateService
                           (updateService_prepare sample_curService sample_newService))
                        created) (trace w')
       /\ spec_ClusterIP (svc_Spec (updateService_prepare sample_curService sample_newService))
          = "10.0.0.7".
Proof.
  split; [reflexivity|]. split; [reflexivity|].
  assert (Hfails : ansErr (occupied_env
                             (OpKubeUpdateService
                                (updateService_prepare sample_curService sample_newService))
                             (trace sample_world
                              ++ [mkEvent (OpGetService (svc_ObjectMeta sample_newService))
                                          (occupied_env
                                             (OpGetService (svc_ObjectMeta sample_newService))
                                             (trace sample_world))]))
                   <> noError) by discriminate.
  destruct (proj2 (reconcileService_with_current occupied_env Background PtrNew
                     sample_newService sample_curService sample_world (fun t => eq_refl)
                     eq_refl)
              Hfails)
    as (w' & failed & deleted & created & announcements & Hrun & Htrace & _).
  exists w', created. split; [exact Hrun|]. split; [|reflexivity]. rewrite Htrace.
  apply in_or_app. right. apply in_or_app. left. cbn [In]. tauto.
Defined.

(** On the empty platform the Service is not found: it is deleted if it
    exists and created as given. *)
Lemma reconcileService_without_current_witness :
  (forall t, Background t = false)
  /\ ansService (sample_env (OpGetService (svc_ObjectMeta sample_newService))
                   (trace sample_world))
     = None
  /\ exists w' deleted created announcements,
       reconcileService sample_env Background PtrNew sample_newService sample_world
       = (w', Ret (ansErr created))
       /\ trace w'
          = trace sample_world
            ++ [mkEvent (OpGetService (svc_ObjectMeta sample_newService))
                        (sample_env (OpGetService (svc_ObjectMeta sample_newService))
                           (trace sample_world));
                mkEvent (OpDeleteServiceIfExists "ns" "clickhouse-c1") deleted;
                mkEvent (OpKubeCreateService sample_newService) created]
            ++ announcements.
Proof.
  split; [reflexivity|]. split; [reflexivity|].
  assert (Hmissing : ansErr (sample_env (OpGetService (svc_ObjectMeta sample_newService))
                               (trace sample_world))
                     <> noError) by discriminate.
  destruct (proj1 (reconcileService_without_current sample_env Background PtrNew
                     sample_newService sample_world (fun t => eq_refl) eq_refl)
              Hmissing)
    as (w' & deleted & created & announcements & Hrun & Htrace & _).
  exists w', deleted, created, announcements. split; [exact Hrun | exact Htrace].
Defined.

(** The first replica of the sample installation is not marked Migrate: its
    reconcile creates no table. *)
Lemma reconcileHost_creates_tables_on_migrate_only_witness :
  getHost sample_hostPtr sample_world = Some (sample_host 0 "chi-c1-cluster-0-0")
  /\ IsMigrate (host_ReconcileAttributes (sample_host 0 "chi-c1-cluster-0-0")) = false
  /\ Emits (never isCreateTablesOp) sample_world
       (fst (reconcileHost sample_env sample_config sample_creator sample_rangeKeys 5
               Background sample_hostPtr sample_world)).
Proof.
  split; [reflexivity|]. split; [reflexivity|].
  exact (reconcileHost_creates_tables_on_migrate_only sample_env sample_config sample_creator
           sample_rangeKeys 5 Background sample_hostPtr (sample_host 0 "chi-c1-cluster-0-0")
           sample_world eq_refl eq_refl).
Defined.

(** On the empty platform the reconcile of the first replica returns nil,
    and the replica is marked Reconciled; the second replica is as it
    was. *)
Lemma reconcileHost_marks_reconciled_witness :
  let ran := reconcileHost sample_env sample_config sample_creator sample_rangeKeys 5
               Background sample_hostPtr sample_world in
  ran = (fst ran, Ret noError)
  /\ (IsReconciled <$> (host_ReconcileAttributes <$> getHost sample_hostPtr (fst ran)))
     = Some true
  /\ getHost (mkHostPtr PtrNew 0 0 1) (fst ran) = getHost (mkHostPtr PtrNew 0 0 1) sample_world.
Proof.
  intros ran.
  assert (H : ran = (fst ran, Ret noError)) by (vm_compute; reflexivity).
  destruct (reconcileHost_marks_reconciled sample_env sample_config sample_creator
              sample_rangeKeys 5 Background sample_hostPtr
              (sample_host 0 "chi-c1-cluster-0-0") sample_world (fst ran) eq_refl eq_refl H)
    as [Hhost Hother].
  split; [exact H|]. split.
  - rewrite Hhost. reflexivity.
  - apply Hother. discriminate.
Defined.

(** On a platform that fails to create StatefulSets the reconcile of the
    first replica returns the error, and no host is marked. *)
Lemma reconcileHost_failure_marks_nothing_witness :
  let ran := reconcileHost failing_env sample_config sample_creator sample_rangeKeys 5
               Background sample_hostPtr sample_world in
  ran = (fst ran, Ret (Some (ErrOther "pod never became ready")))
  /\ forall other, getHost other (fst ran) = getHost other sample_world.
Proof.
  intros ran.
  assert (H : ran = (fst ran, Ret (Some (ErrOther "pod never became ready"))))
    by (vm_compute; reflexivity).
  split; [exact H|].
  exact (proj2 (reconcileHost_failure_marks_nothing failing_env sample_config sample_creator
                  sample_rangeKeys 5 Background sample_hostPtr sample_world (fst ran)
                  (ErrOther "pod never became ready") H)).
Defined.

(** On the empty platform the StatefulSet of the first replica is not
    found: nothing is deleted and no deleted host is counted. *)
Lemma deleteHost_without_statefulSet_witness :
  Background (trace sample_world) = false
  /\ exists w' completed,
       deleteHost sample_env (fun _ => true) Background sample_hostPtr sample_world
       = (w', Ret noError)
       /\ trace w'
          = [mkEvent (OpAnnounce sample_chi deleteStarted) (AErr noError);
             mkEvent (OpGetStatefulSetByHost sample_hostPtr)
                     (AStatefulSet None (Some ErrNotFound));
             mkEvent (OpAnnounce sample_chi deleteCompleted) completed]
       /\ forall p, getChi p w' = getChi p sample_world.
Proof.
  split; [reflexivity|].
  assert (Hmissing :
            ansErr (sample_env (OpGetStatefulSetByHost sample_hostPtr)
                      (trace sample_world
                       ++ [mkEvent (OpAnnounce (getChi (hp_CHI sample_hostPtr) sample_world)
                                      deleteStarted)
                                   (sample_env
                                      (OpAnnounce (getChi (hp_CHI sample_hostPtr) sample_world)
                                         deleteStarted)
                                      (trace sample_world))]))
            <> noError) by discriminate.
  exact (deleteHost_without_statefulSet sample_env (fun _ => true) Background sample_hostPtr
           sample_world eq_refl Hmissing).
Defined.

(** The platform has the StatefulSet and fails to delete the tables, but
    deletes the host: [deleteHost] returns nil and one deleted host is
    counted. *)
Lemma deleteHost_counts_and_returns_witness :
  let ran := deleteHost occupied_env (fun _ => true) Background sample_hostPtr sample_world in
  ran = (fst ran, Ret noError)
  /\ existsb isStatusError (trace (fst ran)) = true
  /\ st_DeletedHostsCount (chi_Status (getChi PtrNew (fst ran))) = int_incr 0.
Proof.
  intros ran.
  assert (H : ran = (fst ran, Ret noError)) by (vm_compute; reflexivity).
  split; [exact H|]. split; [vm_compute; reflexivity|].
  destruct (deleteHost_counts_and_returns occupied_env (fun _ => true) Background
              sample_hostPtr sample_world (fst ran) noError eq_refl eq_refl H)
    as (tables & deleted & updated & announced & _ & _ & _ & _ & Hcount).
  exact Hcount.
Defined.

(** A CHI that cannot be normalized is not deleted: the error of the
    normalization is returned after two announcements. *)
Lemma deleteCHI_fails_only_on_normalization_witness :
  let ran := deleteCHI sample_env rejecting_normalizer (fun _ => true) Background
               (Some sample_chi) initialWorld in
  ran = (fst ran, Ret (Some (ErrOther "invalid template")))
  /\ exists c c' started failed,
       Some sample_chi = Some c
       /\ CreateTemplatedCHI rejecting_normalizer c true
          = (c', Some (ErrOther "invalid template"))
       /\ trace (fst ran)
          = trace initialWorld ++ [mkEvent (OpAnnounce c deleteStarted) started;
                                   mkEvent (OpAnnounce c' deleteFailed) failed]
       /\ forall p, getChi p (fst ran) = getChi p initialWorld.
Proof.
  intros ran.
  assert (H : ran = (fst ran, Ret (Some (ErrOther "invalid template"))))
    by (vm_compute; reflexivity).
  split; [exact H|].
  exact (proj1 (deleteCHI_fails_only_on_normalization sample_env rejecting_normalizer
                  (fun _ => true))
           Background (Some sample_chi) initialWorld (fst ran)
           (ErrOther "invalid template") H).
Defined.

(** The sample installation with a deletion timestamp is deleted, and the
    finalizer is uninstalled as the last call. *)
Lemma finalizeCHI_guards_witness :
  let ran := finalizeCHI sample_env sample_normalizer (fun _ => true) Background deleted_chi
               initialWorld in
  Background (trace initialWorld) = false
  /\ ran = (fst ran, Ret noError)
  /\ exists before uninstalled,
       trace (fst ran)
       = before ++ [mkEvent (OpUninstallFinalizer (chi_setStatus DeleteStart deleted_chi))
                            uninstalled].
Proof.
  intros ran.
  assert (H : ran = (fst ran, Ret noError)) by (vm_compute; reflexivity).
  split; [reflexivity|]. split; [exact H|].
  assert (Hfetched :
            ansErr (sample_env (OpGetCHI (om_Namespace (chi_ObjectMeta deleted_chi))
                                  (om_Name (chi_ObjectMeta deleted_chi)))
                      (trace initialWorld)) = noError
            /\ is_Some (ansCHI (sample_env
                                  (OpGetCHI (om_Namespace (chi_ObjectMeta deleted_chi))
                                     (om_Name (chi_ObjectMeta deleted_chi)))
                                  (trace initialWorld)))
            /\ InArray FinalizerName (om_Finalizers (chi_ObjectMeta deleted_chi)) = true).
  { split; [reflexivity|]. split; [by eexists | reflexivity]. }
  destruct (proj2 (proj2 (finalizeCHI_guards sample_env sample_normalizer (fun _ => true)
                            Background deleted_chi initialWorld eq_refl))
              Hfetched eq_refl (fst ran) noError H)
    as (_ & deletion & uninstalled & Htrace).
  eexists _, uninstalled. rewrite Htrace, !app_assoc. reflexivity.
Defined.

(** The sample installation sent again with its resource version is
    ignored. *)
Lemma unchanged_resourceVersion_is_ignored_witness :
  chi_ResourceVersion sample_chi = chi_ResourceVersion resent_chi
  /\ processItem sample_env sample_config sample_creator sample_normalizer sample_plan
       (fun _ => true) sample_rangeKeys 5 Background
       (ReconcileCHI reconcileUpdate (Some sample_chi) (Some resent_chi)) initialWorld
     = (initialWorld, Ret noError).
Proof.
  split; [reflexivity|].
  exact (proj1 (proj2 (unchanged_resourceVersion_is_ignored sample_env sample_config
                         sample_creator sample_normalizer sample_plan (fun _ => true)
                         sample_rangeKeys 5 Background sample_chi resent_chi initialWorld
                         eq_refl))).
Defined.

(** The sample installation with a deletion timestamp. *)
Lemma deleted_CHI_is_not_reconciled_witness :
  DeletionTimestamp_IsZero (chi_ObjectMeta deleted_chi) = false
  /\ Emits (never isReconcileWrite) initialWorld
       (fst (updateCHI sample_env sample_config sample_creator sample_normalizer sample_plan
               (fun _ => true) sample_rangeKeys 5 Background None (Some deleted_chi)
               initialWorld)).
Proof.
  split; [reflexivity|].
  exact (deleted_CHI_is_not_reconciled sample_env sample_config sample_creator
           sample_normalizer sample_plan (fun _ => true) sample_rangeKeys 5 Background None
           deleted_chi initialWorld eq_refl).
Defined.

(** With a planner that finds nothing to do, the finalizer is installed on
    the sample installation and nothing else happens. *)
Lemma updateCHI_stops_before_reconcile_witness :
  HasActionsToDo (empty_plan (normalized sample_normalizer None)
                    (normalized sample_normalizer (Some sample_chi))) = false
  /\ exists w' installed announcements,
       updateCHI sample_env sample_config sample_creator sample_normalizer empty_plan
         (fun _ => true) sample_rangeKeys 5 Background None (Some sample_chi) initialWorld
       = (w', Ret noError)
       /\ trace w'
          = trace initialWorld
            ++ mkEvent (OpInstallFinalizer sample_chi) installed :: announcements
       /\ Forall (fun e => isAnnounceOp (ev_op e) = true) announcements
       /\ length announcements <= 2.
Proof.
  split; [reflexivity|].
  exact (proj1 (updateCHI_stops_before_reconcile sample_env sample_config sample_creator
                  sample_normalizer empty_plan (fun _ => true) sample_rangeKeys 5 Background
                  None sample_chi initialWorld eq_refl eq_refl)
           eq_refl).
Defined.

(** The stopped sample installation is reconciled without being added to
    the monitoring. *)
Lemma stopped_CHI_is_not_monitored_witness :
  IsStopped (normalized sample_normalizer (Some stopped_chi)) = true
  /\ Emits (never isUpdateWatchOp) initialWorld
       (fst (updateCHI sample_env sample_config sample_creator sample_normalizer sample_plan
               (fun _ => true) sample_rangeKeys 5 Background None (Some stopped_chi)
               initialWorld)).
Proof.
  split; [reflexivity|].
  exact (stopped_CHI_is_not_monitored sample_env sample_config sample_creator
           sample_normalizer sample_plan (fun _ => true) sample_rangeKeys 5 Background None
           stopped_chi initialWorld eq_refl).
Defined.

(** The error of a rejected CHI template is the error of the one call of
    the controller. *)
Lemma processItem_errors_witness :
  let item := ReconcileCHIT reconcileAdd None (Some (mkCHIT "template")) in
  let processed :=
    processItem failing_env sample_config sample_creator sample_normalizer sample_plan
      (fun _ => true) sample_rangeKeys 5 Background item initialWorld in
  processed = (fst processed, Ret (Some (ErrOther "template rejected")))
  /\ exists op a,
       fst processed = emit (mkEvent op a) initialWorld
       /\ ansErr a = Some (ErrOther "template rejected")
       /\ (reconcileAdd = reconcileAdd /\ op = OpAddChit (Some (mkCHIT "template"))
           \/ reconcileAdd = reconcileUpdate
              /\ op = OpUpdateChit None (Some (mkCHIT "template"))
           \/ reconcileAdd = reconcileDelete /\ op = OpDeleteChit None).
Proof.
  intros item processed.
  assert (H : processed = (fst processed, Ret (Some (ErrOther "template rejected"))))
    by (vm_compute; reflexivity).
  split; [exact H|].
  exact (processItem_errors failing_env sample_config sample_creator sample_normalizer
           sample_plan (fun _ => true) sample_rangeKeys 5 Background item initialWorld
           (fst processed) (ErrOther "template rejected") H).
Defined.

(** The cluster of an object that carries the label of the sample cluster,
    and the error for an object without the label. *)
Lemma objects_from_metadata_witness :
  let found :=
    createClusterFromObjectMeta sample_env sample_normalizer sample_clusterName
      sample_findCluster sample_clusterMeta initialWorld in
  found = (fst found, Ret (lookupCluster sample_chi 0, noError))
  /\ isSome (lookupCluster sample_chi 0) = isNil noError.
Proof.
  intros found.
  assert (H : found = (fst found, Ret (lookupCluster sample_chi 0, noError)))
    by (vm_compute; reflexivity).
  split; [exact H|].
  exact (proj1 (proj2 (objects_from_metadata sample_env sample_normalizer sample_clusterName
                         sample_findCluster)
                  sample_clusterMeta initialWorld (fst found) (lookupCluster sample_chi 0)
                  noError H)).
Defined.

(** The two volumes of the first replica are updated in order. *)
Lemma reconcilePersistentVolumes_updates_each_witness :
  Background (trace sample_world) = false
  /\ creator sample_world = Some PtrNew
  /\ exists w' updates,
       reconcilePersistentVolumes occupied_env sample_creator Background sample_hostPtr
         sample_world = (w', Ret tt)
       /\ map ev_op updates
          = [OpUpdatePersistentVolume (mkPV (sample_meta "pv-0"));
             OpUpdatePersistentVolume (mkPV (sample_meta "pv-1"))].
Proof.
  split; [reflexivity|]. split; [reflexivity|].
  destruct (reconcilePersistentVolumes_updates_each occupied_env sample_creator Background
              sample_hostPtr PtrNew sample_world eq_refl eq_refl)
    as (w' & updates & Hrun & _ & Hops & _).
  exists w', updates. split; [exact Hrun | exact Hops].
Defined.

(** A new StatefulSet is not waited for: the inclusion of the first
    replica does not probe the cluster. *)
Lemma includeHost_without_waiting_witness :
  shouldWaitIncludeHost sample_config sample_hostPtr statefulSetStatusNew sample_world
  = (sample_world, Ret false)
  /\ Emits (never isProbeOp) sample_world
       (fst (includeHost rolling_env sample_config sample_creator 5 Background sample_hostPtr
               statefulSetStatusNew sample_world)).
Proof.
  split; [reflexivity|].
  exact (proj1 (includeHost_without_waiting rolling_env sample_config sample_creator 5
                  Background sample_hostPtr statefulSetStatusNew sample_world eq_refl)).
Defined.

(** A Delete item without an installation panics. *)
Lemma nil_installation_panics_witness :
  Background (trace initialWorld) = false
  /\ processItem sample_env sample_config sample_creator sample_normalizer sample_plan
       (fun _ => true) sample_rangeKeys 5 Background (ReconcileCHI reconcileDelete None None)
       initialWorld
     = (initialWorld, Panic).
Proof.
  split; [reflexivity|].
  exact (proj1 (nil_installation_panics sample_env sample_config sample_creator
                  sample_normalizer sample_plan (fun _ => true) sample_rangeKeys 5 Background
                  None None (ReconcileCHI reconcileDelete None None) initialWorld eq_refl
                  (or_intror (or_intror eq_refl)))).
Defined.

(** The reconcile of the sample installation on the empty platform is
    completed. *)
Lemma reconcile_is_completed_witness :
  let walked := reconcile sample_env sample_config sample_creator sample_rangeKeys 5
                  Background PtrNew sample_world in
  let ran := updateCHI_reconcile sample_env sample_config sample_creator (fun _ => true)
               sample_rangeKeys 5 Background false (sample_plan emptyCHI sample_chi)
               sample_chi sample_world in
  walked = (fst walked, Ret noError)
  /\ ran = (fst ran, Ret noError)
  /\ exists c, getChi PtrNew (fst ran) = chi_setStatus ReconcileComplete c.
Proof.
  intros walked ran.
  assert (Hwalked : walked = (fst walked, Ret noError)) by (vm_compute; reflexivity).
  assert (Hran : ran = (fst ran, Ret noError)) by (vm_compute; reflexivity).
  split; [exact Hwalked|]. split; [exact Hran|].
  destruct (reconcile_is_completed sample_env sample_config sample_creator (fun _ => true)
              sample_rangeKeys 5 Background false (sample_plan emptyCHI sample_chi) sample_chi
              sample_world (fst walked) (fst ran) noError Hwalked Hran)
    as (_ & before & c & written & announced & Hchi & _).
  exists c. exact Hchi.
Defined.

(** The Service of the stopped sample installation is deleted, and no
    Service is reconciled. *)
Lemma stopped_CHI_has_no_entry_point_witness :
  Background (trace stopped_world) = false
  /\ IsStopped (getChi PtrNew stopped_world) = true
  /\ exists rest,
       trace (fst (reconcileCHIAuxObjectsPreliminary sample_env sample_creator Background
                     PtrNew stopped_world))
       = trace stopped_world
         ++ mkEvent (OpDeleteServiceCHI stopped_chi) (AErr noError) :: rest
       /\ Forall (fun e => isServiceReconcileOp (ev_op e) = false) rest.
Proof.
  split; [reflexivity|]. split; [reflexivity|].
  exact (proj1 (stopped_CHI_has_no_entry_point sample_env sample_creator Background PtrNew
                  stopped_world eq_refl)
           eq_refl).
Defined.
